(** * energy_charts: the aggregations of [app.py]

    A shallow embedding of the loader and of the two aggregators of the
    dashboard ([load_data], [calculate_monthly_stats],
    [calculate_capture_prices] and the yearly overview of [main]), and the
    properties of their reference specification.

    Numbers.  A pandas float cell is a [float64]: a finite value, one of the
    two infinities, or NaN (the missing value).  Finite values are exact
    rationals: rounding and the sign of zero are not modelled, the special
    values and the rules that produce them (division by zero, the mean of an
    empty selection, a missing cell after a left join) are.  The cells of
    the input file are finite.

    Frames.  A frame is the list of its rows, in frame order.  The pandas
    operations of the source ([groupby], [apply], [agg], [merge], [mean],
    [sum], [sort_values], [iloc], column arithmetic) are modelled by their
    results: [groupby(...).apply(f)] is the column of the values [f] returns
    for the groups, a [None] read as a missing value, and an empty frame
    when no group returns a value, in which case the
    [reset_index(name=...)] that follows raises.

    Objects.  A frame held in a variable is an object of the session state;
    [df.copy()] makes a new object and a column assignment changes the
    object it is applied to. *)

From Stdlib Require Import String ZArith QArith Qminmax List Bool Lia Lqa.
From Stdlib Require Import Permutation Sorted Mergesort Orders Morphisms Setoid.
From Stdlib Require Import Ascii DecimalString DecimalZ DecimalPos.
Import ListNotations.
Local Open Scope Q_scope.

(* ================================================================== *)
(** ** Float cells *)

Inductive float64 : Type :=
| Fin (q : Q)
| PInf
| NInf
| NaN.

(** Equality of cells: finite values are compared as rationals. *)
Definition feq (a b : float64) : Prop :=
  match a, b with
  | Fin x, Fin y => x == y
  | PInf, PInf | NInf, NInf | NaN, NaN => True
  | _, _ => False
  end.

Infix "=f=" := feq (at level 70, no associativity).

(** [isna]: the cell is a missing value.  An infinity is not. *)
Definition isna (a : float64) : bool :=
  match a with NaN => true | _ => false end.

Definition Qeqb0 (q : Q) : bool := Qeq_bool q 0.
Definition Qltb (a b : Q) : bool := negb (Qle_bool b a).

(** Addition of cells. *)
Definition fadd (a b : float64) : float64 :=
  match a, b with
  | NaN, _ | _, NaN => NaN
  | Fin x, Fin y => Fin (x + y)
  | PInf, NInf | NInf, PInf => NaN
  | PInf, _ | _, PInf => PInf
  | NInf, _ | _, NInf => NInf
  end.

Definition fneg (a : float64) : float64 :=
  match a with
  | Fin x => Fin (- x)
  | PInf => NInf
  | NInf => PInf
  | NaN => NaN
  end.

Definition fsub (a b : float64) : float64 := fadd a (fneg b).

(** Division of cells, as pandas divides two float columns: a finite value
    over zero is an infinity of its sign, zero over zero is NaN. *)
Definition fdiv (a b : float64) : float64 :=
  match a, b with
  | NaN, _ | _, NaN => NaN
  | Fin x, Fin y =>
      if Qeqb0 y then
        if Qeqb0 x then NaN else if Qltb 0 x then PInf else NInf
      else Fin (x / y)
  | Fin _, _ => Fin 0
  | PInf, Fin y => if Qltb y 0 then NInf else PInf
  | NInf, Fin y => if Qltb y 0 then PInf else NInf
  | _, _ => NaN
  end.

(** A column of cells. *)
Definition Series := list float64.

Definition dropna (s : Series) : Series := filter (fun v => negb (isna v)) s.

Definition fsum (s : Series) : float64 := fold_right fadd (Fin 0) s.

(** [Series.sum()]: missing values are skipped, the empty sum is 0. *)
Definition sum (s : Series) : float64 := fsum (dropna s).

(** [Series.mean()]: missing values are skipped, the mean of nothing is NaN. *)
Definition mean (s : Series) : float64 :=
  match dropna s with
  | [] => NaN
  | vs => fdiv (fsum vs) (Fin (inject_Z (Z.of_nat (length vs))))
  end.

(** A column of finite values read from the file. *)
Definition column (l : list Q) : Series := map Fin l.

Definition Qsum (l : list Q) : Q := fold_right Qplus 0 l.

(** The arithmetic mean of a list of rationals, [None] on the empty list. *)
Definition Qmean (l : list Q) : option Q :=
  match l with
  | [] => None
  | _ => Some (Qsum l / inject_Z (Z.of_nat (length l)))
  end.

(** An optional rational as a cell: undefined is NaN. *)
Definition cell (o : option Q) : float64 :=
  match o with Some q => Fin q | None => NaN end.

(* ================================================================== *)
(** ** Sorting a price column *)

Module QOrder <: TotalLeBool.
Definition t := Q.
Definition leb (a b : Q) : bool := Qle_bool a b.
Lemma leb_total : forall a b, leb a b = true \/ leb b a = true.
Proof.
  intros a b. unfold leb. rewrite !Qle_bool_iff.
  destruct (Qlt_le_dec a b) as [H | H]; [left; apply Qlt_le_weak, H | right; exact H].
Qed.
End QOrder.

Module QSort := Sort QOrder.

(** [Series.sort_values()] on a column of finite prices: ascending.  Two
    ascending arrangements of a column differ in the order of equal prices
    only. *)
Definition sort_values (l : list Q) : list Q := QSort.sort l.

(** [s.iloc[:n]] and [s.iloc[-n:]]. *)
Definition iloc_first {A} (n : nat) (l : list A) : list A := firstn n l.
Definition iloc_last {A} (n : nat) (l : list A) : list A :=
  skipn (length l - n) l.

(* ================================================================== *)
(** ** Group keys, [groupby] and [merge] *)

(** Values a frame can be grouped by: integers and tuples of keys, compared
    as Python compares them. *)
Class Key (K : Type) := kcmp : K -> K -> comparison.

#[export] Instance Key_Z : Key Z := Z.compare.

#[export] Instance Key_pair {K1 K2} `{Key K1} `{Key K2} : Key (K1 * K2) :=
  fun a b =>
    match kcmp (fst a) (fst b) with
    | Eq => kcmp (snd a) (snd b)
    | c => c
    end.

Definition keqb {K} `{Key K} (a b : K) : bool :=
  match kcmp a b with Eq => true | _ => false end.

Fixpoint key_insert {K} `{Key K} (k : K) (ks : list K) : list K :=
  match ks with
  | [] => [k]
  | k' :: ks' =>
      match kcmp k k' with
      | Eq => ks
      | Lt => k :: ks
      | Gt => k' :: key_insert k ks'
      end
  end.

(** The distinct keys of a column, ascending. *)
Definition unique_keys {K} `{Key K} (ks : list K) : list K :=
  fold_right key_insert [] ks.

(** [df.groupby(key)]: one group per distinct key, the groups in ascending
    key order, the rows of a group in frame order. *)
Definition groupby {K A} `{Key K} (key : A -> K) (rows : list A)
  : list (K * list A) :=
  map (fun k => (k, filter (fun r => keqb (key r) k) rows))
      (unique_keys (map key rows)).

(** The rows of a keyed table under key [k]. *)
Definition matches {K B} `{Key K} (k : K) (t : list (K * B)) : list B :=
  map snd (filter (fun kb => keqb (fst kb) k) t).

(** [pd.merge(l, r, on=key)]: the inner join, in the order of the left keys. *)
Definition merge_inner {K A B} `{Key K} (l : list (K * A)) (r : list (K * B))
  : list (K * (A * B)) :=
  flat_map (fun ka => map (fun b => (fst ka, (snd ka, b))) (matches (fst ka) r)) l.

(** [pd.merge(l, r, on=key, how='left')]: every left row is kept; one without
    a match gets missing cells. *)
Definition merge_left {K A B} `{Key K} (l : list (K * A)) (r : list (K * B))
  : list (K * (A * option B)) :=
  flat_map (fun ka =>
              match matches (fst ka) r with
              | [] => [(fst ka, (snd ka, None))]
              | bs => map (fun b => (fst ka, (snd ka, Some b))) bs
              end) l.

(** A labelled column read at a label of the aligned index: NaN where the
    column has no such label. *)
Definition at_label {K} `{Key K} (k : K) (s : list (K * float64)) : float64 :=
  match matches k s with
  | v :: _ => v
  | [] => NaN
  end.

(** The index of a frame built from labelled columns: the union of their
    labels, ascending. *)
Definition union_index {K} `{Key K} (cols : list (list (K * float64))) : list K :=
  unique_keys (flat_map (map fst) cols).

(* ================================================================== *)
(** ** The data model *)

Record Timestamp : Type := mkTimestamp {
  ts_year : Z;
  ts_month : Z;
  ts_day : Z;
  ts_hour : Z
}.

(** [datetime.date]: year, month, day. *)
Definition Date : Type := (Z * Z * Z)%type.

(** One parsed line of the input file. *)
Record CsvRow : Type := mkCsvRow {
  datetime_utc : Timestamp;
  csv_residual_load_mw_avg : Q;
  csv_day_ahead_price_eur_mwh : Q;
  csv_solar_mw_avg : Q
}.

(** One row of the loaded frame: the file's columns and the derived
    [datetime], [year], [month] and [date]. *)
Record Row : Type := mkRow {
  datetime : Timestamp;
  year : Z;
  month : Z;
  date : Date;
  residual_load_mw_avg : Q;
  day_ahead_price_eur_mwh : Q;
  solar_mw_avg : Q
}.

(** A frame object: its rows, and the [solar_revenue] column when the frame
    has one. *)
Record DataFrame : Type := mkDataFrame {
  records : list Row;
  solar_revenue : option (list Q)
}.

Definition INPUT_FILE : string :=
  "hourly_german_residual_load_and_prices_2024_present.csv"%string.

(** The file system as the loader sees it: the parsed content of
    [INPUT_FILE], or [None] when the file does not exist. *)
Definition FileSystem : Type := option (list CsvRow).

(* ================================================================== *)
(** ** Frame objects and the session state *)

(** Frames are objects: a variable holds a reference, and an assignment to a
    column changes the object for every holder.  The session state is the
    store of frame objects and the cache of [st.cache_data]. *)
Definition Ref : Type := nat.

Record State : Type := mkState {
  frames : list DataFrame;
  data_cache : option (option (list Row))
}.

(** Computations that read and write the state and may raise. *)
Definition M (A : Type) : Type := State -> option (A * State).

Definition ret {A} (a : A) : M A := fun s => Some (a, s).

Definition bind {A B} (c : M A) (k : A -> M B) : M B :=
  fun s => match c s with
           | Some (a, s') => k a s'
           | None => None
           end.

Notation "x <- c ;; k" := (bind c (fun x => k))
  (at level 61, c at next level, right associativity).

Definition raise {A} : M A := fun _ => None.

Definition lift {A} (o : option A) : M A :=
  match o with Some a => ret a | None => raise end.

Definition deref (p : Ref) : M DataFrame :=
  fun s => match nth_error (frames s) p with
           | Some f => Some (f, s)
           | None => None
           end.

Definition alloc (f : DataFrame) : M Ref :=
  fun s => Some (length (frames s), mkState (frames s ++ [f]) (data_cache s)).

Fixpoint update (l : list DataFrame) (p : Ref) (f : DataFrame) : list DataFrame :=
  match l, p with
  | [], _ => []
  | _ :: l', O => f :: l'
  | x :: l', S p' => x :: update l' p' f
  end.

(** [df.copy()]: a new object with the same rows and columns. *)
Definition copy (p : Ref) : M Ref := f <- deref p ;; alloc f.

(** [df['solar_revenue'] = c]: the object [p] refers to gets the column. *)
Definition setitem_solar_revenue (p : Ref) (c : list Q) : M unit :=
  f <- deref p ;;
  fun s => Some (tt, mkState (update (frames s) p (mkDataFrame (records f) (Some c)))
                             (data_cache s)).

(** The rows of a frame together with their [solar_revenue] cell; reading the
    column of a frame that has none raises. *)
Definition revenue_rows (p : Ref) : M (list (Row * Q)) :=
  f <- deref p ;;
  c <- lift (solar_revenue f) ;;
  ret (combine (records f) c).

(* ================================================================== *)
(** ** [load_data] *)

Definition load_row (c : CsvRow) : Row :=
  let dt := datetime_utc c in
  {| datetime := dt;
     year := ts_year dt;
     month := ts_month dt;
     date := (ts_year dt, ts_month dt, ts_day dt);
     residual_load_mw_avg := csv_residual_load_mw_avg c;
     day_ahead_price_eur_mwh := csv_day_ahead_price_eur_mwh c;
     solar_mw_avg := csv_solar_mw_avg c |}.

(** The body of [load_data]: [None] when the file does not exist, else the
    frame with its derived columns. *)
Definition load_data_body (fs : FileSystem) : option (list Row) :=
  match fs with
  | None => None
  | Some csv => Some (map load_row csv)
  end.

(** [@st.cache_data]: the body runs on the first call of the session and
    its result is stored; every call returns a fresh copy of the stored
    result. *)
Definition st_cache_data (body : option (list Row)) : M (option Ref) :=
  fun s =>
    let v := match data_cache s with
             | Some v => v
             | None => body
             end in
    match v with
    | None => Some (None, mkState (frames s) (Some v))
    | Some rows =>
        Some (Some (length (frames s)),
              mkState (frames s ++ [mkDataFrame rows None]) (Some v))
    end.

Definition load_data (fs : FileSystem) : M (option Ref) :=
  st_cache_data (load_data_body fs).

(* ================================================================== *)
(** ** [calculate_monthly_stats] *)

Definition key_month (r : Row) : Z * Z := (year r, month r).
Definition key_day (r : Row) : Z * Z * Date := (year r, month r, date r).

Definition count {A} (f : A -> bool) (l : list A) : float64 :=
  Fin (inject_Z (Z.of_nat (length (filter f l)))).

Definition daily_spread (g : list Row) : option float64 :=
  let sorted_prices := sort_values (map day_ahead_price_eur_mwh g) in
  if (length sorted_prices <? 8)%nat then None
  else Some (fsub (mean (column (iloc_last 4 sorted_prices)))
                  (mean (column (iloc_first 4 sorted_prices)))).

(** The values returned for the groups, as a float column: [None] is a
    missing value. *)
Definition as_float (o : option float64) : float64 :=
  match o with Some v => v | None => NaN end.

(** The values [apply] collects at line 34: one per (year, month, date)
    group, [None] for a day of fewer than 8 rows. *)
Definition spread_values (df : list Row) : list (Z * Z * Date * option float64) :=
  map (fun kg => (fst kg, daily_spread (snd kg))) (groupby key_day df).

Definition is_value (o : option float64) : bool :=
  match o with Some _ => true | None => false end.

(** [groupby(...).apply(f).reset_index(name=...)] for an [f] that returns a
    number or [None].  When some group returns a number, [apply] gives the
    column of the values, a [None] as a missing value, and [reset_index]
    names it.  When no group does (every value is [None], or there is no
    group), [apply] gives an empty frame, which has no [reset_index(name=...)]:
    the call raises. *)
Definition apply_reset_index {K} (values : list (K * option float64))
  : option (list (K * float64)) :=
  if existsb (fun v => is_value (snd v)) values
  then Some (map (fun v => (fst v, as_float (snd v))) values)
  else None.

Definition daily_spreads (df : list Row) : option (list (Z * Z * Date * float64)) :=
  apply_reset_index (spread_values df).

Definition monthly_spread (daily_spreads : list (Z * Z * Date * float64))
  : list (Z * Z * float64) :=
  map (fun kg => (fst kg, mean (map snd (snd kg))))
      (groupby (fun d : Z * Z * Date * float64 => fst (fst d)) daily_spreads).

Record MonthlyAgg : Type := mkMonthlyAgg {
  agg_avg_price : float64;
  agg_neg_hours : float64;
  agg_avg_price_res_neg : float64;
  agg_avg_price_res_high : float64
}.

Definition monthly_agg (g : list Row) : MonthlyAgg :=
  let avg_price := mean (column (map day_ahead_price_eur_mwh g)) in
  let neg_hours := count (fun r => Qltb (day_ahead_price_eur_mwh r) 0) g in
  let res_neg_price :=
    mean (column (map day_ahead_price_eur_mwh
                      (filter (fun r => Qltb (residual_load_mw_avg r) 0) g))) in
  let res_high_price :=
    mean (column (map day_ahead_price_eur_mwh
                      (filter (fun r => Qltb (60000 # 1) (residual_load_mw_avg r)) g))) in
  {| agg_avg_price := avg_price;
     agg_neg_hours := neg_hours;
     agg_avg_price_res_neg := res_neg_price;
     agg_avg_price_res_high := res_high_price |}.

(** One row of the monthly statistics. *)
Record StatsRow : Type := mkStatsRow {
  stats_year : Z;
  stats_month : Z;
  avg_price : float64;
  neg_hours : float64;
  avg_price_res_neg : float64;
  avg_price_res_high : float64;
  avg_spread : float64
}.

Definition stats_row (m : Z * Z * (MonthlyAgg * float64)) : StatsRow :=
  {| stats_year := fst (fst m);
     stats_month := snd (fst m);
     avg_price := agg_avg_price (fst (snd m));
     neg_hours := agg_neg_hours (fst (snd m));
     avg_price_res_neg := agg_avg_price_res_neg (fst (snd m));
     avg_price_res_high := agg_avg_price_res_high (fst (snd m));
     avg_spread := snd (snd m) |}.

(** The table [calculate_monthly_stats] builds from the rows of [df]; it
    raises where line 34 does. *)
Definition monthly_stats_table (df : list Row) : option (list StatsRow) :=
  match daily_spreads df with
  | None => None
  | Some daily =>
      let monthly_stats :=
        map (fun kg => (fst kg, monthly_agg (snd kg))) (groupby key_month df) in
      let merged := merge_inner monthly_stats (monthly_spread daily) in
      Some (map stats_row merged)
  end.

Definition calculate_monthly_stats (df : Ref) : M (list StatsRow) :=
  f <- deref df ;;
  lift (monthly_stats_table (records f)).

(* ================================================================== *)
(** ** [calculate_capture_prices] *)

Definition revenue (r : Row) : Q := solar_mw_avg r * day_ahead_price_eur_mwh r.

Definition price_of (x : Row * Q) : Q := day_ahead_price_eur_mwh (fst x).
Definition solar_of (x : Row * Q) : Q := solar_mw_avg (fst x).

(** [df[df['day_ahead_price_eur_mwh'] >= 0]]. *)
Definition nonneg_price (x : Row * Q) : bool := Qle_bool 0 (price_of x).

(** The result of [.agg] on one group of all hours: the sums of
    [solar_mw_avg] and [solar_revenue] and the mean price. *)
Record Grouped : Type := mkGrouped {
  grp_solar_mw_avg : float64;
  grp_solar_revenue : float64;
  grp_day_ahead_price_eur_mwh : float64
}.

(** The result of [.agg] on one group of the non-negative-price hours. *)
Record GroupedPos : Type := mkGroupedPos {
  grp_solar_mw_pos : float64;
  grp_solar_rev_pos : float64
}.

Definition agg_all (g : list (Row * Q)) : Grouped :=
  {| grp_solar_mw_avg := sum (column (map solar_of g));
     grp_solar_revenue := sum (column (map snd g));
     grp_day_ahead_price_eur_mwh := mean (column (map price_of g)) |}.

Definition agg_pos (g : list (Row * Q)) : GroupedPos :=
  {| grp_solar_mw_pos := sum (column (map solar_of g));
     grp_solar_rev_pos := sum (column (map snd g)) |}.

(** One row of the capture-price table. *)
Record CaptureRow : Type := mkCaptureRow {
  cap_year : Z;
  cap_month : Z;
  sum_solar_mw_avg : float64;
  sum_solar_revenue : float64;
  mean_day_ahead_price_eur_mwh : float64;
  solar_mw_pos : float64;
  solar_rev_pos : float64;
  pv_price : float64;
  pv_price_pos : float64;
  baseload_price : float64;
  capture_rate : float64
}.

Definition pos_cell (f : GroupedPos -> float64) (o : option GroupedPos) : float64 :=
  match o with Some p => f p | None => NaN end.

Definition capture_row (m : Z * Z * (Grouped * option GroupedPos)) : CaptureRow :=
  let g := fst (snd m) in
  let p := snd (snd m) in
  let pv_price := fdiv (grp_solar_revenue g) (grp_solar_mw_avg g) in
  let pv_price_pos :=
    fdiv (pos_cell grp_solar_rev_pos p) (pos_cell grp_solar_mw_pos p) in
  let baseload_price := grp_day_ahead_price_eur_mwh g in
  {| cap_year := fst (fst m);
     cap_month := snd (fst m);
     sum_solar_mw_avg := grp_solar_mw_avg g;
     sum_solar_revenue := grp_solar_revenue g;
     mean_day_ahead_price_eur_mwh := grp_day_ahead_price_eur_mwh g;
     solar_mw_pos := pos_cell grp_solar_mw_pos p;
     solar_rev_pos := pos_cell grp_solar_rev_pos p;
     pv_price := pv_price;
     pv_price_pos := pv_price_pos;
     baseload_price := baseload_price;
     capture_rate := fdiv pv_price baseload_price |}.

(** The table built from the working copy, whose rows carry their
    [solar_revenue]. *)
Definition capture_table (df : list (Row * Q)) : list CaptureRow :=
  let df_pos := filter nonneg_price df in
  let monthly_grouped :=
    map (fun kg => (fst kg, agg_all (snd kg)))
        (groupby (fun x => key_month (fst x)) df) in
  let monthly_pos :=
    map (fun kg => (fst kg, agg_pos (snd kg)))
        (groupby (fun x => key_month (fst x)) df_pos) in
  let merged := merge_left monthly_grouped monthly_pos in
  map capture_row merged.

Definition calculate_capture_prices (df : Ref) : M (list CaptureRow) :=
  df <- copy df ;;
  f <- deref df ;;
  _ <- setitem_solar_revenue df (map revenue (records f)) ;;
  rows <- revenue_rows df ;;
  ret (capture_table rows).

(* ================================================================== *)
(** ** [main] *)

(** One row of the yearly overview. *)
Record YearRow : Type := mkYearRow {
  yr_year : Z;
  PV_Price : float64;
  PV_Price_Pos : float64;
  Baseload_Price : float64;
  Capture_Rate : float64
}.

(** The yearly overview of the second tab, from the rows of [yearly_df]
    with their [solar_revenue].  The columns of [y_res] are aligned on the
    union of their year labels. *)
Definition yearly_overview (yearly_df : list (Row * Q)) : list YearRow :=
  let yearly_pos := filter nonneg_price yearly_df in
  let y_grp :=
    map (fun kg => (fst kg, agg_all (snd kg)))
        (groupby (fun x => year (fst x)) yearly_df) in
  let y_pos_grp :=
    map (fun kg => (fst kg, agg_pos (snd kg)))
        (groupby (fun x => year (fst x)) yearly_pos) in
  let col_pv :=
    map (fun kg => (fst kg, fdiv (grp_solar_revenue (snd kg)) (grp_solar_mw_avg (snd kg))))
        y_grp in
  let col_pos :=
    map (fun kg => (fst kg, fdiv (grp_solar_rev_pos (snd kg)) (grp_solar_mw_pos (snd kg))))
        y_pos_grp in
  let col_base :=
    map (fun kg => (fst kg, grp_day_ahead_price_eur_mwh (snd kg))) y_grp in
  let index := union_index [col_pv; col_pos; col_base] in
  map (fun y =>
         {| yr_year := y;
            PV_Price := at_label y col_pv;
            PV_Price_Pos := at_label y col_pos;
            Baseload_Price := at_label y col_base;
            Capture_Rate := fdiv (at_label y col_pv) (at_label y col_base) |})
      index.

(** What [main] puts on the page.  The [month_name] column and the cell
    formats of the tables, and the scatter plots of the third tab, which
    read [df] and compute no aggregate, are left out. *)
Inductive Event : Type :=
| st_title (s : string)
| st_markdown (s : string)
| st_error (s : string)
| st_tabs (names : list string)
| st_header (s : string)
| st_subheader (s : string)
| st_multiselect (label : string) (options : list Z)
| show_stats (t : list StatsRow)
| show_yearly (t : list YearRow)
| show_capture (t : list CaptureRow).

Definition TITLE : string := "🇩🇪 Energy Charts Dashboard"%string.
Definition INTRO : string :=
  "Analysis of German residual load, electricity prices, and solar capture rates."%string.

Definition not_found_message : string :=
  ("Data file `" ++ INPUT_FILE ++ "` not found. Please run the fetch script.")%string.

(** The choices of the user in the widgets. *)
Record Widgets : Type := mkWidgets {
  selected_years : list Z
}.

Definition isin (y : Z) (l : list Z) : bool := existsb (Z.eqb y) l.

Definition main (fs : FileSystem) (ui : Widgets) : M (list Event) :=
  df <- load_data fs ;;
  match df with
  | None =>
      ret [st_title TITLE; st_markdown INTRO; st_error not_found_message]
  | Some df =>
      stats_df <- calculate_monthly_stats df ;;
      let years := unique_keys (map stats_year stats_df) in
      let show_df := filter (fun r => isin (stats_year r) (selected_years ui)) stats_df in
      cap_df <- calculate_capture_prices df ;;
      yearly_df <- copy df ;;
      f <- deref yearly_df ;;
      _ <- setitem_solar_revenue yearly_df (map revenue (records f)) ;;
      rows <- revenue_rows yearly_df ;;
      ret [st_title TITLE; st_markdown INTRO;
           st_tabs ["Monthly Statistics"; "Solar Capture Prices"; "Scatter Plots"]%string;
           st_header "Monthly Market Statistics";
           st_multiselect "Select Years" years;
           show_stats show_df;
           st_header "Solar Capture Prices & Curtailment";
           st_subheader "Yearly Overview";
           show_yearly (yearly_overview rows);
           st_subheader "Monthly Details";
           show_capture cap_df]
  end.

(** Running a computation in a fresh session. *)
Definition fresh : State := mkState [] None.

Definition run {A} (c : M A) (s : State) : option A :=
  match c s with Some (a, _) => Some a | None => None end.

(** An event that shows an aggregate table. *)
Definition is_aggregate (e : Event) : bool :=
  match e with
  | show_stats _ | show_yearly _ | show_capture _ => true
  | _ => false
  end.

Definition is_error (e : Event) : bool :=
  match e with st_error _ => true | _ => false end.

(* ================================================================== *)
(** ** The reference computations of the specification *)

(** [ascending ks]: strictly ascending keys, hence without duplicates. *)
Definition ascending {K} `{Key K} (ks : list K) : Prop :=
  StronglySorted (fun a b => kcmp a b = Lt) ks.

(** The group of key [k]: the rows with that key, in frame order. *)
Definition group_of {K A} `{Key K} (key : A -> K) (k : K) (rows : list A) : list A :=
  filter (fun r => keqb (key r) k) rows.

(** The (year, month) group of a frame. *)
Definition month_group (k : Z * Z) (df : list Row) : list Row :=
  group_of key_month k df.

Definition prices (g : list Row) : list Q := map day_ahead_price_eur_mwh g.

(** The 4 lowest and the 4 highest prices of a day: the first and the last
    four of the prices sorted ascending. *)
Definition bottom4 (ps : list Q) : list Q := firstn 4 (sort_values ps).
Definition top4 (ps : list Q) : list Q :=
  skipn (length ps - 4) (sort_values ps).

Definition mean4 (l : list Q) : Q := Qsum l / 4.

(** The daily spread as the specification words it: defined for a day of
    at least 8 hourly prices. *)
Definition spread_spec (ps : list Q) : option Q :=
  if (length ps <? 8)%nat then None
  else Some (mean4 (top4 ps) - mean4 (bottom4 ps)).

Definition defined (o : option Q) : list Q :=
  match o with Some v => [v] | None => [] end.

(** The defined daily spreads of a month, day by day. *)
Definition defined_spreads (G : list Row) : list Q :=
  flat_map (fun kg => defined (spread_spec (prices (snd kg)))) (groupby key_day G).

(** The monthly average spread as the specification words it. *)
Definition avg_spread_spec (G : list Row) : option Q :=
  Qmean (defined_spreads G).

(** A quotient of two sums, undefined when the denominator is 0. *)
Definition ratio_spec (num den : Q) : option Q :=
  if Qeqb0 den then None else Some (num / den).

(** The capture price of a group as the specification words it. *)
Definition pv_price_spec (G : list Row) : option Q :=
  ratio_spec (Qsum (map revenue G)) (Qsum (map solar_mw_avg G)).

(** The rows of a group with a non-negative price. *)
Definition nonneg_hours (G : list Row) : list Row :=
  filter (fun r => Qle_bool 0 (day_ahead_price_eur_mwh r)) G.

Definition neg_hours_of (G : list Row) : list Row :=
  filter (fun r => negb (Qle_bool 0 (day_ahead_price_eur_mwh r))) G.

Definition pv_price_pos_spec (G : list Row) : option Q :=
  match nonneg_hours G with
  | [] => None
  | P => pv_price_spec P
  end.

Definition nonneg_solar (G : list Row) : Prop :=
  Forall (fun r => 0 <= solar_mw_avg r) G.

(* ================================================================== *)
(** ** Derived tables and example frames *)

(** The frame has a day of 8 hourly rows or more: line 34 does not raise. *)
Definition has_full_day (df : list Row) : bool :=
  existsb (fun v => is_value (snd v)) (spread_values df).

(** The table of daily spreads and the rows of the monthly statistics, as
    they are when line 34 does not raise. *)
Definition daily_table (df : list Row) : list (Z * Z * Date * float64) :=
  map (fun kg => (fst kg, as_float (daily_spread (snd kg)))) (groupby key_day df).

Definition stats_rows (df : list Row) : list StatsRow :=
  let monthly_stats := map (fun kg => (fst kg, monthly_agg (snd kg))) (groupby key_month df) in
  let merged := merge_inner monthly_stats (monthly_spread (daily_table df)) in
  map stats_row merged.

(** The months of a frame: its distinct (year, month) keys, ascending. *)
Definition months (df : list Row) : list (Z * Z) := unique_keys (map key_month df).

(** The average spread of a month as the code computes it from the rows of
    the month. *)
Definition month_spread (G : list Row) : float64 :=
  mean (map (fun kg => as_float (daily_spread (snd kg))) (groupby key_day G)).

Definition example_prices : list Q := [10; 20; 30; 40; 50; 60; 70; 80].

Definition res_neg (G : list Row) : list Row :=
  filter (fun r => Qltb (residual_load_mw_avg r) 0) G.

Definition res_high (G : list Row) : list Row :=
  filter (fun r => Qltb (60000 # 1) (residual_load_mw_avg r)) G.

(** The rows of a frame with their [solar_revenue] cell. *)
Definition with_revenue (df : list Row) : list (Row * Q) :=
  map (fun r => (r, revenue r)) df.

(** The aggregate of the non-negative-price hours of a group, when there
    are any. *)
Definition pos_part (P : list (Row * Q)) : option GroupedPos :=
  match P with
  | [] => None
  | _ => Some (agg_pos P)
  end.

(** The table [calculate_capture_prices] returns for a frame of rows [df]. *)
Definition capture_prices (df : list Row) : list CaptureRow :=
  capture_table (with_revenue df).

(** The row of the capture-price table for a month whose rows are [G]. *)
Definition capture_row_of (k : Z * Z) (G : list Row) : CaptureRow :=
  capture_row (k, (agg_all (with_revenue G), pos_part (with_revenue (nonneg_hours G)))).

(** A frame of hourly records as the loader builds them. *)
Definition hour (y m d h : Z) (res price solar : Q) : Row :=
  load_row (mkCsvRow (mkTimestamp y m d h) res price solar).

(** The years of a frame and the rows of one year. *)
Definition year_group (y : Z) (df : list Row) : list Row := group_of year y df.

(** The equally weighted mean of the monthly pv_price values of a year. *)
Definition mean_monthly_pv_price (y : Z) (df : list Row) : float64 :=
  mean (map pv_price (filter (fun row => Z.eqb (cap_year row) y) (capture_prices df))).

Definition two_months : list Row :=
  [hour 2024 1 1 12 40000 10 1; hour 2024 2 1 12 40000 20 3].

(** The working copy a function makes of the frame [f] and extends with the
    [solar_revenue] column. *)
Definition working_copy (f : DataFrame) : DataFrame :=
  mkDataFrame (records f) (Some (map revenue (records f))).

(** The frame the loader builds from the lines of the file. *)
Definition loaded (csv : list CsvRow) : DataFrame :=
  mkDataFrame (map load_row csv) None.

Definition count_if {A} (p : A -> bool) (l : list A) : nat := length (filter p l).

(** A month with one day of eight hours, prices 10 to 80, and one day of two
    hours, the second under negative residual load and at a negative price. *)
Definition january : list Row :=
  [hour 2024 1 1 0 40000 10 0; hour 2024 1 1 1 40000 20 0;
   hour 2024 1 1 2 40000 30 1; hour 2024 1 1 3 40000 40 2;
   hour 2024 1 1 4 40000 50 3; hour 2024 1 1 5 40000 60 2;
   hour 2024 1 1 6 40000 70 1; hour 2024 1 1 7 40000 80 0;
   hour 2024 1 2 0 40000 5 1; hour 2024 1 2 1 (-5) (-12) 2].

(** The lines of a file from which the loader builds [january]. *)
Definition january_csv : list CsvRow :=
  [mkCsvRow (mkTimestamp 2024 1 1 0) 40000 10 0;
   mkCsvRow (mkTimestamp 2024 1 1 1) 40000 20 0;
   mkCsvRow (mkTimestamp 2024 1 1 2) 40000 30 1;
   mkCsvRow (mkTimestamp 2024 1 1 3) 40000 40 2;
   mkCsvRow (mkTimestamp 2024 1 1 4) 40000 50 3;
   mkCsvRow (mkTimestamp 2024 1 1 5) 40000 60 2;
   mkCsvRow (mkTimestamp 2024 1 1 6) 40000 70 1;
   mkCsvRow (mkTimestamp 2024 1 1 7) 40000 80 0;
   mkCsvRow (mkTimestamp 2024 1 2 0) 40000 5 1;
   mkCsvRow (mkTimestamp 2024 1 2 1) (-5) (-12) 2].

Definition january_key : Z * Z := (2024%Z, 1%Z).

(** A session whose store holds the frame [january]. *)
Definition january_session : State := mkState [mkDataFrame january None] None.

Definition first_day : list Row := firstn 8 january.

Definition january_stats : StatsRow :=
  stats_row (january_key, (monthly_agg (month_group january_key january),
                           month_spread (month_group january_key january))).

Definition january_capture : CaptureRow :=
  capture_row_of january_key (month_group january_key january).

(** A month without solar output. *)
Definition night : list Row :=
  [hour 2024 1 1 0 40000 10 0; hour 2024 1 1 1 40000 (-3) 0].

Definition night_capture : CaptureRow :=
  capture_row_of january_key (month_group january_key night).

(** A month whose prices average 0 and whose solar revenue does not. *)
Definition zero_baseload : list Row :=
  [hour 2024 1 1 12 40000 1 2; hour 2024 1 1 13 40000 (-1) 1].

(** A month whose prices and whose solar revenue both average 0. *)
Definition zero_capture : list Row :=
  [hour 2024 1 1 12 40000 1 1; hour 2024 1 1 13 40000 (-1) 1].

(** A month whose solar column adds up to 0 with a negative entry, at
    non-negative prices. *)
Definition negative_solar : list Row :=
  [hour 2024 1 1 12 40000 1 1; hour 2024 1 1 13 40000 2 (-1)].

(* ================================================================== *)
(** ** The table of the first tab and the plots of the third *)

(** [l[i]] on a Python list: a negative index counts from the end, an index
    out of range raises. *)
Definition py_getitem {A} (l : list A) (i : Z) : option A :=
  if (0 <=? i)%Z then nth_error l (Z.to_nat i)
  else if (- Z.of_nat (length l) <=? i)%Z
       then nth_error l (Z.to_nat (Z.of_nat (length l) + i))
       else None.

(** [l.index(x)]: the first position of [x], raising when there is none. *)
Fixpoint py_index (x : string) (l : list string) : option Z :=
  match l with
  | [] => None
  | y :: l' =>
      if String.eqb x y then Some 0%Z
      else option_map Z.succ (py_index x l')
  end.

(** [calendar.month_name] and [calendar.month_abbr], in the default locale. *)
Definition calendar_month_name : list string :=
  [""; "January"; "February"; "March"; "April"; "May"; "June"; "July";
   "August"; "September"; "October"; "November"; "December"]%string.

Definition calendar_month_abbr : list string :=
  [""; "Jan"; "Feb"; "Mar"; "Apr"; "May"; "Jun"; "Jul"; "Aug"; "Sep"; "Oct";
   "Nov"; "Dec"]%string.

(** One line of the table of the first tab: the columns of [cols_to_show]. *)
Record ShowRow : Type := mkShowRow {
  month_name : string;
  show_year : Z;
  show_avg_price : float64;
  show_avg_spread : float64;
  show_neg_hours : float64;
  show_avg_price_res_neg : float64;
  show_avg_price_res_high : float64
}.

Definition show_row (r : StatsRow) : option ShowRow :=
  match py_getitem calendar_month_abbr (stats_month r) with
  | Some name =>
      Some {| month_name := name;
              show_year := stats_year r;
              show_avg_price := avg_price r;
              show_avg_spread := avg_spread r;
              show_neg_hours := neg_hours r;
              show_avg_price_res_neg := avg_price_res_neg r;
              show_avg_price_res_high := avg_price_res_high r |}
  | None => None
  end.

(** [column.apply(f)] with an [f] that may raise. *)
Fixpoint apply_rows {A B} (f : A -> option B) (l : list A) : option (list B) :=
  match l with
  | [] => Some []
  | a :: l' =>
      match f a with
      | Some b => option_map (cons b) (apply_rows f l')
      | None => None
      end
  end.

(** The table of the first tab (lines 101 to 106): the rows of the selected
    years with their [month_name]. *)
Definition monthly_statistics_view (stats_df : list StatsRow) (selected : list Z)
  : option (list ShowRow) :=
  let show_df := filter (fun r => isin (stats_year r) selected) stats_df in
  apply_rows show_row show_df.

(** The options of the month select boxes: [list(calendar.month_name)[1:]]. *)
Definition month_options : list string := tl calendar_month_name.

(** [df[(df['year'] == y) & (df['month'] == month_idx)]] for the month chosen
    by name. *)
Definition selection (df : list Row) (y : Z) (m : string) : option (list Row) :=
  match py_index m calendar_month_name with
  | Some month_idx =>
      Some (filter (fun r => Z.eqb (year r) y && Z.eqb (month r) month_idx) df)
  | None => None
  end.

Inductive Plot : Type :=
| st_warning (s : string)
| st_altair_chart (data : list Row).

(** The scatter plot of the third tab (lines 162 to 176). *)
Definition scatter (df : list Row) (sel_year : Z) (sel_month : string) : option Plot :=
  match selection df sel_year sel_month with
  | Some chart_data =>
      Some (match chart_data with
            | [] => st_warning "No data for selection."
            | _ => st_altair_chart chart_data
            end)
  | None => None
  end.

(** [str(y)] of an integer. *)
Definition str (y : Z) : string := NilZero.string_of_int (Z.to_int y).

(** The label of a compared month: [f"{m} {y}"]. *)
Definition label (m : string) (y : Z) : string := (m ++ " " ++ str y)%string.

(** The data of the comparison chart (lines 189 to 196): the rows of month A
    and the rows of month B, each with its label; [None] when there is no
    row and no chart is drawn. *)
Definition compare_months (df : list Row) (y1 : Z) (m1 : string) (y2 : Z) (m2 : string)
  : option (option (list (Row * string))) :=
  match selection df y1 m1 with
  | Some d1 =>
      match selection df y2 m2 with
      | Some d2 =>
          let comp_data :=
            map (fun r => (r, label m1 y1)) d1 ++ map (fun r => (r, label m2 y2)) d2 in
          Some (match comp_data with
                | [] => None
                | _ => Some comp_data
                end)
      | None => None
      end
  | None => None
  end.

(** The page [main] shows for a frame of rows [df] whose monthly statistics
    are [stats_df]. *)
Definition page (ui : Widgets) (df : list Row) (stats_df : list StatsRow) : list Event :=
  [st_title TITLE; st_markdown INTRO;
   st_tabs ["Monthly Statistics"; "Solar Capture Prices"; "Scatter Plots"]%string;
   st_header "Monthly Market Statistics";
   st_multiselect "Select Years" (unique_keys (map stats_year stats_df));
   show_stats (filter (fun r => isin (stats_year r) (selected_years ui)) stats_df);
   st_header "Solar Capture Prices & Curtailment";
   st_subheader "Yearly Overview";
   show_yearly (yearly_overview (with_revenue df));
   st_subheader "Monthly Details";
   show_capture (capture_prices df)].

(* ================================================================== *)
(** ** Keys, rows and frames of the further properties *)

Definition stats_key (r : StatsRow) : Z * Z := (stats_year r, stats_month r).
Definition cap_key (r : CaptureRow) : Z * Z := (cap_year r, cap_month r).

Definition by_year (x : Row * Q) : Z := year (fst x).

(** The cell of the [PV Price (Pos)] column for a year whose rows are [Y]. *)
Definition pv_pos_of (Y : list Row) : float64 :=
  match nonneg_hours Y with
  | [] => NaN
  | P => fdiv (Fin (Qsum (map revenue P))) (Fin (Qsum (map solar_mw_avg P)))
  end.

(** The row of the yearly overview for a year whose rows are [Y]. *)
Definition year_row_of (y : Z) (Y : list Row) : YearRow :=
  let pv := fdiv (Fin (Qsum (map revenue Y))) (Fin (Qsum (map solar_mw_avg Y))) in
  {| yr_year := y;
     PV_Price := pv;
     PV_Price_Pos := pv_pos_of Y;
     Baseload_Price := cell (Qmean (prices Y));
     Capture_Rate := fdiv pv (cell (Qmean (prices Y))) |}.

(** The months of year [y] in the frame. *)
Definition months_of_year (y : Z) (df : list Row) : list (Z * Z) :=
  filter (fun k => Z.eqb (fst k) y) (months df).

(** Rows of the two tables with the same key and equal cells. *)
Definition stats_row_feq (a b : StatsRow) : Prop :=
  stats_key a = stats_key b /\
  avg_price a =f= avg_price b /\
  neg_hours a =f= neg_hours b /\
  avg_price_res_neg a =f= avg_price_res_neg b /\
  avg_price_res_high a =f= avg_price_res_high b /\
  avg_spread a =f= avg_spread b.

Definition capture_row_feq (a b : CaptureRow) : Prop :=
  cap_key a = cap_key b /\
  pv_price a =f= pv_price b /\
  pv_price_pos a =f= pv_price_pos b /\
  baseload_price a =f= baseload_price b /\
  capture_rate a =f= capture_rate b.

Definition absent_page : list Event :=
  [st_title TITLE; st_markdown INTRO; st_error not_found_message].

Definition no_space (s : string) : bool :=
  forallb (fun c => negb (Ascii.eqb c " ")) (list_ascii_of_string s).

Definition day_key_of (d : Date) : Z * Z * Date := (fst (fst d), snd (fst d), d).

Definition first_day_stats : StatsRow :=
  stats_row (january_key, (monthly_agg (month_group january_key first_day),
                           month_spread (month_group january_key first_day))).

Definition first_day_capture : CaptureRow :=
  capture_row_of january_key (month_group january_key first_day).

Definition january_year : YearRow :=
  year_row_of 2024 (year_group 2024 january).

Definition two_months_year : YearRow :=
  year_row_of 2024 (year_group 2024 two_months).

(* ================================================================== *)
(** * Properties *)

(** ** Cells and columns *)

#[export] Instance feq_Equivalence : Equivalence feq.
Proof.
  split.
  - intros [x| | |]; simpl; auto. reflexivity.
  - intros [x| | |] [y| | |]; simpl; auto. intros H; symmetry; exact H.
  - intros [x| | |] [y| | |] [z| | |]; simpl; auto; try contradiction.
    intros H1 H2; rewrite H1; exact H2.
Qed.

Lemma Qeqb0_true (q : Q) : Qeqb0 q = true <-> q == 0.
Proof. unfold Qeqb0. apply Qeq_bool_iff. Qed.

Lemma Qeqb0_false (q : Q) : Qeqb0 q = false <-> ~ q == 0.
Proof.
  rewrite <- Qeqb0_true. destruct (Qeqb0 q); split; intros; congruence.
Qed.

Lemma Qltb_true (a b : Q) : Qltb a b = true <-> a < b.
Proof.
  unfold Qltb. rewrite negb_true_iff, <- not_true_iff_false, Qle_bool_iff.
  split; [apply Qnot_le_lt | apply Qlt_not_le].
Qed.

Lemma Qltb_false (a b : Q) : Qltb a b = false <-> b <= a.
Proof.
  unfold Qltb. rewrite negb_false_iff. apply Qle_bool_iff.
Qed.

#[export] Instance Qeqb0_Proper : Proper (Qeq ==> eq) Qeqb0.
Proof.
  intros x y H. destruct (Qeqb0 x) eqn:Hx; symmetry.
  - apply Qeqb0_true. rewrite <- H. apply Qeqb0_true, Hx.
  - apply Qeqb0_false. rewrite <- H. apply Qeqb0_false, Hx.
Qed.

#[export] Instance Qltb_Proper : Proper (Qeq ==> Qeq ==> eq) Qltb.
Proof.
  intros x y H x' y' H'. destruct (Qltb x x') eqn:Hx; symmetry.
  - apply Qltb_true. rewrite <- H, <- H'. apply Qltb_true, Hx.
  - apply Qltb_false. rewrite <- H, <- H'. apply Qltb_false, Hx.
Qed.

#[export] Instance fdiv_Proper : Proper (feq ==> feq ==> feq) fdiv.
Proof.
  intros [x| | |] [y| | |] H [x'| | |] [y'| | |] H'; cbn [feq fdiv] in *;
    try contradiction; auto; try reflexivity.
  - rewrite <- (Qeqb0_Proper _ _ H), <- (Qeqb0_Proper _ _ H').
    rewrite <- (Qltb_Proper 0 0 (Qeq_refl 0) _ _ H).
    destruct (Qeqb0 x'); [destruct (Qeqb0 x); [| destruct (Qltb 0 x)] |];
      cbn [feq]; auto.
    rewrite H, H'. reflexivity.
  - rewrite <- (Qltb_Proper _ _ H' 0 0 (Qeq_refl 0)).
    destruct (Qltb x' 0); cbn [feq]; auto.
  - rewrite <- (Qltb_Proper _ _ H' 0 0 (Qeq_refl 0)).
    destruct (Qltb x' 0); cbn [feq]; auto.
Qed.

Lemma Qsum_app (l1 l2 : list Q) : Qsum (l1 ++ l2) == Qsum l1 + Qsum l2.
Proof.
  induction l1 as [| a l1 IH]; simpl.
  - ring.
  - rewrite IH. ring.
Qed.

Lemma fsum_column (l : list Q) : fsum (column l) = Fin (Qsum l).
Proof.
  induction l as [| a l IH]; [reflexivity |].
  change (fsum (column (a :: l))) with (fadd (Fin a) (fsum (column l))).
  rewrite IH. reflexivity.
Qed.

Lemma dropna_column (l : list Q) : dropna (column l) = column l.
Proof.
  induction l as [| a l IH]; [reflexivity |].
  change (dropna (column (a :: l))) with (Fin a :: dropna (column l)).
  rewrite IH. reflexivity.
Qed.

Lemma sum_column (l : list Q) : sum (column l) = Fin (Qsum l).
Proof. unfold sum. rewrite dropna_column. apply fsum_column. Qed.

Lemma length_pos_nonzero (n : nat) :
  (0 < n)%nat -> Qeqb0 (inject_Z (Z.of_nat n)) = false.
Proof.
  intros H. apply Qeqb0_false. unfold Qeq; simpl. lia.
Qed.

(** The mean of a column of finite values is their arithmetic mean, and NaN
    when the column is empty. *)
Lemma mean_column (l : list Q) : mean (column l) = cell (Qmean l).
Proof.
  unfold mean. rewrite dropna_column.
  destruct l as [| a l]; [reflexivity |].
  change (column (a :: l)) with (Fin a :: column l).
  cbv beta iota.
  change (Fin a :: column l) with (column (a :: l)).
  rewrite fsum_column. unfold column at 1. rewrite length_map.
  unfold fdiv. rewrite length_pos_nonzero by (simpl; lia).
  reflexivity.
Qed.

Lemma mean_column_nil_iff (l : list Q) : mean (column l) = NaN <-> l = [].
Proof.
  rewrite mean_column. destruct l; simpl; split; intros; congruence.
Qed.

(* ------------------------------------------------------------------ *)
(** ** Keys *)

(** The comparison of keys is a strict total order. *)
Class KeyOrder (K : Type) `{Key K} : Prop := {
  kcmp_eq : forall a b : K, kcmp a b = Eq <-> a = b;
  kcmp_opp : forall a b : K, kcmp b a = CompOpp (kcmp a b);
  kcmp_trans : forall a b c : K, kcmp a b = Lt -> kcmp b c = Lt -> kcmp a c = Lt
}.

#[export] Instance KeyOrder_Z : KeyOrder Z.
Proof.
  split; unfold kcmp, Key_Z.
  - apply Z.compare_eq_iff.
  - intros a b. apply Z.compare_antisym.
  - intros a b c. rewrite !Z.compare_lt_iff. lia.
Qed.

#[export] Instance KeyOrder_pair {K1 K2} `{KeyOrder K1} `{KeyOrder K2} :
  KeyOrder (K1 * K2).
Proof.
  split; unfold kcmp, Key_pair.
  - intros [a1 a2] [b1 b2]; simpl.
    destruct (kcmp a1 b1) eqn:E1; split; intros E; try discriminate.
    + apply kcmp_eq in E1, E. congruence.
    + inversion E; subst. apply kcmp_eq. reflexivity.
    + inversion E; subst. assert (kcmp b1 b1 = Eq) by (apply kcmp_eq; reflexivity).
      congruence.
    + inversion E; subst. assert (kcmp b1 b1 = Eq) by (apply kcmp_eq; reflexivity).
      congruence.
  - intros [a1 a2] [b1 b2]; simpl.
    rewrite (kcmp_opp a1 b1). destruct (kcmp a1 b1); simpl; auto.
    apply kcmp_opp.
  - intros [a1 a2] [b1 b2] [c1 c2]; simpl.
    destruct (kcmp a1 b1) eqn:E1; try discriminate;
      destruct (kcmp b1 c1) eqn:E2; try discriminate; intros Ha Hb.
    + apply kcmp_eq in E1, E2. subst.
      assert (E : kcmp c1 c1 = Eq) by (apply kcmp_eq; reflexivity).
      rewrite E. eapply kcmp_trans; eauto.
    + apply kcmp_eq in E1. subst. rewrite E2. reflexivity.
    + apply kcmp_eq in E2. subst. rewrite E1. reflexivity.
    + rewrite (kcmp_trans _ _ _ E1 E2). reflexivity.
Qed.

Section Keys.
Context {K : Type} `{KeyOrder K}.

Lemma kcmp_refl (a : K) : kcmp a a = Eq.
Proof. apply kcmp_eq. reflexivity. Qed.

Lemma keqb_eq (a b : K) : keqb a b = true <-> a = b.
Proof.
  unfold keqb. rewrite <- kcmp_eq. destruct (kcmp a b); split; congruence.
Qed.

Lemma keqb_refl (a : K) : keqb a a = true.
Proof. apply keqb_eq. reflexivity. Qed.

Lemma keqb_neq (a b : K) : keqb a b = false <-> a <> b.
Proof.
  rewrite <- keqb_eq. destruct (keqb a b); split; congruence.
Qed.

Lemma In_key_insert (k x : K) (ks : list K) :
  In x (key_insert k ks) <-> x = k \/ In x ks.
Proof.
  induction ks as [| k' ks IH]; simpl.
  - intuition.
  - destruct (kcmp k k') eqn:E; simpl.
    + apply kcmp_eq in E. subst. intuition.
    + intuition.
    + rewrite IH. intuition.
Qed.

Lemma In_unique_keys (x : K) (ks : list K) : In x (unique_keys ks) <-> In x ks.
Proof.
  induction ks as [| k ks IH]; simpl; [reflexivity |].
  rewrite In_key_insert, IH. intuition.
Qed.

Lemma key_insert_below (k : K) (ks : list K) :
  Forall (fun x => kcmp k x = Lt) ks -> key_insert k ks = k :: ks.
Proof.
  destruct ks as [| k' ks]; [reflexivity |].
  intros Hall. inversion Hall as [| ? ? Hk _]; subst. simpl. rewrite Hk. reflexivity.
Qed.

Lemma ascending_key_insert (k : K) (ks : list K) :
  ascending ks -> ascending (key_insert k ks).
Proof.
  unfold ascending. induction ks as [| k' ks IH]; intros Hs; simpl.
  - constructor; constructor.
  - inversion Hs as [| ? ? Hs' Hall]; subst.
    destruct (kcmp k k') eqn:E.
    + exact Hs.
    + constructor; [exact Hs |]. constructor; [exact E |].
      eapply Forall_impl; [| exact Hall]. intros x Hx. eapply kcmp_trans; eauto.
    + constructor; [apply IH, Hs' |].
      apply Forall_forall. intros x Hx. apply In_key_insert in Hx.
      destruct Hx as [-> | Hx].
      * rewrite kcmp_opp, E. reflexivity.
      * rewrite Forall_forall in Hall. apply Hall, Hx.
Qed.

Lemma ascending_unique_keys (ks : list K) : ascending (unique_keys ks).
Proof.
  induction ks as [| k ks IH]; simpl.
  - constructor.
  - apply ascending_key_insert, IH.
Qed.

Lemma ascending_NoDup (ks : list K) : ascending ks -> NoDup ks.
Proof.
  induction 1 as [| k ks Hs IH Hall]; constructor; [| exact IH].
  intros Hin. rewrite Forall_forall in Hall. specialize (Hall k Hin).
  rewrite kcmp_refl in Hall. discriminate.
Qed.

Lemma filter_key_insert (P : K -> bool) (k : K) (ks : list K) :
  ascending ks ->
  filter P (key_insert k ks) =
  if P k then key_insert k (filter P ks) else filter P ks.
Proof.
  unfold ascending. induction ks as [| k' ks IH]; intros Hs; simpl.
  - destruct (P k); reflexivity.
  - inversion Hs as [| ? ? Hs' Hall]; subst.
    destruct (kcmp k k') eqn:E.
    + apply kcmp_eq in E. subst k'. simpl.
      destruct (P k); [| reflexivity]. simpl. rewrite kcmp_refl. reflexivity.
    + simpl. destruct (P k) eqn:Pk; [| reflexivity].
      symmetry. apply key_insert_below.
      assert (Hall' : Forall (fun x => kcmp k x = Lt) (k' :: ks)).
      { constructor; [exact E |].
        eapply Forall_impl; [| exact Hall]. intros x Hx. eapply kcmp_trans; eauto. }
      apply Forall_forall. intros x Hx.
      rewrite Forall_forall in Hall'. apply Hall'.
      change (In x (filter P (k' :: ks))) in Hx. apply filter_In in Hx. apply Hx.
    + simpl. rewrite (IH Hs').
      destruct (P k'), (P k); simpl; try rewrite E; reflexivity.
Qed.

(** Selecting keys before or after collecting the distinct ones is the same. *)
Lemma filter_unique_keys (P : K -> bool) (ks : list K) :
  filter P (unique_keys ks) = unique_keys (filter P ks).
Proof.
  induction ks as [| k ks IH]; simpl; [reflexivity |].
  rewrite filter_key_insert by apply ascending_unique_keys.
  rewrite IH. destruct (P k); reflexivity.
Qed.

End Keys.

(* ------------------------------------------------------------------ *)
(** ** [groupby] and [merge] *)

Section Groupby.
Context {K A : Type} `{KeyOrder K} (key : A -> K).

Lemma In_groupby (k : K) (g : list A) (rows : list A) :
  In (k, g) (groupby key rows) <->
  In k (map key rows) /\ g = group_of key k rows.
Proof.
  unfold groupby. rewrite in_map_iff. split.
  - intros [k' [E Hin]]. inversion E; subst. split; [| reflexivity].
    apply In_unique_keys, Hin.
  - intros [Hin ->]. exists k. split; [reflexivity |]. apply In_unique_keys, Hin.
Qed.

Lemma group_of_nonempty (k : K) (rows : list A) :
  In k (map key rows) -> group_of key k rows <> [].
Proof.
  intros Hin E. apply in_map_iff in Hin. destruct Hin as [r [Hk Hr]].
  assert (Hf : In r (group_of key k rows)).
  { apply filter_In. split; [exact Hr |]. apply keqb_eq, Hk. }
  rewrite E in Hf. exact Hf.
Qed.

Lemma group_of_key (k : K) (rows : list A) (r : A) :
  In r (group_of key k rows) <-> In r rows /\ key r = k.
Proof. unfold group_of. rewrite filter_In, keqb_eq. reflexivity. Qed.

Lemma filter_keqb_ascending (k : K) (ks : list K) :
  ascending ks -> In k ks -> filter (fun x => keqb x k) ks = [k].
Proof.
  intros Hs. apply ascending_NoDup in Hs.
  induction Hs as [| x ks Hx Hnd IH]; intros Hin; [destruct Hin |].
  simpl. destruct (keqb x k) eqn:E.
  - apply keqb_eq in E. subst x. f_equal.
    clear IH Hin. induction ks as [| y ks IHks]; [reflexivity |].
    simpl. destruct (keqb y k) eqn:Ey.
    + apply keqb_eq in Ey. subst y. exfalso. apply Hx. left. reflexivity.
    + apply IHks.
      * intros Hin. apply Hx. right. exact Hin.
      * inversion Hnd; assumption.
  - apply IH. destruct Hin as [-> | Hin]; [| exact Hin].
    rewrite keqb_refl in E. discriminate.
Qed.

Lemma filter_keqb_absent (k : K) (ks : list K) :
  ~ In k ks -> filter (fun x => keqb x k) ks = [].
Proof.
  induction ks as [| x ks IH]; intros Hn; [reflexivity |].
  simpl. destruct (keqb x k) eqn:E.
  - apply keqb_eq in E. subst. exfalso. apply Hn. left. reflexivity.
  - apply IH. intros Hin. apply Hn. right. exact Hin.
Qed.

(** A table computed group by group has, under a key of the frame, exactly
    the row of that key's group. *)
Lemma matches_groupby {B} (f : K * list A -> B) (k : K) (rows : list A) :
  In k (map key rows) ->
  matches k (map (fun kg => (fst kg, f kg)) (groupby key rows)) =
  [f (k, group_of key k rows)].
Proof.
  intros Hin. unfold matches, groupby.
  rewrite map_map.
  set (ks := unique_keys (map key rows)).
  assert (Hks : filter (fun x => keqb x k) ks = [k]).
  { apply filter_keqb_ascending; [apply ascending_unique_keys |].
    apply In_unique_keys, Hin. }
  clearbody ks. revert Hks. induction ks as [| x ks IH]; intros Hks; [discriminate |].
  simpl in *. destruct (keqb x k) eqn:E.
  - inversion Hks as [[Hx Hrest]]. simpl. f_equal.
    clear IH Hks. induction ks as [| y ks IHks]; [reflexivity |].
    simpl in *. destruct (keqb y k); [discriminate |]. apply IHks, Hrest.
  - apply IH, Hks.
Qed.

Lemma matches_groupby_absent {B} (f : K * list A -> B) (k : K) (rows : list A) :
  ~ In k (map key rows) ->
  matches k (map (fun kg => (fst kg, f kg)) (groupby key rows)) = [].
Proof.
  intros Hn. unfold matches, groupby. rewrite map_map.
  assert (Hks : ~ In k (unique_keys (map key rows))).
  { rewrite In_unique_keys. exact Hn. }
  induction (unique_keys (map key rows)) as [| x ks IH]; [reflexivity |].
  simpl. destruct (keqb x k) eqn:E.
  - apply keqb_eq in E. subst. exfalso. apply Hks. left. reflexivity.
  - apply IH. intros Hin. apply Hks. right. exact Hin.
Qed.

(** Selecting groups by their key is grouping the selected rows. *)
Lemma groupby_filter (P : K -> bool) (rows : list A) :
  filter (fun kg => P (fst kg)) (groupby key rows) =
  groupby key (filter (fun r => P (key r)) rows).
Proof.
  unfold groupby.
  assert (Hm : forall ks : list K,
             filter (fun kg : K * list A => P (fst kg))
                    (map (fun k => (k, filter (fun r => keqb (key r) k) rows)) ks) =
             map (fun k => (k, filter (fun r => keqb (key r) k) rows)) (filter P ks)).
  { induction ks as [| k ks IH]; [reflexivity |]. simpl.
    destruct (P k); simpl; rewrite IH; reflexivity. }
  rewrite Hm. clear Hm.
  assert (Hk : map key (filter (fun r => P (key r)) rows) = filter P (map key rows)).
  { induction rows as [| r rows IH]; [reflexivity |]. simpl.
    destruct (P (key r)); simpl; rewrite IH; reflexivity. }
  rewrite Hk, filter_unique_keys.
  apply map_ext_in. intros k Hin. f_equal.
  apply In_unique_keys, filter_In in Hin. destruct Hin as [_ Pk].
  clear Hk. induction rows as [| r rows IH]; [reflexivity |]. simpl.
  destruct (keqb (key r) k) eqn:E.
  - apply keqb_eq in E. rewrite E, Pk. simpl. rewrite <- E at 1.
    rewrite keqb_refl. f_equal. exact IH.
  - destruct (P (key r)); simpl; [rewrite E |]; exact IH.
Qed.

End Groupby.

Section Merge.
Context {K A B : Type} `{KeyOrder K}.

(** Where every left key has exactly one match, the inner join pairs each
    left row with it. *)
Lemma merge_inner_single (g : K -> B) (l : list (K * A)) (r : list (K * B)) :
  (forall ka, In ka l -> matches (fst ka) r = [g (fst ka)]) ->
  merge_inner l r = map (fun ka => (fst ka, (snd ka, g (fst ka)))) l.
Proof.
  unfold merge_inner. induction l as [| ka l IH]; intros Hm; [reflexivity |].
  cbn [flat_map]. rewrite IH by (intros x Hx; apply Hm; right; exact Hx).
  rewrite (Hm ka) by (left; reflexivity).
  reflexivity.
Qed.

(** Where every left key has at most one match, the left join pairs each
    left row with it or with missing cells. *)
Lemma merge_left_single (g : K -> option B) (l : list (K * A)) (r : list (K * B)) :
  (forall ka, In ka l -> matches (fst ka) r = match g (fst ka) with
                                              | Some b => [b]
                                              | None => []
                                              end) ->
  merge_left l r = map (fun ka => (fst ka, (snd ka, g (fst ka)))) l.
Proof.
  unfold merge_left. induction l as [| ka l IH]; intros Hm; [reflexivity |].
  cbn [flat_map]. rewrite IH by (intros x Hx; apply Hm; right; exact Hx).
  rewrite (Hm ka) by (left; reflexivity).
  cbn [map]. destruct (g (fst ka)); reflexivity.
Qed.

End Merge.

(* ------------------------------------------------------------------ *)
(** ** The monthly statistics, month by month *)

Lemma In_months (k : Z * Z) (df : list Row) :
  In k (months df) <-> In k (map key_month df).
Proof. apply In_unique_keys. Qed.

Lemma daily_table_group (k : Z * Z) (df : list Row) :
  group_of (fun d : Z * Z * Date * float64 => fst (fst d)) k (daily_table df) =
  map (fun kg => (fst kg, as_float (daily_spread (snd kg))))
      (groupby key_day (month_group k df)).
Proof.
  unfold group_of, daily_table, month_group, group_of.
  rewrite <- (groupby_filter key_day (fun k3 => keqb (fst k3) k) df).
  induction (groupby key_day df) as [| kg l IH]; [reflexivity |].
  simpl. destruct (keqb (fst (fst kg)) k); simpl; rewrite IH; reflexivity.
Qed.

Lemma months_of_days (k : Z * Z) (df : list Row) :
  In k (map key_month df) ->
  In k (map (fun d : Z * Z * Date * float64 => fst (fst d)) (daily_table df)).
Proof.
  intros Hin. apply in_map_iff in Hin. destruct Hin as [r [Hk Hr]].
  apply in_map_iff.
  exists (key_day r, as_float (daily_spread (group_of key_day (key_day r) df))).
  split; [exact Hk |].
  unfold daily_table. apply in_map_iff.
  exists (key_day r, group_of key_day (key_day r) df). split; [reflexivity |].
  apply In_groupby. split; [apply in_map, Hr | reflexivity].
Qed.

Lemma matches_monthly_spread (k : Z * Z) (df : list Row) :
  In k (map key_month df) ->
  matches k (monthly_spread (daily_table df)) = [month_spread (month_group k df)].
Proof.
  intros Hin. unfold monthly_spread.
  rewrite (matches_groupby (fun d : Z * Z * Date * float64 => fst (fst d))
             (fun kg => mean (map snd (snd kg)))) by (apply months_of_days, Hin).
  cbn [snd]. rewrite daily_table_group, map_map. reflexivity.
Qed.

(** [calculate_monthly_stats] has one row per month of the frame, in
    ascending order, computed from the rows of that month alone. *)
Lemma stats_rows_by_month (df : list Row) :
  stats_rows df =
  map (fun k => stats_row (k, (monthly_agg (month_group k df),
                               month_spread (month_group k df))))
      (months df).
Proof.
  unfold stats_rows.
  rewrite (merge_inner_single (fun k => month_spread (month_group k df))).
  - unfold groupby, months, month_group, group_of. rewrite !map_map. reflexivity.
  - intros [k a] Hin. cbn [fst].
    apply in_map_iff in Hin. destruct Hin as [[k' g] [E Hin]].
    inversion E; subst. apply In_groupby in Hin. cbn [fst].
    apply matches_monthly_spread, Hin.
Qed.

(* ------------------------------------------------------------------ *)
(** ** The daily spread *)

Lemma sort_values_length (l : list Q) : length (sort_values l) = length l.
Proof.
  symmetry. apply Permutation_length, QSort.Permuted_sort.
Qed.

Lemma sort_values_Permutation (l : list Q) : Permutation l (sort_values l).
Proof. apply QSort.Permuted_sort. Qed.

Lemma sort_values_sorted (l : list Q) : StronglySorted Qle (sort_values l).
Proof.
  assert (Ht : Transitive (fun x y => is_true (QOrder.leb x y))).
  { intros x y z. unfold is_true, QOrder.leb. rewrite !Qle_bool_iff.
    apply Qle_trans. }
  pose proof (QSort.StronglySorted_sort l Ht) as Hs.
  unfold sort_values. induction Hs as [| a s Hs IH Hall]; constructor.
  - exact IH.
  - eapply Forall_impl; [| exact Hall].
    intros x Hx. apply Qle_bool_iff, Hx.
Qed.

Lemma StronglySorted_app_le (l1 l2 : list Q) :
  StronglySorted Qle (l1 ++ l2) ->
  forall x y, In x l1 -> In y l2 -> x <= y.
Proof.
  induction l1 as [| a l1 IH]; intros Hs x y Hx Hy; [destruct Hx |].
  simpl in Hs. inversion Hs as [| ? ? Hs' Hall]; subst.
  destruct Hx as [-> | Hx].
  - rewrite Forall_forall in Hall. apply Hall, in_or_app. right. exact Hy.
  - apply IH; assumption.
Qed.

(** *** Any ascending arrangement gives the same slices *)

Lemma StronglySorted_remove (u v : list Q) (a : Q) :
  StronglySorted Qle (u ++ a :: v) -> StronglySorted Qle (u ++ v).
Proof.
  induction u as [| c u IH]; simpl; intros Hs; inversion Hs as [| ? ? Hs' Hall]; subst.
  - exact Hs'.
  - constructor; [apply IH, Hs' |].
    rewrite Forall_forall in *. intros x Hx. apply Hall.
    apply in_app_iff in Hx. apply in_app_iff.
    destruct Hx as [Hx | Hx]; [left; exact Hx | right; right; exact Hx].
Qed.

Lemma Forall2_Qeq_refl (l : list Q) : Forall2 Qeq l l.
Proof. induction l; constructor; [reflexivity | assumption]. Qed.

Lemma Forall2_Qeq_trans (l1 l2 l3 : list Q) :
  Forall2 Qeq l1 l2 -> Forall2 Qeq l2 l3 -> Forall2 Qeq l1 l3.
Proof.
  intros H12. revert l3. induction H12 as [| a b l1 l2 Hab _ IH]; intros l3 H23.
  - inversion H23. constructor.
  - inversion H23 as [| ? c ? l3' Hbc H23']; subst.
    constructor; [rewrite Hab; exact Hbc | apply IH, H23'].
Qed.

(** Moving one of several equal prices to the front changes no position. *)
Lemma Forall2_Qeq_rotate (b a : Q) (u v : list Q) :
  b == a -> Forall (fun x => x == a) u ->
  Forall2 Qeq (b :: u ++ v) (u ++ a :: v).
Proof.
  intros Hb Hu. revert b Hb. induction Hu as [| c u Hc _ IH]; intros b Hb; simpl.
  - constructor; [exact Hb | apply Forall2_Qeq_refl].
  - constructor; [rewrite Hb, Hc; reflexivity | apply IH, Hc].
Qed.

Lemma sorted_arrangements_agree (l1 : list Q) :
  forall l2, Permutation l1 l2 ->
             StronglySorted Qle l1 -> StronglySorted Qle l2 ->
             Forall2 Qeq l1 l2.
Proof.
  induction l1 as [| a t1 IH]; intros l2 Hp Hs1 Hs2.
  - apply Permutation_nil in Hp. subst. constructor.
  - destruct l2 as [| b t2].
    { apply Permutation_sym, Permutation_nil in Hp. discriminate. }
    inversion Hs1 as [| ? ? Hs1' Hall1]; subst.
    inversion Hs2 as [| ? ? Hs2' Hall2]; subst.
    rewrite Forall_forall in Hall1, Hall2.
    assert (Ha : In a (b :: t2)) by (apply (Permutation_in _ Hp); left; reflexivity).
    assert (Hb : In b (a :: t1))
      by (apply (Permutation_in _ (Permutation_sym Hp)); left; reflexivity).
    assert (Hab : a == b).
    { apply Qle_antisym.
      - destruct Hb as [<- | Hb]; [apply Qle_refl | apply Hall1, Hb].
      - destruct Ha as [<- | Ha]; [apply Qle_refl | apply Hall2, Ha]. }
    destruct Ha as [Ha | Ha].
    + subst b. constructor; [reflexivity |].
      apply IH; [eapply Permutation_cons_inv; exact Hp | exact Hs1' | exact Hs2'].
    + apply in_split in Ha. destruct Ha as [u [v ->]].
      assert (Hp' : Permutation t1 (b :: u ++ v)).
      { apply (Permutation_cons_app_inv (b :: u) v (a := a)). exact Hp. }
      assert (Hu : Forall (fun x => x == a) u).
      { apply Forall_forall. intros x Hx. apply Qle_antisym.
        - apply (StronglySorted_app_le u (a :: v) Hs2'); [exact Hx | left; reflexivity].
        - rewrite Hab. apply Hall2, in_app_iff. left. exact Hx. }
      assert (Hs' : StronglySorted Qle (b :: u ++ v)).
      { constructor; [eapply StronglySorted_remove; exact Hs2' |].
        apply Forall_forall. intros x Hx. apply Hall2.
        apply in_app_iff in Hx. apply in_app_iff.
        destruct Hx as [Hx | Hx]; [left; exact Hx | right; right; exact Hx]. }
      pose proof (IH _ Hp' Hs1' Hs') as H1.
      pose proof (Forall2_Qeq_rotate b a u v (Qeq_sym _ _ Hab) Hu) as H2.
      constructor; [exact Hab |].
      eapply Forall2_Qeq_trans; [exact H1 | exact H2].
Qed.

Lemma Qsum_Forall2 (l1 l2 : list Q) : Forall2 Qeq l1 l2 -> Qsum l1 == Qsum l2.
Proof.
  induction 1 as [| a b l1 l2 Hab _ IH]; simpl; [reflexivity |].
  rewrite Hab, IH. reflexivity.
Qed.

Lemma Forall2_firstn {A} (R : A -> A -> Prop) (n : nat) (l1 l2 : list A) :
  Forall2 R l1 l2 -> Forall2 R (firstn n l1) (firstn n l2).
Proof.
  intros H. revert n. induction H; intros [| n]; simpl; constructor; auto.
Qed.

Lemma Forall2_skipn {A} (R : A -> A -> Prop) (n : nat) (l1 l2 : list A) :
  Forall2 R l1 l2 -> Forall2 R (skipn n l1) (skipn n l2).
Proof.
  intros H. revert n. induction H; intros [| n]; simpl; try constructor; auto.
Qed.

(** The spread does not depend on how the sort arranges equal prices: the
    first and last four of any ascending arrangement of the day's prices
    have the sums of [bottom4] and [top4]. *)
Lemma spread_of_any_ascending_arrangement (ps s : list Q) :
  Permutation ps s -> StronglySorted Qle s ->
  mean4 (skipn (length s - 4) s) - mean4 (firstn 4 s) ==
  mean4 (top4 ps) - mean4 (bottom4 ps).
Proof.
  intros Hp Hs.
  assert (H2 : Forall2 Qeq s (sort_values ps)).
  { apply sorted_arrangements_agree; [| exact Hs | apply sort_values_sorted].
    eapply Permutation_trans; [apply Permutation_sym, Hp | apply sort_values_Permutation]. }
  unfold mean4, top4, bottom4.
  rewrite (Permutation_length Hp).
  rewrite (Qsum_Forall2 _ _ (Forall2_skipn Qeq (length s - 4) _ _ H2)).
  rewrite (Qsum_Forall2 _ _ (Forall2_firstn Qeq 4 _ _ H2)).
  reflexivity.
Qed.

Lemma mean_column4 (l : list Q) :
  length l = 4%nat -> mean (column l) = Fin (mean4 l).
Proof.
  intros Hl. rewrite mean_column. unfold Qmean, mean4.
  destruct l as [| a l]; [discriminate |]. rewrite Hl. reflexivity.
Qed.

Lemma top4_length (ps : list Q) : (8 <= length ps)%nat -> length (top4 ps) = 4%nat.
Proof.
  intros H. unfold top4. rewrite length_skipn, sort_values_length. lia.
Qed.

Lemma bottom4_length (ps : list Q) : (8 <= length ps)%nat -> length (bottom4 ps) = 4%nat.
Proof.
  intros H. unfold bottom4. rewrite length_firstn, sort_values_length. lia.
Qed.

(** The code's daily spread is the specification's, as a cell. *)
Lemma daily_spread_spread_spec (g : list Row) :
  daily_spread g = option_map Fin (spread_spec (prices g)).
Proof.
  unfold daily_spread, spread_spec. fold (prices g).
  rewrite sort_values_length.
  destruct (length (prices g) <? 8)%nat eqn:E; [reflexivity |].
  apply Nat.ltb_ge in E. simpl. f_equal.
  unfold iloc_last, iloc_first. rewrite sort_values_length.
  fold (top4 (prices g)). fold (bottom4 (prices g)).
  rewrite !mean_column4 by (apply top4_length || apply bottom4_length; exact E).
  reflexivity.
Qed.

(** The two slices are the 4 highest and the 4 lowest prices of the day. *)
Lemma top4_highest (ps : list Q) :
  Permutation ps (firstn (length ps - 4) (sort_values ps) ++ top4 ps) /\
  forall x y, In x (firstn (length ps - 4) (sort_values ps)) -> In y (top4 ps) -> x <= y.
Proof.
  unfold top4. split.
  - rewrite firstn_skipn. apply sort_values_Permutation.
  - apply StronglySorted_app_le. rewrite firstn_skipn. apply sort_values_sorted.
Qed.

Lemma bottom4_lowest (ps : list Q) :
  Permutation ps (bottom4 ps ++ skipn 4 (sort_values ps)) /\
  forall x y, In x (bottom4 ps) -> In y (skipn 4 (sort_values ps)) -> x <= y.
Proof.
  unfold bottom4. split.
  - rewrite firstn_skipn. apply sort_values_Permutation.
  - apply StronglySorted_app_le. rewrite firstn_skipn. apply sort_values_sorted.
Qed.

(** *** Where line 34 raises *)

Lemma daily_spread_is_value (g : list Row) :
  is_value (daily_spread g) = true <-> (8 <= length g)%nat.
Proof.
  unfold daily_spread. rewrite sort_values_length, length_map.
  destruct (length g <? 8)%nat eqn:E; cbn [is_value].
  - apply Nat.ltb_lt in E. split; [discriminate | lia].
  - apply Nat.ltb_ge in E. split; [intros _; exact E | reflexivity].
Qed.

Lemma has_full_day_iff (df : list Row) :
  has_full_day df = true <->
  exists k g, In (k, g) (groupby key_day df) /\ (8 <= length g)%nat.
Proof.
  unfold has_full_day, spread_values. rewrite existsb_exists. split.
  - intros [v [Hv Hval]]. apply in_map_iff in Hv. destruct Hv as [[k g] [<- Hkg]].
    cbn [snd] in Hval. exists k, g. split; [exact Hkg |].
    apply daily_spread_is_value, Hval.
  - intros [k [g [Hkg Hlen]]]. exists (k, daily_spread g). split.
    + apply in_map_iff. exists (k, g). split; [reflexivity | exact Hkg].
    + cbn [snd]. apply daily_spread_is_value, Hlen.
Qed.

Lemma no_full_day_iff (df : list Row) :
  has_full_day df = false <->
  forall k g, In (k, g) (groupby key_day df) -> (length g < 8)%nat.
Proof.
  split.
  - intros Hf k g Hkg. destruct (Nat.lt_ge_cases (length g) 8) as [H | H]; [exact H |].
    assert (Ht : has_full_day df = true) by (apply has_full_day_iff; exists k, g; auto).
    congruence.
  - intros Hshort. destruct (has_full_day df) eqn:E; [| reflexivity].
    apply has_full_day_iff in E. destruct E as [k [g [Hkg Hlen]]].
    specialize (Hshort k g Hkg). lia.
Qed.

(** The daily spreads are the table of one spread per day, and are there
    exactly when some day has 8 rows. *)
Lemma daily_spreads_eq (df : list Row) :
  daily_spreads df = if has_full_day df then Some (daily_table df) else None.
Proof.
  unfold daily_spreads, apply_reset_index. fold (has_full_day df).
  destruct (has_full_day df); [| reflexivity].
  unfold spread_values, daily_table. rewrite map_map. reflexivity.
Qed.

Lemma monthly_stats_table_eq (df : list Row) :
  monthly_stats_table df = if has_full_day df then Some (stats_rows df) else None.
Proof.
  unfold monthly_stats_table. rewrite daily_spreads_eq.
  destruct (has_full_day df); reflexivity.
Qed.

Lemma monthly_stats_table_Some (df : list Row) (table : list StatsRow) :
  monthly_stats_table df = Some table <->
  has_full_day df = true /\ table = stats_rows df.
Proof.
  rewrite monthly_stats_table_eq. destruct (has_full_day df); split.
  - intros E. inversion E. auto.
  - intros [_ ->]. reflexivity.
  - discriminate.
  - intros [E _]. discriminate.
Qed.

Lemma monthly_stats_table_None (df : list Row) :
  monthly_stats_table df = None <-> has_full_day df = false.
Proof.
  rewrite monthly_stats_table_eq. destruct (has_full_day df); split; congruence.
Qed.

(** C1: for every day of at least 8 hourly rows the aggregator's daily
    spread is the mean of the 4 highest prices of the day minus the mean of
    the 4 lowest, the highest and lowest being the last and first 4 of the
    prices sorted ascending; for the prices 10, 20, ..., 80 it is 40. *)
Theorem daily_spread_is_top4_minus_bottom4 :
  (forall (df : list Row) (k : Z * Z * Date) (g : list Row),
      In (k, g) (groupby key_day df) ->
      (8 <= length g)%nat ->
      exists daily,
        daily_spreads df = Some daily /\
        In (k, Fin (mean4 (top4 (prices g)) - mean4 (bottom4 (prices g)))) daily) /\
  (forall ps : list Q,
      (8 <= length ps)%nat ->
      length (top4 ps) = 4%nat /\ length (bottom4 ps) = 4%nat /\
      (forall x y, In x (firstn (length ps - 4) (sort_values ps)) ->
                   In y (top4 ps) -> x <= y) /\
      (forall x y, In x (bottom4 ps) ->
                   In y (skipn 4 (sort_values ps)) -> x <= y)) /\
  (forall g : list Row,
      prices g = example_prices ->
      exists v, daily_spread g = Some (Fin v) /\ v == 40).
Proof.
  split; [| split].
  - intros df k g Hin Hlen. exists (daily_table df). split.
    + rewrite daily_spreads_eq.
      assert (Hf : has_full_day df = true)
        by (apply has_full_day_iff; exists k, g; auto).
      rewrite Hf. reflexivity.
    + unfold daily_table. apply in_map_iff.
      exists (k, g). split; [| exact Hin]. cbn [fst snd]. f_equal.
      rewrite daily_spread_spread_spec. unfold spread_spec.
      unfold prices at 1. rewrite length_map.
      destruct (length g <? 8)%nat eqn:E; [apply Nat.ltb_lt in E; lia |].
      reflexivity.
  - intros ps Hlen. split; [apply top4_length, Hlen |].
    split; [apply bottom4_length, Hlen |].
    split; [apply top4_highest | apply bottom4_lowest].
  - intros g Hg. rewrite daily_spread_spread_spec, Hg.
    eexists. split; [vm_compute; reflexivity |]. reflexivity.
Qed.

(* ------------------------------------------------------------------ *)
(** ** The monthly average spread *)

Lemma as_float_daily_spread (g : list Row) :
  as_float (daily_spread g) = cell (spread_spec (prices g)).
Proof.
  rewrite daily_spread_spread_spec. destruct (spread_spec (prices g)); reflexivity.
Qed.

(** The mean of a column with missing cells is the mean of the cells that
    are there. *)
Lemma mean_cells (os : list (option Q)) :
  mean (map cell os) = cell (Qmean (flat_map defined os)).
Proof.
  rewrite <- mean_column.
  assert (Hd : dropna (map cell os) = dropna (column (flat_map defined os))).
  { rewrite dropna_column.
    induction os as [| o os IH]; [reflexivity |].
    destruct o as [v |].
    - change (Fin v :: dropna (map cell os) = Fin v :: column (flat_map defined os)).
      rewrite IH. reflexivity.
    - exact IH. }
  unfold mean. rewrite Hd. reflexivity.
Qed.

Lemma month_spread_spec (G : list Row) :
  month_spread G = cell (avg_spread_spec G).
Proof.
  unfold month_spread, avg_spread_spec, defined_spreads.
  rewrite (map_ext _ (fun kg => cell (spread_spec (prices (snd kg)))))
    by (intros kg; apply as_float_daily_spread).
  rewrite <- (map_map (fun kg : Z * Z * Date * list Row => spread_spec (prices (snd kg))) cell).
  rewrite mean_cells. do 2 f_equal.
  induction (groupby key_day G) as [| kg l IH]; [reflexivity |].
  simpl. rewrite IH. reflexivity.
Qed.

Lemma In_stats_rows (row : StatsRow) (df : list Row) :
  In row (stats_rows df) <->
  exists k, In k (map key_month df) /\
            row = stats_row (k, (monthly_agg (month_group k df),
                                 month_spread (month_group k df))).
Proof.
  rewrite stats_rows_by_month, in_map_iff. split.
  - intros [k [E Hin]]. exists k. split; [apply In_months, Hin | congruence].
  - intros [k [Hin E]]. exists k. split; [congruence | apply In_months, Hin].
Qed.

Lemma short_day_undefined (ps : list Q) :
  (length ps < 8)%nat -> defined (spread_spec ps) = [].
Proof.
  intros H. unfold spread_spec. apply Nat.ltb_lt in H. rewrite H. reflexivity.
Qed.

Lemma defined_spreads_nil (G : list Row) :
  (forall k g, In (k, g) (groupby key_day G) -> (length g < 8)%nat) ->
  defined_spreads G = [].
Proof.
  unfold defined_spreads. intros Hshort.
  induction (groupby key_day G) as [| [k g] l IH]; [reflexivity |].
  simpl. rewrite short_day_undefined.
  - apply IH. intros k' g' Hin. apply (Hshort k' g'). right. exact Hin.
  - unfold prices. rewrite length_map. apply (Hshort k g). left. reflexivity.
Qed.

(** X17: in every row of a monthly statistics table that is produced, the
    avg_spread of the month is the arithmetic mean of the defined daily
    spreads of that month; a day of fewer than 8 hourly rows has no spread
    and enters neither the sum nor the divisor; a month none of whose days
    has a spread has an undefined avg_spread. *)
Theorem avg_spread_is_mean_of_defined_spreads :
  forall (df : list Row) (table : list StatsRow) (row : StatsRow),
    monthly_stats_table df = Some table ->
    In row table ->
    let G := month_group (stats_year row, stats_month row) df in
    avg_spread row = cell (Qmean (defined_spreads G)) /\
    (forall ps, (length ps < 8)%nat -> defined (spread_spec ps) = []) /\
    ((forall k g, In (k, g) (groupby key_day G) -> (length g < 8)%nat) ->
     avg_spread row = NaN).
Proof.
  intros df table row Ht Hin G.
  apply monthly_stats_table_Some in Ht. destruct Ht as [_ ->].
  apply In_stats_rows in Hin. destruct Hin as [[y m] [Hk ->]].
  cbn [stats_row stats_year stats_month avg_spread fst snd] in *.
  subst G. rewrite month_spread_spec. unfold avg_spread_spec.
  split; [reflexivity |]. split; [apply short_day_undefined |].
  intros Hshort. rewrite defined_spreads_nil by exact Hshort. reflexivity.
Qed.

(** C2 fails on the code.  In a frame in which no day has 8 hourly rows
    every daily spread is [None], line 34 raises and
    [calculate_monthly_stats] returns no table, where the specification has a row
    with an undefined avg_spread for each month.  The frame [two_months],
    two months of one hour each, is such a frame. *)
Theorem no_full_day_raises :
  (forall df : list Row,
      (forall k g, In (k, g) (groupby key_day df) -> (length g < 8)%nat) ->
      daily_spreads df = None /\
      monthly_stats_table df = None /\
      forall (s : State) (p : Ref) (f : DataFrame),
        nth_error (frames s) p = Some f -> records f = df ->
        calculate_monthly_stats p s = None) /\
  (months two_months = [(2024, 1); (2024, 2)]%Z /\
   (forall k, In k (months two_months) ->
              defined_spreads (month_group k two_months) = []) /\
   monthly_stats_table two_months = None /\
   run (calculate_monthly_stats 0%nat) (mkState [mkDataFrame two_months None] None) = None).
Proof.
  split.
  - intros df Hshort. apply no_full_day_iff in Hshort.
    split; [rewrite daily_spreads_eq, Hshort; reflexivity |].
    split; [rewrite monthly_stats_table_eq, Hshort; reflexivity |].
    intros s p f Hp Hf. unfold calculate_monthly_stats, bind, deref.
    rewrite Hp, Hf, monthly_stats_table_eq, Hshort. reflexivity.
  - split; [reflexivity |]. split; [| split; reflexivity].
    intros k Hk. vm_compute in Hk.
    destruct Hk as [<- | [<- | []]]; reflexivity.
Qed.

(* ------------------------------------------------------------------ *)
(** ** Prices under negative and under high residual load *)

(** C3: in every row of the monthly statistics, avg_price_res_neg and
    avg_price_res_high are the mean price over the rows of the month with
    residual load below 0 and above 60000; each is undefined, and so not 0,
    when there is no such row, and the row of the month is in the table all
    the same, with its avg_price and neg_hours.  The table is produced
    whenever some day of the frame has 8 hourly rows. *)
Theorem res_prices_undefined_on_empty_filter :
  forall (df : list Row),
    (forall table row,
       monthly_stats_table df = Some table ->
       In row table ->
       let G := month_group (stats_year row, stats_month row) df in
       avg_price_res_neg row = cell (Qmean (prices (res_neg G))) /\
       avg_price_res_high row = cell (Qmean (prices (res_high G))) /\
       (res_neg G = [] -> avg_price_res_neg row = NaN /\ ~ avg_price_res_neg row =f= Fin 0) /\
       (res_high G = [] -> avg_price_res_high row = NaN /\ ~ avg_price_res_high row =f= Fin 0)) /\
    (forall table k,
       monthly_stats_table df = Some table ->
       In k (map key_month df) ->
       exists row, In row table /\
                   (stats_year row, stats_month row) = k /\
                   avg_price row = cell (Qmean (prices (month_group k df))) /\
                   neg_hours row =
                   count (fun r => Qltb (day_ahead_price_eur_mwh r) 0) (month_group k df)) /\
    ((exists k g, In (k, g) (groupby key_day df) /\ (8 <= length g)%nat) ->
     exists table, monthly_stats_table df = Some table).
Proof.
  intros df. split; [| split].
  - intros table row Ht Hin G.
    apply monthly_stats_table_Some in Ht. destruct Ht as [_ ->].
    apply In_stats_rows in Hin. destruct Hin as [[y m] [Hk ->]].
    cbn [stats_row stats_year stats_month avg_price_res_neg avg_price_res_high
         fst snd monthly_agg agg_avg_price_res_neg agg_avg_price_res_high] in *.
    subst G. fold (res_neg (month_group (y, m) df)).
    fold (res_high (month_group (y, m) df)).
    fold (prices (res_neg (month_group (y, m) df))).
    fold (prices (res_high (month_group (y, m) df))).
    rewrite !mean_column.
    split; [reflexivity |]. split; [reflexivity |].
    split; intros ->; split; simpl; auto.
  - intros table [y m] Ht Hk.
    apply monthly_stats_table_Some in Ht. destruct Ht as [_ ->].
    exists (stats_row ((y, m), (monthly_agg (month_group (y, m) df),
                                month_spread (month_group (y, m) df)))).
    split; [apply In_stats_rows; exists (y, m); auto |].
    cbn [stats_row stats_year stats_month avg_price neg_hours fst snd
         monthly_agg agg_avg_price agg_neg_hours].
    fold (prices (month_group (y, m) df)). rewrite mean_column.
    auto.
  - intros Hfull. apply has_full_day_iff in Hfull.
    exists (stats_rows df). apply monthly_stats_table_Some. auto.
Qed.

(* ------------------------------------------------------------------ *)
(** ** The capture prices, group by group *)

Lemma combine_revenue (df : list Row) :
  combine df (map revenue df) = with_revenue df.
Proof.
  induction df as [| r df IH]; [reflexivity |]. simpl. rewrite IH. reflexivity.
Qed.

Lemma filter_filter_comm {A} (p q : A -> bool) (l : list A) :
  filter p (filter q l) = filter q (filter p l).
Proof.
  induction l as [| a l IH]; [reflexivity |]. simpl.
  destruct (p a) eqn:Ep, (q a) eqn:Eq; simpl; rewrite ?Ep, ?Eq, IH; reflexivity.
Qed.

Lemma filter_with_revenue (p : Row -> bool) (df : list Row) :
  filter (fun x => p (fst x)) (with_revenue df) = with_revenue (filter p df).
Proof.
  induction df as [| r df IH]; [reflexivity |]. simpl.
  destruct (p r); simpl; rewrite IH; reflexivity.
Qed.

Lemma agg_all_with_revenue (G : list Row) :
  agg_all (with_revenue G) =
  {| grp_solar_mw_avg := Fin (Qsum (map solar_mw_avg G));
     grp_solar_revenue := Fin (Qsum (map revenue G));
     grp_day_ahead_price_eur_mwh := cell (Qmean (prices G)) |}.
Proof.
  unfold agg_all, with_revenue. rewrite !map_map. cbn [fst snd].
  unfold solar_of, price_of. cbn [fst].
  rewrite !sum_column, mean_column. reflexivity.
Qed.

Lemma agg_pos_with_revenue (G : list Row) :
  agg_pos (with_revenue G) =
  {| grp_solar_mw_pos := Fin (Qsum (map solar_mw_avg G));
     grp_solar_rev_pos := Fin (Qsum (map revenue G)) |}.
Proof.
  unfold agg_pos, with_revenue. rewrite !map_map. cbn [fst snd].
  unfold solar_of. cbn [fst]. rewrite !sum_column. reflexivity.
Qed.

Section CaptureGroups.
Context {K : Type} `{KeyOrder K} (key : Row * Q -> K).

(** The left join of the aggregates of all hours with those of the
    non-negative-price hours has one row per group. *)
Lemma merge_left_groups (rows : list (Row * Q)) :
  merge_left
    (map (fun kg => (fst kg, agg_all (snd kg))) (groupby key rows))
    (map (fun kg => (fst kg, agg_pos (snd kg)))
         (groupby key (filter nonneg_price rows))) =
  map (fun k => (k, (agg_all (group_of key k rows),
                     pos_part (filter nonneg_price (group_of key k rows)))))
      (unique_keys (map key rows)).
Proof.
  rewrite (merge_left_single
             (fun k => pos_part (filter nonneg_price (group_of key k rows)))).
  - unfold groupby, group_of. rewrite !map_map. reflexivity.
  - intros [k a] _. cbn [fst].
    assert (Hg : group_of key k (filter nonneg_price rows) =
                 filter nonneg_price (group_of key k rows)).
    { unfold group_of. apply filter_filter_comm. }
    destruct (filter nonneg_price (group_of key k rows)) as [| x l] eqn:E.
    + rewrite (matches_groupby_absent key (fun kg => agg_pos (snd kg)));
        [reflexivity |].
      intros Hin. apply (group_of_nonempty key k _ Hin). exact Hg.
    + assert (Hin : In k (map key (filter nonneg_price rows))).
      { assert (Hx : In x (group_of key k (filter nonneg_price rows)))
          by (rewrite Hg; left; reflexivity).
        apply group_of_key in Hx. destruct Hx as [Hx <-]. apply in_map, Hx. }
      rewrite (matches_groupby key (fun kg => agg_pos (snd kg))) by exact Hin.
      cbn [snd pos_part]. rewrite Hg. reflexivity.
Qed.

End CaptureGroups.

Lemma group_of_with_revenue {K} `{KeyOrder K} (key : Row -> K) (k : K) (df : list Row) :
  group_of (fun x : Row * Q => key (fst x)) k (with_revenue df) =
  with_revenue (group_of key k df).
Proof.
  unfold group_of. apply (filter_with_revenue (fun r => keqb (key r) k)).
Qed.

Lemma nonneg_with_revenue (G : list Row) :
  filter nonneg_price (with_revenue G) = with_revenue (nonneg_hours G).
Proof.
  unfold nonneg_hours.
  apply (filter_with_revenue (fun r => Qle_bool 0 (day_ahead_price_eur_mwh r))).
Qed.

Lemma keys_with_revenue {K} (key : Row -> K) (df : list Row) :
  map (fun x : Row * Q => key (fst x)) (with_revenue df) = map key df.
Proof. unfold with_revenue. rewrite map_map. reflexivity. Qed.

(** The capture-price table has one row per month of the frame, in ascending
    order, computed from the rows of that month alone. *)
Lemma capture_prices_rows (df : list Row) :
  capture_prices df =
  map (fun k => capture_row_of k (month_group k df)) (months df).
Proof.
  unfold capture_prices, capture_table.
  rewrite (merge_left_groups (fun x : Row * Q => key_month (fst x))).
  rewrite map_map, keys_with_revenue. fold (months df).
  apply map_ext. intros k. unfold capture_row_of, month_group.
  rewrite group_of_with_revenue, nonneg_with_revenue. reflexivity.
Qed.

Lemma In_capture_prices (row : CaptureRow) (df : list Row) :
  In row (capture_prices df) <->
  exists k, In k (map key_month df) /\ row = capture_row_of k (month_group k df).
Proof.
  rewrite capture_prices_rows, in_map_iff. split.
  - intros [k [E Hin]]. exists k. split; [apply In_months, Hin | congruence].
  - intros [k [Hin E]]. exists k. split; [congruence | apply In_months, Hin].
Qed.

Lemma capture_row_of_key (k : Z * Z) (G : list Row) :
  (cap_year (capture_row_of k G), cap_month (capture_row_of k G)) = k.
Proof. destruct k. reflexivity. Qed.

Lemma pv_price_row (k : Z * Z) (G : list Row) :
  pv_price (capture_row_of k G) =
  fdiv (Fin (Qsum (map revenue G))) (Fin (Qsum (map solar_mw_avg G))).
Proof.
  unfold capture_row_of, capture_row. cbn [pv_price fst snd].
  rewrite agg_all_with_revenue. reflexivity.
Qed.

Lemma baseload_price_row (k : Z * Z) (G : list Row) :
  baseload_price (capture_row_of k G) = cell (Qmean (prices G)).
Proof.
  unfold capture_row_of, capture_row. cbn [baseload_price fst snd].
  rewrite agg_all_with_revenue. reflexivity.
Qed.

Lemma capture_rate_row (k : Z * Z) (G : list Row) :
  capture_rate (capture_row_of k G) =
  fdiv (pv_price (capture_row_of k G)) (baseload_price (capture_row_of k G)).
Proof. reflexivity. Qed.

Lemma pv_price_pos_row (k : Z * Z) (G : list Row) :
  pv_price_pos (capture_row_of k G) =
  match nonneg_hours G with
  | [] => NaN
  | P => fdiv (Fin (Qsum (map revenue P))) (Fin (Qsum (map solar_mw_avg P)))
  end.
Proof.
  unfold capture_row_of, capture_row. cbn [pv_price_pos fst snd].
  destruct (nonneg_hours G) as [| r P] eqn:E; [reflexivity |].
  change (with_revenue (r :: P)) with ((r, revenue r) :: with_revenue P).
  cbn [pos_part pos_cell].
  change ((r, revenue r) :: with_revenue P) with (with_revenue (r :: P)).
  rewrite agg_pos_with_revenue. reflexivity.
Qed.

(** Float division of two finite sums against the quotient of the
    specification. *)
Lemma fdiv_nonzero (n d : Q) : ~ d == 0 -> fdiv (Fin n) (Fin d) = Fin (n / d).
Proof.
  intros Hd. unfold fdiv. apply Qeqb0_false in Hd. rewrite Hd. reflexivity.
Qed.

Lemma fdiv_zero_zero (n d : Q) : d == 0 -> n == 0 -> fdiv (Fin n) (Fin d) = NaN.
Proof.
  intros Hd Hn. unfold fdiv. apply Qeqb0_true in Hd, Hn. rewrite Hd, Hn. reflexivity.
Qed.

Lemma fdiv_zero_pos (n d : Q) : d == 0 -> 0 < n -> fdiv (Fin n) (Fin d) = PInf.
Proof.
  intros Hd Hn. unfold fdiv. apply Qeqb0_true in Hd. rewrite Hd.
  assert (Hz : Qeqb0 n = false).
  { apply Qeqb0_false. intros E. rewrite E in Hn. apply (Qlt_irrefl 0 Hn). }
  rewrite Hz. apply Qltb_true in Hn. rewrite Hn. reflexivity.
Qed.

Lemma fdiv_zero_neg (n d : Q) : d == 0 -> n < 0 -> fdiv (Fin n) (Fin d) = NInf.
Proof.
  intros Hd Hn. unfold fdiv. apply Qeqb0_true in Hd. rewrite Hd.
  assert (Hz : Qeqb0 n = false).
  { apply Qeqb0_false. intros E. rewrite E in Hn. apply (Qlt_irrefl 0 Hn). }
  rewrite Hz.
  assert (Hl : Qltb 0 n = false) by (apply Qltb_false, Qlt_le_weak, Hn).
  rewrite Hl. reflexivity.
Qed.

Lemma fdiv_ratio_spec (n d : Q) :
  (d == 0 -> n == 0) -> fdiv (Fin n) (Fin d) = cell (ratio_spec n d).
Proof.
  intros Hz. unfold ratio_spec. destruct (Qeqb0 d) eqn:E.
  - apply Qeqb0_true in E. apply fdiv_zero_zero; auto.
  - apply Qeqb0_false in E. apply fdiv_nonzero, E.
Qed.

(** Non-negative solar output that sums to 0 earns nothing. *)
Lemma Qsum_nonneg (l : list Q) : Forall (fun x => 0 <= x) l -> 0 <= Qsum l.
Proof.
  induction 1 as [| a l Ha _ IH]; simpl; [apply Qle_refl | lra].
Qed.

Lemma nonneg_solar_sum (G : list Row) :
  nonneg_solar G -> 0 <= Qsum (map solar_mw_avg G).
Proof.
  intros Hs. apply Qsum_nonneg. apply Forall_map. exact Hs.
Qed.

Lemma nonneg_solar_zero (G : list Row) :
  nonneg_solar G -> Qsum (map solar_mw_avg G) == 0 ->
  Qsum (map revenue G) == 0.
Proof.
  induction 1 as [| r G Hr HG IH]; simpl; intros Hz; [reflexivity |].
  pose proof (nonneg_solar_sum G HG) as Hpos.
  assert (Hr0 : solar_mw_avg r == 0) by lra.
  assert (HG0 : Qsum (map solar_mw_avg G) == 0) by lra.
  rewrite (IH HG0). unfold revenue. rewrite Hr0. ring.
Qed.

Lemma nonneg_solar_filter (p : Row -> bool) (G : list Row) :
  nonneg_solar G -> nonneg_solar (filter p G).
Proof.
  unfold nonneg_solar. rewrite !Forall_forall. intros Hs r Hr.
  apply filter_In in Hr. apply Hs, Hr.
Qed.

(** C4, as amended: in every row of the capture-price table, pv_price is
    the float quotient of the sum of solar_mw_avg * day_ahead_price_eur_mwh
    over the rows of the month by the sum of solar_mw_avg over them; when
    that denominator is 0 it is undefined only if the revenue sum is 0 too,
    as it is whenever every solar_mw_avg of the month is non-negative, and
    it is an infinity of the sign of the revenue sum otherwise. *)
Theorem pv_price_is_revenue_over_solar :
  forall (df : list Row) (row : CaptureRow),
    In row (capture_prices df) ->
    let G := month_group (cap_year row, cap_month row) df in
    let num := Qsum (map (fun r => solar_mw_avg r * day_ahead_price_eur_mwh r) G) in
    let den := Qsum (map solar_mw_avg G) in
    pv_price row = fdiv (Fin num) (Fin den) /\
    (~ den == 0 -> pv_price row = Fin (num / den)) /\
    (nonneg_solar G -> den == 0 -> pv_price row = NaN) /\
    (nonneg_solar G -> pv_price row = cell (pv_price_spec G)) /\
    (den == 0 -> num == 0 -> pv_price row = NaN) /\
    (den == 0 -> 0 < num -> pv_price row = PInf) /\
    (den == 0 -> num < 0 -> pv_price row = NInf).
Proof.
  intros df row Hin.
  apply In_capture_prices in Hin. destruct Hin as [k [Hk ->]].
  rewrite capture_row_of_key. intros G num den.
  rewrite pv_price_row. fold G. change (Qsum (map revenue G)) with num. fold den.
  split; [reflexivity |]. split; [apply fdiv_nonzero |].
  split; [| split; [| split; [| split]]].
  - intros Hs Hz. apply fdiv_zero_zero; [exact Hz |].
    apply nonneg_solar_zero; assumption.
  - intros Hs. apply fdiv_ratio_spec. apply nonneg_solar_zero, Hs.
  - apply fdiv_zero_zero.
  - apply fdiv_zero_pos.
  - apply fdiv_zero_neg.
Qed.

Lemma In_nonneg_hours (r : Row) (G : list Row) :
  In r (nonneg_hours G) <-> In r G /\ 0 <= day_ahead_price_eur_mwh r.
Proof.
  unfold nonneg_hours. rewrite filter_In, Qle_bool_iff. reflexivity.
Qed.

(** C5, as amended: in every row of the capture-price table, pv_price_pos
    is the float quotient of the solar-revenue sum by the solar_mw_avg sum,
    both taken over the rows of the month with a price of 0 or more; it is
    undefined when the month has no such row; when the restricted
    solar_mw_avg sum is 0 it is undefined only if the restricted revenue sum
    is 0 too, as it is whenever every solar_mw_avg of the month is
    non-negative, and it is an infinity of the sign of the restricted
    revenue sum otherwise. *)
Theorem pv_price_pos_over_nonneg_hours :
  forall (df : list Row) (row : CaptureRow),
    In row (capture_prices df) ->
    let G := month_group (cap_year row, cap_month row) df in
    let P := nonneg_hours G in
    let num := Qsum (map revenue P) in
    let den := Qsum (map solar_mw_avg P) in
    (forall r, In r P <-> In r G /\ 0 <= day_ahead_price_eur_mwh r) /\
    (P <> [] -> pv_price_pos row = fdiv (Fin num) (Fin den)) /\
    (P <> [] -> ~ den == 0 -> pv_price_pos row = Fin (num / den)) /\
    (P = [] -> pv_price_pos row = NaN) /\
    (nonneg_solar G -> den == 0 -> pv_price_pos row = NaN) /\
    (nonneg_solar G -> pv_price_pos row = cell (pv_price_pos_spec G)) /\
    (den == 0 -> num == 0 -> pv_price_pos row = NaN) /\
    (P <> [] -> den == 0 -> 0 < num -> pv_price_pos row = PInf) /\
    (P <> [] -> den == 0 -> num < 0 -> pv_price_pos row = NInf).
Proof.
  intros df row Hin.
  apply In_capture_prices in Hin. destruct Hin as [k [Hk ->]].
  rewrite capture_row_of_key. intros G P num den.
  rewrite pv_price_pos_row. fold G. fold P.
  assert (Hzero : nonneg_solar G -> den == 0 -> num == 0).
  { intros Hs. apply nonneg_solar_zero, nonneg_solar_filter, Hs. }
  split; [intros r; apply In_nonneg_hours |].
  unfold pv_price_pos_spec. fold P. unfold pv_price_spec.
  subst num den. destruct P as [| r P']; repeat split; intros; try congruence.
  - apply fdiv_nonzero. assumption.
  - apply fdiv_zero_zero; auto.
  - apply fdiv_ratio_spec. auto.
  - apply fdiv_zero_zero; auto.
  - apply fdiv_zero_pos; auto.
  - apply fdiv_zero_neg; auto.
Qed.

(** The group of a month of the frame has a row, and so a baseload price. *)
Lemma month_group_baseload (k : Z * Z) (df : list Row) :
  In k (map key_month df) ->
  exists b, Qmean (prices (month_group k df)) = Some b.
Proof.
  intros Hk. pose proof (group_of_nonempty key_month k df Hk) as Hne.
  unfold month_group. destruct (group_of key_month k df) as [| r G]; [congruence |].
  eexists. reflexivity.
Qed.

(** C6, as amended: capture_rate is the float quotient of pv_price by
    baseload_price, the arithmetic mean price of the month; when
    baseload_price is 0 it is undefined only if pv_price is 0 or undefined,
    and is an infinity of the sign of pv_price otherwise; capture_rate is 1
    exactly when pv_price equals baseload_price and baseload_price is not 0. *)
Theorem capture_rate_is_float_quotient :
  forall (df : list Row) (row : CaptureRow),
    In row (capture_prices df) ->
    let G := month_group (cap_year row, cap_month row) df in
    (exists b, Qmean (prices G) = Some b /\ baseload_price row = Fin b) /\
    capture_rate row = fdiv (pv_price row) (baseload_price row) /\
    (baseload_price row =f= Fin 0 ->
     (pv_price row =f= Fin 0 \/ pv_price row = NaN -> capture_rate row = NaN) /\
     (forall p, pv_price row = Fin p -> 0 < p -> capture_rate row = PInf) /\
     (forall p, pv_price row = Fin p -> p < 0 -> capture_rate row = NInf)) /\
    (capture_rate row =f= Fin 1 <->
     pv_price row =f= baseload_price row /\ ~ baseload_price row =f= Fin 0).
Proof.
  intros df row Hin.
  apply In_capture_prices in Hin. destruct Hin as [k [Hk ->]].
  rewrite capture_row_of_key. intros G.
  destruct (month_group_baseload k df Hk) as [b Hb]. fold G in Hb.
  rewrite capture_rate_row, baseload_price_row. fold G. rewrite Hb. cbn [cell].
  split; [exists b; auto |]. split; [reflexivity |].
  split.
  - cbn [feq]. intros Hb0. split; [| split].
    + intros [Hp | Hp].
      * destruct (pv_price (capture_row_of k G)) as [p | | |]; try contradiction.
        cbn [feq] in Hp. apply fdiv_zero_zero; assumption.
      * rewrite Hp. reflexivity.
    + intros p -> Hp. apply fdiv_zero_pos; assumption.
    + intros p -> Hp. apply fdiv_zero_neg; assumption.
  - destruct (pv_price (capture_row_of k G)) as [p | | |]; cbn [fdiv feq].
    + destruct (Qeqb0 b) eqn:Eb.
      * apply Qeqb0_true in Eb.
        split; [| intros [_ Hn]; contradiction].
        destruct (Qeqb0 p); [| destruct (Qltb 0 p)]; cbn [feq]; contradiction.
      * apply Qeqb0_false in Eb. cbn [feq]. split.
        -- intros Hq. split; [| exact Eb].
           assert (Hm : p / b * b == p) by (field; exact Eb).
           rewrite Hq in Hm. rewrite <- Hm. ring.
        -- intros [Hq _]. rewrite Hq. field. exact Eb.
    + destruct (Qltb b 0); cbn [feq]; tauto.
    + destruct (Qltb b 0); cbn [feq]; tauto.
    + tauto.
Qed.

(* ------------------------------------------------------------------ *)
(** ** Restricting to the non-negative-price hours *)

Lemma Qsum_filter_split (f : Row -> Q) (p : Row -> bool) (G : list Row) :
  Qsum (map f G) ==
  Qsum (map f (filter p G)) + Qsum (map f (filter (fun r => negb (p r)) G)).
Proof.
  induction G as [| r G IH]; simpl; [ring |].
  destruct (p r); simpl; rewrite IH; ring.
Qed.

Lemma revenue_nonneg_hours (G : list Row) :
  nonneg_solar G -> 0 <= Qsum (map revenue (nonneg_hours G)).
Proof.
  intros Hs. apply Qsum_nonneg, Forall_map, Forall_forall.
  intros r Hr. apply In_nonneg_hours in Hr. destruct Hr as [Hr Hp].
  unfold nonneg_solar in Hs. rewrite Forall_forall in Hs.
  unfold revenue. apply Qmult_le_0_compat; [apply Hs, Hr | exact Hp].
Qed.

Lemma revenue_neg_hours (G : list Row) :
  nonneg_solar G -> Qsum (map revenue (neg_hours_of G)) <= 0.
Proof.
  intros Hs. unfold neg_hours_of.
  induction Hs as [| r G Hr HG IH]; simpl; [apply Qle_refl |].
  destruct (Qle_bool 0 (day_ahead_price_eur_mwh r)) eqn:E; simpl; [exact IH |].
  assert (Hp : day_ahead_price_eur_mwh r < 0).
  { apply Qnot_le_lt. intros Hle. apply Qle_bool_iff in Hle. congruence. }
  assert (Hm : revenue r <= 0).
  { unfold revenue.
    assert (Hn : 0 <= solar_mw_avg r * - day_ahead_price_eur_mwh r).
    { apply Qmult_le_0_compat; [exact Hr | lra]. }
    assert (Hx : solar_mw_avg r * - day_ahead_price_eur_mwh r ==
                 - (solar_mw_avg r * day_ahead_price_eur_mwh r)) by ring.
    lra. }
  lra.
Qed.

Lemma solar_neg_hours (G : list Row) :
  nonneg_solar G -> 0 <= Qsum (map solar_mw_avg (neg_hours_of G)).
Proof.
  intros Hs. apply nonneg_solar_sum. unfold neg_hours_of.
  apply nonneg_solar_filter, Hs.
Qed.

Lemma quotient_le (r s rp sp : Q) :
  0 < s -> 0 < sp -> r * sp <= rp * s -> r / s <= rp / sp.
Proof.
  intros Hs Hsp Hle.
  apply Qle_shift_div_r; [exact Hs |].
  assert (E : rp / sp * s == rp * s / sp) by (field; lra).
  rewrite E. apply Qle_shift_div_l; assumption.
Qed.

(** C10: in a month in which every row has a non-negative solar_mw_avg and
    both denominators are positive, pv_price and pv_price_pos are both
    defined and pv_price_pos is at least pv_price. *)
Theorem pv_price_pos_at_least_pv_price :
  forall (df : list Row) (row : CaptureRow),
    In row (capture_prices df) ->
    let G := month_group (cap_year row, cap_month row) df in
    nonneg_solar G ->
    0 < Qsum (map solar_mw_avg G) ->
    0 < Qsum (map solar_mw_avg (nonneg_hours G)) ->
    exists a b, pv_price row = Fin a /\ pv_price_pos row = Fin b /\ a <= b.
Proof.
  intros df row Hin.
  apply In_capture_prices in Hin. destruct Hin as [k [Hk ->]].
  rewrite capture_row_of_key. intros G Hs HS HP.
  rewrite pv_price_row, pv_price_pos_row. fold G.
  assert (ES : Qsum (map solar_mw_avg G) ==
               Qsum (map solar_mw_avg (nonneg_hours G)) +
               Qsum (map solar_mw_avg (neg_hours_of G)))
    by apply Qsum_filter_split.
  assert (ER : Qsum (map revenue G) ==
               Qsum (map revenue (nonneg_hours G)) +
               Qsum (map revenue (neg_hours_of G)))
    by apply Qsum_filter_split.
  pose proof (revenue_nonneg_hours G Hs) as HRP.
  pose proof (revenue_neg_hours G Hs) as HRN.
  pose proof (solar_neg_hours G Hs) as HSN.
  destruct (nonneg_hours G) as [| r P] eqn:EP.
  { simpl in HP. exfalso. apply (Qlt_irrefl 0 HP). }
  set (sp := Qsum (map solar_mw_avg (r :: P))) in *.
  set (rp := Qsum (map revenue (r :: P))) in *.
  set (sn := Qsum (map solar_mw_avg (neg_hours_of G))) in *.
  set (rn := Qsum (map revenue (neg_hours_of G))) in *.
  set (s := Qsum (map solar_mw_avg G)) in *.
  set (rv := Qsum (map revenue G)) in *.
  exists (rv / s), (rp / sp).
  split; [apply fdiv_nonzero; lra |]. split; [apply fdiv_nonzero; lra |].
  apply quotient_le; [exact HS | exact HP |].
  clearbody sp rp sn rn s rv.
  assert (H1 : 0 <= rp * sn) by (apply Qmult_le_0_compat; assumption).
  assert (H2 : 0 <= (- rn) * sp) by (apply Qmult_le_0_compat; lra).
  assert (E1 : rv * sp == rp * sp - (- rn) * sp) by (rewrite ER; ring).
  assert (E2 : rp * s == rp * sp + rp * sn) by (rewrite ES; ring).
  lra.
Qed.

(* ------------------------------------------------------------------ *)
(** ** The yearly overview *)

Lemma at_label_groupby {K A} `{KeyOrder K} (key : A -> K)
      (f : K * list A -> float64) (k : K) (rows : list A) :
  In k (map key rows) ->
  at_label k (map (fun kg => (fst kg, f kg)) (groupby key rows)) =
  f (k, group_of key k rows).
Proof.
  intros Hin. unfold at_label. rewrite (matches_groupby key f) by exact Hin.
  reflexivity.
Qed.

Lemma In_union_index {K} `{KeyOrder K} (k : K) (cols : list (list (K * float64))) :
  In k (union_index cols) <-> exists c, In c cols /\ In k (map fst c).
Proof.
  unfold union_index. rewrite In_unique_keys, in_flat_map. reflexivity.
Qed.

Lemma groupby_labels {K A B} `{KeyOrder K} (key : A -> K) (f : K * list A -> B)
      (k : K) (rows : list A) :
  In k (map fst (map (fun kg => (fst kg, f kg)) (groupby key rows))) <->
  In k (map key rows).
Proof.
  rewrite map_map. cbn [fst]. unfold groupby. rewrite map_map. cbn [fst].
  rewrite map_id. apply In_unique_keys.
Qed.

(** The year columns of the overview, each computed group by group. *)
Lemma yearly_overview_columns (rows : list (Row * Q)) :
  yearly_overview rows =
  let by_year := fun x : Row * Q => year (fst x) in
  let col_pv :=
    map (fun kg => (fst kg, fdiv (grp_solar_revenue (agg_all (snd kg)))
                                 (grp_solar_mw_avg (agg_all (snd kg)))))
        (groupby by_year rows) in
  let col_pos :=
    map (fun kg => (fst kg, fdiv (grp_solar_rev_pos (agg_pos (snd kg)))
                                 (grp_solar_mw_pos (agg_pos (snd kg)))))
        (groupby by_year (filter nonneg_price rows)) in
  let col_base :=
    map (fun kg => (fst kg, grp_day_ahead_price_eur_mwh (agg_all (snd kg))))
        (groupby by_year rows) in
  map (fun y =>
         {| yr_year := y;
            PV_Price := at_label y col_pv;
            PV_Price_Pos := at_label y col_pos;
            Baseload_Price := at_label y col_base;
            Capture_Rate := fdiv (at_label y col_pv) (at_label y col_base) |})
      (union_index [col_pv; col_pos; col_base]).
Proof.
  unfold yearly_overview. rewrite !map_map. reflexivity.
Qed.

Lemma In_yearly_index (y : Z) (df : list Row) (f g : Z * list (Row * Q) -> float64)
      (h : Z * list (Row * Q) -> float64) :
  let by_year := fun x : Row * Q => year (fst x) in
  In y (union_index
          [map (fun kg => (fst kg, f kg)) (groupby by_year (with_revenue df));
           map (fun kg => (fst kg, g kg))
               (groupby by_year (filter nonneg_price (with_revenue df)));
           map (fun kg => (fst kg, h kg)) (groupby by_year (with_revenue df))]) <->
  In y (map year df).
Proof.
  intros by_year. rewrite In_union_index. split.
  - intros [c [Hc Hy]]. simpl in Hc.
    destruct Hc as [<- | [<- | [<- | []]]]; apply groupby_labels in Hy.
    + unfold by_year in Hy. rewrite keys_with_revenue in Hy. exact Hy.
    + rewrite nonneg_with_revenue in Hy. unfold by_year in Hy.
      rewrite keys_with_revenue in Hy.
      apply in_map_iff in Hy. destruct Hy as [r [E Hr]].
      apply In_nonneg_hours in Hr. rewrite <- E. apply in_map, Hr.
    + unfold by_year in Hy. rewrite keys_with_revenue in Hy. exact Hy.
  - intros Hy. eexists. split; [left; reflexivity |].
    apply groupby_labels. unfold by_year. rewrite keys_with_revenue. exact Hy.
Qed.

Lemma In_yearly_overview (row : YearRow) (df : list Row) :
  In row (yearly_overview (with_revenue df)) ->
  In (yr_year row) (map year df) /\
  PV_Price row =
  fdiv (Fin (Qsum (map revenue (year_group (yr_year row) df))))
       (Fin (Qsum (map solar_mw_avg (year_group (yr_year row) df)))).
Proof.
  rewrite yearly_overview_columns. cbv zeta. intros Hin. apply in_map_iff in Hin.
  destruct Hin as [y [<- Hy]]. apply In_yearly_index in Hy.
  cbn [yr_year PV_Price]. split; [exact Hy |].
  rewrite (at_label_groupby (fun x : Row * Q => year (fst x))
             (fun kg => fdiv (grp_solar_revenue (agg_all (snd kg)))
                             (grp_solar_mw_avg (agg_all (snd kg)))))
    by (rewrite keys_with_revenue; exact Hy).
  cbn [snd]. rewrite group_of_with_revenue, agg_all_with_revenue. reflexivity.
Qed.

Lemma yearly_overview_years (y : Z) (df : list Row) :
  In y (map year df) ->
  exists row, In row (yearly_overview (with_revenue df)) /\ yr_year row = y.
Proof.
  intros Hy. rewrite yearly_overview_columns. cbv zeta.
  eexists. split; [apply in_map_iff; eexists; split; [reflexivity |] |].
  - apply In_yearly_index. exact Hy.
  - reflexivity.
Qed.

(** C7: the yearly PV price is the sum of solar revenue over the sum of
    solar_mw_avg, both over all hourly rows of the year; it is not the
    equally weighted mean of the monthly pv_price values, from which it
    differs in general. *)
Theorem yearly_pv_price_recomputed_from_hours :
  (forall (df : list Row) (row : YearRow),
      In row (yearly_overview (with_revenue df)) ->
      let Y := year_group (yr_year row) df in
      In (yr_year row) (map year df) /\
      PV_Price row =
      fdiv (Fin (Qsum (map (fun r => solar_mw_avg r * day_ahead_price_eur_mwh r) Y)))
           (Fin (Qsum (map solar_mw_avg Y)))) /\
  (forall (df : list Row) (y : Z),
      In y (map year df) ->
      exists row, In row (yearly_overview (with_revenue df)) /\ yr_year row = y) /\
  (exists row a m,
      In row (yearly_overview (with_revenue two_months)) /\
      PV_Price row = Fin a /\
      mean_monthly_pv_price (yr_year row) two_months = Fin m /\
      ~ a == m).
Proof.
  split; [| split].
  - intros df row Hin Y. apply In_yearly_overview, Hin.
  - intros df y. apply yearly_overview_years.
  - eexists. eexists. eexists.
    split; [left; reflexivity |].
    split; [vm_compute; reflexivity |].
    split; [vm_compute; reflexivity |].
    intros E. vm_compute in E. discriminate.
Qed.

(* ------------------------------------------------------------------ *)
(** ** Frames in the store *)

Lemma nth_error_snoc {A} (l : list A) (x : A) :
  nth_error (l ++ [x]) (length l) = Some x.
Proof.
  rewrite nth_error_app2 by lia. rewrite Nat.sub_diag. reflexivity.
Qed.

Lemma nth_error_snoc_old {A} (l : list A) (x a : A) (q : nat) :
  nth_error l q = Some a -> nth_error (l ++ [x]) q = Some a.
Proof.
  intros Hq. rewrite nth_error_app1; [exact Hq |].
  apply nth_error_Some. congruence.
Qed.

Lemma update_snoc (l : list DataFrame) (x y : DataFrame) :
  update (l ++ [x]) (length l) y = l ++ [y].
Proof.
  induction l as [| a l IH]; [reflexivity |]. simpl. rewrite IH. reflexivity.
Qed.

Lemma deref_at (p : Ref) (f : DataFrame) (s : State) :
  nth_error (frames s) p = Some f -> deref p s = Some (f, s).
Proof. intros Hp. unfold deref. rewrite Hp. reflexivity. Qed.

Lemma copy_with_revenue (p : Ref) (f : DataFrame) (s : State) :
  nth_error (frames s) p = Some f ->
  (df <- copy p ;;
   g <- deref df ;;
   _ <- setitem_solar_revenue df (map revenue (records g)) ;;
   revenue_rows df) s =
  Some (with_revenue (records f),
        mkState (frames s ++ [working_copy f]) (data_cache s)).
Proof.
  intros Hp. unfold bind at 1. unfold copy, bind at 1. rewrite (deref_at p f s Hp).
  unfold alloc. unfold bind at 1. unfold deref at 1. cbn [frames].
  rewrite nth_error_snoc.
  unfold bind at 1. unfold setitem_solar_revenue, bind at 1.
  unfold deref at 1. cbn [frames]. rewrite nth_error_snoc. cbn [frames data_cache].
  rewrite update_snoc.
  unfold revenue_rows, bind at 1. unfold deref at 1. cbn [frames].
  rewrite nth_error_snoc. unfold bind, lift, ret. cbn [solar_revenue records].
  rewrite combine_revenue. reflexivity.
Qed.

(** A column assignment does change the object it is applied to: an
    aggregator that assigned to its argument would change the input. *)
Lemma setitem_changes_the_object (p : Ref) (f : DataFrame) (c : list Q) (s : State) :
  nth_error (frames s) p = Some f ->
  exists s', setitem_solar_revenue p c s = Some (tt, s') /\
             nth_error (frames s') p = Some (mkDataFrame (records f) (Some c)).
Proof.
  intros Hp. unfold setitem_solar_revenue, bind. rewrite (deref_at p f s Hp).
  eexists. split; [reflexivity |]. cbn [frames].
  revert p Hp.
  induction (frames s) as [| x l IH]; intros [| p] Hp; simpl in *; try discriminate.
  - reflexivity.
  - apply IH, Hp.
Qed.

Lemma calculate_monthly_stats_run (p : Ref) (f : DataFrame) (s : State) :
  nth_error (frames s) p = Some f ->
  calculate_monthly_stats p s =
  match monthly_stats_table (records f) with
  | Some stats_df => Some (stats_df, s)
  | None => None
  end.
Proof.
  intros Hp. unfold calculate_monthly_stats, bind. rewrite (deref_at p f s Hp).
  unfold lift. destruct (monthly_stats_table (records f)); reflexivity.
Qed.

Lemma calculate_capture_prices_run (p : Ref) (f : DataFrame) (s : State) :
  nth_error (frames s) p = Some f ->
  calculate_capture_prices p s =
  Some (capture_prices (records f),
        mkState (frames s ++ [working_copy f]) (data_cache s)).
Proof.
  intros Hp. unfold calculate_capture_prices.
  pose proof (copy_with_revenue p f s Hp) as Hc.
  unfold bind in *.
  destruct (copy p s) as [[c s1] |]; [| discriminate].
  destruct (deref c s1) as [[g s2] |]; [| discriminate].
  destruct (setitem_solar_revenue c (map revenue (records g)) s2) as [[u s3] |];
    [| discriminate].
  rewrite Hc. reflexivity.
Qed.

(** C9: neither aggregator changes a frame of the store.  Whenever
    [calculate_monthly_stats] returns, the state is the one it was called
    in, so every frame, the input among them, has the rows and the columns
    it had, and the table returned is a function of the rows of the input
    alone; it does return when some day of the input has 8 hourly rows.
    [calculate_capture_prices] always returns, and after it every frame that
    was there has the rows and the columns it had (a frame without a
    solar_revenue column still has none), its table a function of the rows
    of the input alone. *)
Theorem aggregators_leave_the_input_unchanged :
  forall (s : State) (p : Ref) (f : DataFrame),
    nth_error (frames s) p = Some f ->
    (forall out s1,
        calculate_monthly_stats p s = Some (out, s1) ->
        monthly_stats_table (records f) = Some out /\
        s1 = s /\
        (forall q g, nth_error (frames s) q = Some g -> nth_error (frames s1) q = Some g) /\
        nth_error (frames s1) p = Some f /\
        data_cache s1 = data_cache s) /\
    ((exists k g, In (k, g) (groupby key_day (records f)) /\ (8 <= length g)%nat) ->
     exists out, calculate_monthly_stats p s = Some (out, s)) /\
    (exists s2,
        calculate_capture_prices p s = Some (capture_prices (records f), s2) /\
        (forall q g, nth_error (frames s) q = Some g -> nth_error (frames s2) q = Some g) /\
        nth_error (frames s2) p = Some f /\
        data_cache s2 = data_cache s).
Proof.
  intros s p f Hp. split; [| split].
  - intros out s1 Hrun. rewrite (calculate_monthly_stats_run p f s Hp) in Hrun.
    destruct (monthly_stats_table (records f)) as [t |]; [| discriminate].
    inversion Hrun; subst. auto.
  - intros Hfull. apply has_full_day_iff in Hfull.
    rewrite (calculate_monthly_stats_run p f s Hp), monthly_stats_table_eq, Hfull.
    eexists. reflexivity.
  - eexists. split; [apply calculate_capture_prices_run, Hp |].
    cbn [frames data_cache]. split; [| split; [| reflexivity]].
    + intros q g Hq. apply nth_error_snoc_old, Hq.
    + apply nth_error_snoc_old, Hp.
Qed.

(* ------------------------------------------------------------------ *)
(** ** The loader and the page *)

Lemma load_data_cold (fs : FileSystem) (s : State) :
  data_cache s = None ->
  load_data fs s =
  match fs with
  | None => Some (None, mkState (frames s) (Some None))
  | Some csv =>
      Some (Some (length (frames s)),
            mkState (frames s ++ [loaded csv]) (Some (Some (map load_row csv))))
  end.
Proof.
  intros Hc. unfold load_data, st_cache_data. rewrite Hc.
  destruct fs as [csv |]; reflexivity.
Qed.

(** A later call of the session returns what the first call stored. *)
Lemma load_data_warm (fs : FileSystem) (s : State) (v : option (list Row)) :
  data_cache s = Some v ->
  load_data fs s =
  match v with
  | None => Some (None, mkState (frames s) (Some None))
  | Some rows =>
      Some (Some (length (frames s)),
            mkState (frames s ++ [mkDataFrame rows None]) (Some (Some rows)))
  end.
Proof.
  intros Hc. unfold load_data, st_cache_data. rewrite Hc.
  destruct v; reflexivity.
Qed.

Lemma main_absent (fs : FileSystem) (ui : Widgets) (s s' : State) :
  load_data fs s = Some (None, s') ->
  main fs ui s =
  Some ([st_title TITLE; st_markdown INTRO; st_error not_found_message], s').
Proof.
  intros Hl. unfold main, bind. rewrite Hl. reflexivity.
Qed.

(** With the file in place the page shows the three aggregate tables, each
    computed from the loaded rows; when line 34 raises there is no page. *)
Lemma main_present (csv : list CsvRow) (ui : Widgets) :
  let df := map load_row csv in
  run (main (Some csv) ui) fresh =
  match monthly_stats_table df with
  | Some stats_df =>
      Some [st_title TITLE; st_markdown INTRO;
            st_tabs ["Monthly Statistics"; "Solar Capture Prices"; "Scatter Plots"]%string;
            st_header "Monthly Market Statistics";
            st_multiselect "Select Years" (unique_keys (map stats_year stats_df));
            show_stats (filter (fun r => isin (stats_year r) (selected_years ui)) stats_df);
            st_header "Solar Capture Prices & Curtailment";
            st_subheader "Yearly Overview";
            show_yearly (yearly_overview (with_revenue df));
            st_subheader "Monthly Details";
            show_capture (capture_prices df)]
  | None => None
  end.
Proof.
  intros df. unfold run, main. unfold bind at 1.
  rewrite (load_data_cold (Some csv) fresh eq_refl). cbn [frames fresh length app].
  unfold bind at 1.
  rewrite (calculate_monthly_stats_run 0%nat (loaded csv)) by reflexivity.
  change (records (loaded csv)) with df.
  destruct (monthly_stats_table df) as [stats_df |]; [| reflexivity].
  unfold bind at 1.
  rewrite (calculate_capture_prices_run 0%nat (loaded csv)) by reflexivity.
  cbn [frames data_cache app].
  pose proof (copy_with_revenue 0%nat (loaded csv)
                (mkState [loaded csv; working_copy (loaded csv)]
                         (Some (Some (map load_row csv)))) eq_refl) as Hc.
  unfold bind in *.
  destruct (copy 0%nat _) as [[c s1] |]; [| discriminate].
  destruct (deref c s1) as [[g s2] |]; [| discriminate].
  destruct (setitem_solar_revenue c (map revenue (records g)) s2) as [[u s3] |];
    [| discriminate].
  rewrite Hc. reflexivity.
Qed.

(** C8, as amended: on the first call of a session the loader returns the
    parsed records when the input file exists, each line with its
    [datetime] and the [year], [month] and [date] read off it, and the
    absent signal, neither an empty collection nor an exception, when it
    does not; a later call of the session returns what the first call
    returned, whatever the file is by then; on the absent signal the page
    shows one error message and no aggregate. *)
Theorem load_data_absent_signal :
  (forall (s : State) (csv : list CsvRow),
      data_cache s = None ->
      load_data (Some csv) s =
      Some (Some (length (frames s)),
            mkState (frames s ++ [mkDataFrame (map load_row csv) None])
                    (Some (Some (map load_row csv)))) /\
      (exists s' f, deref (length (frames s)) s' = Some (f, s') /\
                    load_data (Some csv) s = Some (Some (length (frames s)), s') /\
                    records f = map load_row csv /\ solar_revenue f = None)) /\
  (forall c : CsvRow,
      load_row c =
      {| datetime := datetime_utc c;
         year := ts_year (datetime_utc c);
         month := ts_month (datetime_utc c);
         date := (ts_year (datetime_utc c), ts_month (datetime_utc c),
                  ts_day (datetime_utc c));
         residual_load_mw_avg := csv_residual_load_mw_avg c;
         day_ahead_price_eur_mwh := csv_day_ahead_price_eur_mwh c;
         solar_mw_avg := csv_solar_mw_avg c |}) /\
  (forall s : State,
      data_cache s = None ->
      load_data None s = Some (None, mkState (frames s) (Some None))) /\
  (forall (s : State) (csv : list CsvRow),
      data_cache s = None -> load_data None s <> load_data (Some csv) s) /\
  (forall (fs : FileSystem) (s : State) (v : option (list Row)),
      data_cache s = Some v ->
      load_data fs s =
      match v with
      | None => Some (None, mkState (frames s) (Some None))
      | Some rows =>
          Some (Some (length (frames s)),
                mkState (frames s ++ [mkDataFrame rows None]) (Some (Some rows)))
      end) /\
  (forall (fs : FileSystem) (ui : Widgets) (s s' : State),
      load_data fs s = Some (None, s') ->
      exists events,
        main fs ui s = Some (events, s') /\
        events = [st_title TITLE; st_markdown INTRO; st_error not_found_message] /\
        count_if is_error events = 1%nat /\
        count_if is_aggregate events = 0%nat) /\
  (forall ui : Widgets,
      run (main None ui) fresh =
      Some [st_title TITLE; st_markdown INTRO; st_error not_found_message]).
Proof.
  split; [| split; [| split; [| split; [| split; [| split]]]]].
  - intros s csv Hc. rewrite (load_data_cold (Some csv) s Hc). split; [reflexivity |].
    eexists. eexists. split; [| split; [reflexivity |]].
    + unfold deref. cbn [frames]. rewrite nth_error_snoc. reflexivity.
    + split; reflexivity.
  - intros c. reflexivity.
  - intros s Hc. apply (load_data_cold None s Hc).
  - intros s csv Hc. rewrite (load_data_cold None s Hc), (load_data_cold (Some csv) s Hc).
    intros E. discriminate E.
  - intros fs s v Hc. apply load_data_warm, Hc.
  - intros fs ui s s' Hl. eexists. split; [apply main_absent, Hl |].
    split; [reflexivity |]. split; reflexivity.
  - intros ui. reflexivity.
Qed.

(* ------------------------------------------------------------------ *)
(** ** The properties on example frames *)

Lemma In_january_stats : In january_stats (stats_rows january).
Proof. vm_compute. left. reflexivity. Defined.

Lemma january_table : monthly_stats_table january = Some (stats_rows january).
Proof. vm_compute. reflexivity. Defined.

Lemma january_daily : daily_spreads january = Some (daily_table january).
Proof. vm_compute. reflexivity. Defined.

Lemma In_first_day :
  In ((2024, 1, (2024, 1, 1))%Z, first_day) (groupby key_day january).
Proof. vm_compute. left. reflexivity. Defined.

Lemma january_full_day :
  exists k g, In (k, g) (groupby key_day january) /\ (8 <= length g)%nat.
Proof.
  exists (2024, 1, (2024, 1, 1))%Z, first_day.
  split; [exact In_first_day | simpl; lia].
Defined.

Lemma In_january_capture : In january_capture (capture_prices january).
Proof. vm_compute. left. reflexivity. Defined.

Lemma In_night_capture : In night_capture (capture_prices night).
Proof. vm_compute. left. reflexivity. Defined.

Lemma nonneg_solar_january : nonneg_solar (month_group january_key january).
Proof. vm_compute. repeat constructor; discriminate. Defined.

Lemma nonneg_solar_night : nonneg_solar (month_group january_key night).
Proof. vm_compute. repeat constructor; discriminate. Defined.

Lemma daily_spread_witness :
  In ((2024, 1, (2024, 1, 1))%Z, first_day) (groupby key_day january) /\
  (8 <= length first_day)%nat /\
  (exists daily,
      daily_spreads january = Some daily /\
      In ((2024, 1, (2024, 1, 1))%Z,
          Fin (mean4 (top4 (prices first_day)) - mean4 (bottom4 (prices first_day))))
         daily) /\
  mean4 (top4 (prices first_day)) - mean4 (bottom4 (prices first_day)) == 40.
Proof.
  assert (Hlen : (8 <= length first_day)%nat) by (simpl; lia).
  split; [exact In_first_day |]. split; [exact Hlen |].
  split; [exact (proj1 daily_spread_is_top4_minus_bottom4 january _ first_day
                   In_first_day Hlen) |].
  vm_compute. reflexivity.
Defined.

Lemma avg_spread_witness :
  monthly_stats_table january = Some (stats_rows january) /\
  In january_stats (stats_rows january) /\
  avg_spread january_stats =
  cell (Qmean (defined_spreads (month_group january_key january))) /\
  avg_spread january_stats =f= Fin 40.
Proof.
  split; [exact january_table |]. split; [exact In_january_stats |].
  split; [exact (proj1 (avg_spread_is_mean_of_defined_spreads january _ january_stats
                          january_table In_january_stats)) |].
  vm_compute. reflexivity.
Defined.

Lemma res_prices_witness :
  monthly_stats_table january = Some (stats_rows january) /\
  In january_stats (stats_rows january) /\
  res_high (month_group january_key january) = [] /\
  avg_price_res_high january_stats = NaN /\
  avg_price_res_neg january_stats =f= Fin (-12).
Proof.
  assert (Hh : res_high (month_group january_key january) = []) by reflexivity.
  split; [exact january_table |].
  split; [exact In_january_stats |]. split; [exact Hh |].
  split.
  - exact (proj1 (proj2 (proj2 (proj2
             (proj1 (res_prices_undefined_on_empty_filter january)
                    _ january_stats january_table In_january_stats))) Hh)).
  - vm_compute. reflexivity.
Defined.

Lemma pv_price_witness :
  In night_capture (capture_prices night) /\
  nonneg_solar (month_group january_key night) /\
  Qsum (map solar_mw_avg (month_group january_key night)) == 0 /\
  pv_price night_capture = NaN.
Proof.
  assert (Hz : Qsum (map solar_mw_avg (month_group january_key night)) == 0)
    by (vm_compute; reflexivity).
  split; [exact In_night_capture |]. split; [exact nonneg_solar_night |].
  split; [exact Hz |].
  exact (proj1 (proj2 (proj2 (pv_price_is_revenue_over_solar night night_capture
                                In_night_capture)))
               nonneg_solar_night Hz).
Defined.

Lemma pv_price_pos_witness :
  In january_capture (capture_prices january) /\
  nonneg_hours (month_group january_key january) <> [] /\
  pv_price_pos january_capture =
  fdiv (Fin (Qsum (map revenue (nonneg_hours (month_group january_key january)))))
       (Fin (Qsum (map solar_mw_avg (nonneg_hours (month_group january_key january))))) /\
  pv_price_pos january_capture =f= Fin (455 # 10).
Proof.
  assert (Hne : nonneg_hours (month_group january_key january) <> [])
    by (vm_compute; discriminate).
  split; [exact In_january_capture |]. split; [exact Hne |].
  split.
  - exact (proj1 (proj2 (pv_price_pos_over_nonneg_hours january january_capture
                           In_january_capture)) Hne).
  - vm_compute. reflexivity.
Defined.

(** C4 as stated fails: a month whose solar_mw_avg values add up to 0 with
    a negative entry among them has a pv_price of minus infinity, not an
    undefined one. *)
Lemma pv_price_counterexample :
  exists row,
    In row (capture_prices negative_solar) /\
    Qsum (map solar_mw_avg
              (month_group (cap_year row, cap_month row) negative_solar)) == 0 /\
    pv_price row = NInf /\ isna (pv_price row) = false.
Proof.
  exists (capture_row_of january_key (month_group january_key negative_solar)).
  split; [vm_compute; left; reflexivity |].
  split; [vm_compute; reflexivity |]. split; reflexivity.
Qed.

(** C5 as stated fails: the same month has rows at non-negative prices, a
    restricted solar_mw_avg sum of 0 and a pv_price_pos of minus infinity,
    not an undefined one. *)
Lemma pv_price_pos_counterexample :
  exists row,
    In row (capture_prices negative_solar) /\
    nonneg_hours (month_group (cap_year row, cap_month row) negative_solar) <> [] /\
    Qsum (map solar_mw_avg
              (nonneg_hours (month_group (cap_year row, cap_month row) negative_solar)))
    == 0 /\
    pv_price_pos row = NInf /\ isna (pv_price_pos row) = false.
Proof.
  exists (capture_row_of january_key (month_group january_key negative_solar)).
  split; [vm_compute; left; reflexivity |].
  split; [vm_compute; discriminate |].
  split; [vm_compute; reflexivity |]. split; reflexivity.
Qed.

Lemma capture_rate_witness :
  In january_capture (capture_prices january) /\
  capture_rate january_capture =
  fdiv (pv_price january_capture) (baseload_price january_capture).
Proof.
  split; [exact In_january_capture |].
  exact (proj1 (proj2 (capture_rate_is_float_quotient january january_capture
                         In_january_capture))).
Defined.

(** C6 as stated fails: a month whose prices average 0 has an infinite
    capture_rate, not an undefined one, when its pv_price is not 0; and a
    month in which pv_price and baseload_price are both 0 has them equal and
    a capture_rate that is not 1. *)
Lemma capture_rate_counterexample :
  (exists row, In row (capture_prices zero_baseload) /\
               baseload_price row =f= Fin 0 /\
               capture_rate row = PInf /\ isna (capture_rate row) = false) /\
  (exists row, In row (capture_prices zero_capture) /\
               pv_price row =f= baseload_price row /\
               capture_rate row = NaN /\ ~ capture_rate row =f= Fin 1).
Proof.
  split.
  - exists (capture_row_of january_key (month_group january_key zero_baseload)).
    split; [vm_compute; left; reflexivity |].
    split; [vm_compute; reflexivity |]. split; reflexivity.
  - exists (capture_row_of january_key (month_group january_key zero_capture)).
    split; [vm_compute; left; reflexivity |].
    split; [vm_compute; reflexivity |]. split; [reflexivity |].
    intros H. exact H.
Qed.

Lemma yearly_pv_price_witness :
  exists row,
    In row (yearly_overview (with_revenue two_months)) /\
    PV_Price row =
    fdiv (Fin (Qsum (map (fun r => solar_mw_avg r * day_ahead_price_eur_mwh r)
                         (year_group (yr_year row) two_months))))
         (Fin (Qsum (map solar_mw_avg (year_group (yr_year row) two_months)))).
Proof.
  eexists.
  assert (Hin : In (hd (mkYearRow 0 NaN NaN NaN NaN)
                       (yearly_overview (with_revenue two_months)))
                   (yearly_overview (with_revenue two_months)))
    by (left; reflexivity).
  split; [exact Hin |].
  exact (proj2 (proj1 yearly_pv_price_recomputed_from_hours two_months _ Hin)).
Defined.

Lemma load_data_witness :
  data_cache fresh = None /\
  load_data None fresh = Some (None, mkState [] (Some None)) /\
  load_data (Some january_csv) fresh =
  Some (Some 0%nat, mkState [mkDataFrame january None] (Some (Some january))) /\
  exists events,
    main None (mkWidgets []) fresh = Some (events, mkState [] (Some None)) /\
    events = [st_title TITLE; st_markdown INTRO; st_error not_found_message] /\
    count_if is_error events = 1%nat /\
    count_if is_aggregate events = 0%nat.
Proof.
  assert (Hc : data_cache fresh = None) by reflexivity.
  destruct load_data_absent_signal as [Hfile [_ [Habsent [_ [_ [Hmain _]]]]]].
  split; [exact Hc |]. split; [exact (Habsent fresh Hc) |].
  split; [exact (proj1 (Hfile fresh january_csv Hc)) |].
  exact (Hmain None (mkWidgets []) fresh _ (Habsent fresh Hc)).
Defined.

(** C8 as stated fails on a later call of a session.  After a first call
    without the file, the loader returns the absent signal though the file
    exists by then, and the page shows the error message; after a first call
    with the file, the loader returns the frame of the first call though the
    file is gone. *)
Lemma load_data_counterexample :
  (exists s s',
      load_data None fresh = Some (None, s) /\
      load_data (Some january_csv) s = Some (None, s') /\
      run (main (Some january_csv) (mkWidgets [])) s =
      Some [st_title TITLE; st_markdown INTRO; st_error not_found_message]) /\
  (exists s p s',
      load_data (Some january_csv) fresh = Some (Some 0%nat, s) /\
      load_data None s = Some (Some p, s') /\
      deref p s' = Some (mkDataFrame january None, s')).
Proof.
  split.
  - eexists. eexists. split; [reflexivity |]. split; reflexivity.
  - eexists. eexists. eexists. split; [reflexivity |]. split; reflexivity.
Qed.

Lemma aggregators_witness :
  nth_error (frames january_session) 0 = Some (mkDataFrame january None) /\
  (exists k g, In (k, g) (groupby key_day january) /\ (8 <= length g)%nat) /\
  (exists out,
      calculate_monthly_stats 0%nat january_session = Some (out, january_session) /\
      monthly_stats_table january = Some out) /\
  exists s2,
    calculate_capture_prices 0%nat january_session =
    Some (capture_prices january, s2) /\
    (forall q g, nth_error (frames january_session) q = Some g ->
                 nth_error (frames s2) q = Some g) /\
    nth_error (frames s2) 0 = Some (mkDataFrame january None) /\
    data_cache s2 = data_cache january_session.
Proof.
  assert (Hp : nth_error (frames january_session) 0 = Some (mkDataFrame january None))
    by reflexivity.
  destruct (aggregators_leave_the_input_unchanged january_session 0%nat _ Hp)
    as [Hreturned [Hreturns Hcapture]].
  split; [exact Hp |]. split; [exact january_full_day |].
  split; [| exact Hcapture].
  destruct (Hreturns january_full_day) as [out Hout].
  exists out. split; [exact Hout |]. exact (proj1 (Hreturned out _ Hout)).
Defined.

Lemma pv_price_pos_at_least_witness :
  In january_capture (capture_prices january) /\
  nonneg_solar (month_group january_key january) /\
  0 < Qsum (map solar_mw_avg (month_group january_key january)) /\
  0 < Qsum (map solar_mw_avg (nonneg_hours (month_group january_key january))) /\
  exists a b, pv_price january_capture = Fin a /\
              pv_price_pos january_capture = Fin b /\ a <= b.
Proof.
  assert (H1 : 0 < Qsum (map solar_mw_avg (month_group january_key january)))
    by (vm_compute; reflexivity).
  assert (H2 : 0 < Qsum (map solar_mw_avg (nonneg_hours (month_group january_key january))))
    by (vm_compute; reflexivity).
  split; [exact In_january_capture |]. split; [exact nonneg_solar_january |].
  split; [exact H1 |]. split; [exact H2 |].
  exact (pv_price_pos_at_least_pv_price january january_capture In_january_capture
           nonneg_solar_january H1 H2).
Defined.

(* ================================================================== *)
(** * Further properties of the aggregators *)

(** ** One row per month, in both tables *)

Lemma stats_keys (df : list Row) : map stats_key (stats_rows df) = months df.
Proof.
  rewrite stats_rows_by_month, map_map.
  rewrite (map_ext _ (fun k => k)) by (intros [y m]; reflexivity).
  apply map_id.
Qed.

Lemma capture_keys (df : list Row) : map cap_key (capture_prices df) = months df.
Proof.
  rewrite capture_prices_rows, map_map.
  rewrite (map_ext _ (fun k => k)) by (intros k; apply capture_row_of_key).
  apply map_id.
Qed.

(** X1: the inner join of the statistics and the left join of the capture
    prices neither drop nor repeat a month: the capture-price table has
    exactly one row for every (year, month) that has a row in the frame, the
    months ascending, and a statistics table that is produced lists the same
    months in the same order. *)
Theorem tables_have_one_row_per_month :
  forall df : list Row,
    (ascending (map cap_key (capture_prices df)) /\
     NoDup (map cap_key (capture_prices df)) /\
     (forall k, In k (map cap_key (capture_prices df)) <->
                exists r, In r df /\ (year r, month r) = k)) /\
    (forall table : list StatsRow,
        monthly_stats_table df = Some table ->
        map stats_key table = map cap_key (capture_prices df)).
Proof.
  intros df. rewrite capture_keys. split.
  - split; [apply ascending_unique_keys |].
    split; [apply ascending_NoDup, ascending_unique_keys |].
    intros k. rewrite In_months, in_map_iff. split.
    + intros [r [E Hr]]. exists r. auto.
    + intros [r [Hr E]]. exists r. auto.
  - intros table Ht. apply monthly_stats_table_Some in Ht. destruct Ht as [_ ->].
    apply stats_keys.
Qed.

(** X2: the baseload price of the capture-price table is the average price of
    the monthly statistics, month for month, whenever the statistics are
    produced. *)
Theorem baseload_price_is_avg_price :
  forall (df : list Row) (table : list StatsRow),
    monthly_stats_table df = Some table ->
    Forall2 (fun s c => stats_key s = cap_key c /\ baseload_price c = avg_price s)
            table (capture_prices df).
Proof.
  intros df table Ht. apply monthly_stats_table_Some in Ht. destruct Ht as [_ ->].
  rewrite stats_rows_by_month, capture_prices_rows.
  induction (months df) as [| k ks IH]; simpl; constructor; [| exact IH].
  split.
  - unfold cap_key. rewrite capture_row_of_key. destruct k. reflexivity.
  - rewrite baseload_price_row.
    cbn [stats_row avg_price fst snd monthly_agg agg_avg_price].
    fold (prices (month_group k df)). rewrite mean_column. reflexivity.
Qed.

(** ** Bounds on the averages *)

Lemma Qsum_bounds (lo hi : Q) (l : list Q) :
  Forall (fun x => lo <= x <= hi) l ->
  lo * inject_Z (Z.of_nat (length l)) <= Qsum l <= hi * inject_Z (Z.of_nat (length l)).
Proof.
  induction 1 as [| x l [Hlo Hhi] _ [IH1 IH2]].
  - simpl. split; ring_simplify; apply Qle_refl.
  - change (length (x :: l)) with (S (length l)).
    rewrite Nat2Z.inj_succ. unfold Z.succ. rewrite inject_Z_plus.
    simpl Qsum. split.
    + setoid_replace (lo * (inject_Z (Z.of_nat (length l)) + inject_Z 1))
        with (lo + lo * inject_Z (Z.of_nat (length l))) by ring.
      lra.
    + setoid_replace (hi * (inject_Z (Z.of_nat (length l)) + inject_Z 1))
        with (hi + hi * inject_Z (Z.of_nat (length l))) by ring.
      lra.
Qed.

Lemma inject_length_pos {A} (l : list A) :
  l <> [] -> 0 < inject_Z (Z.of_nat (length l)).
Proof.
  intros Hne. destruct l as [| a l]; [congruence |].
  unfold Qlt. simpl. lia.
Qed.

(** The mean of a non-empty list lies between any bounds of its elements. *)
Lemma Qmean_bounds (lo hi : Q) (l : list Q) :
  l <> [] -> Forall (fun x => lo <= x <= hi) l ->
  exists a, Qmean l = Some a /\ lo <= a <= hi.
Proof.
  intros Hne Hb. pose proof (Qsum_bounds lo hi l Hb) as [H1 H2].
  pose proof (inject_length_pos l Hne) as Hn.
  destruct l as [| x l]; [congruence |].
  eexists. split; [reflexivity |].
  split.
  - apply Qle_shift_div_l; assumption.
  - apply Qle_shift_div_r; assumption.
Qed.

(** X3: in every row of a monthly statistics table that is produced,
    avg_price is defined, and it lies between any two bounds of the prices
    of the month; neg_hours is the number of rows of the month with a price
    below 0, at most the number of its rows. *)
Theorem avg_price_defined_and_bounded :
  forall (df : list Row) (table : list StatsRow) (row : StatsRow),
    monthly_stats_table df = Some table ->
    In row table ->
    let G := month_group (stats_year row, stats_month row) df in
    G <> [] /\
    (exists a, avg_price row = Fin a /\
               forall lo hi,
                 (forall r, In r G -> lo <= day_ahead_price_eur_mwh r <= hi) ->
                 lo <= a <= hi) /\
    (exists n : nat,
        neg_hours row = Fin (inject_Z (Z.of_nat n)) /\
        n = length (filter (fun r => Qltb (day_ahead_price_eur_mwh r) 0) G) /\
        (n <= length G)%nat).
Proof.
  intros df table row Ht Hin.
  apply monthly_stats_table_Some in Ht. destruct Ht as [_ ->].
  apply In_stats_rows in Hin. destruct Hin as [[y m] [Hk ->]].
  cbn [stats_row stats_year stats_month avg_price neg_hours fst snd
       monthly_agg agg_avg_price agg_neg_hours].
  set (G := month_group (y, m) df).
  assert (Hne : G <> []) by (apply (group_of_nonempty key_month), Hk).
  split; [exact Hne |]. split.
  - fold (prices G). rewrite mean_column.
    assert (Hp : prices G <> []).
    { intros E. apply Hne. apply map_eq_nil in E. exact E. }
    destruct (Qmean (prices G)) as [a |] eqn:Ea.
    + exists a. split; [reflexivity |]. intros lo hi Hb.
      destruct (Qmean_bounds lo hi (prices G) Hp) as [a' [Ea' Ha']].
      * apply Forall_forall. intros x Hx. apply in_map_iff in Hx.
        destruct Hx as [r [<- Hr]]. apply Hb, Hr.
      * congruence.
    + destruct (prices G); [congruence | discriminate].
  - eexists. split; [reflexivity |]. split; [reflexivity |]. apply filter_length_le.
Qed.

(** ** A month without negative prices *)

Lemma filter_negb_nil {A} (q : A -> bool) (l : list A) :
  filter (fun x => negb (q x)) l = [] -> filter q l = l.
Proof.
  induction l as [| a l IH]; [reflexivity |]. simpl.
  destruct (q a); simpl; [intros H; f_equal; apply IH, H | discriminate].
Qed.

Lemma solar_pos_row (k : Z * Z) (G : list Row) :
  nonneg_hours G = G -> G <> [] ->
  solar_mw_pos (capture_row_of k G) = sum_solar_mw_avg (capture_row_of k G) /\
  solar_rev_pos (capture_row_of k G) = sum_solar_revenue (capture_row_of k G).
Proof.
  intros E Hne. unfold capture_row_of, capture_row.
  cbn [solar_mw_pos solar_rev_pos sum_solar_mw_avg sum_solar_revenue fst snd].
  rewrite E. destruct G as [| r G]; [congruence |].
  change (with_revenue (r :: G)) with ((r, revenue r) :: with_revenue G).
  cbn [pos_part pos_cell].
  change ((r, revenue r) :: with_revenue G) with (with_revenue (r :: G)).
  rewrite agg_pos_with_revenue, agg_all_with_revenue. split; reflexivity.
Qed.

(** X4: a month for which the statistics, when they are produced, count no
    negative-price hour has, in the capture-price table, the same sums over
    the non-negative-price hours as over all hours, and pv_price_pos equal
    to pv_price. *)
Theorem no_negative_hours_same_capture_price :
  forall (df : list Row) (table : list StatsRow) (s : StatsRow) (c : CaptureRow),
    monthly_stats_table df = Some table ->
    In s table ->
    In c (capture_prices df) ->
    stats_key s = cap_key c ->
    neg_hours s =f= Fin 0 ->
    solar_mw_pos c = sum_solar_mw_avg c /\
    solar_rev_pos c = sum_solar_revenue c /\
    pv_price_pos c = pv_price c.
Proof.
  intros df table s c Ht Hs Hc Hkey Hneg.
  apply monthly_stats_table_Some in Ht. destruct Ht as [_ ->].
  apply In_stats_rows in Hs. destruct Hs as [[y m] [Hk ->]].
  apply In_capture_prices in Hc. destruct Hc as [k' [Hk' ->]].
  unfold cap_key in Hkey. rewrite capture_row_of_key in Hkey.
  unfold stats_key in Hkey. cbn [stats_row stats_year stats_month fst snd] in Hkey.
  subst k'.
  cbn [stats_row neg_hours fst snd monthly_agg agg_neg_hours count feq] in Hneg.
  set (G := month_group (y, m) df) in *.
  assert (Hne : G <> []) by (apply (group_of_nonempty key_month), Hk).
  assert (Hnil : filter (fun r => Qltb (day_ahead_price_eur_mwh r) 0) G = []).
  { destruct (filter (fun r => Qltb (day_ahead_price_eur_mwh r) 0) G); [reflexivity |].
    exfalso. unfold Qeq in Hneg. simpl in Hneg. lia. }
  assert (E : nonneg_hours G = G).
  { unfold nonneg_hours. apply filter_negb_nil. exact Hnil. }
  destruct (solar_pos_row (y, m) G E Hne) as [H1 H2].
  split; [exact H1 |]. split; [exact H2 |].
  rewrite pv_price_pos_row, pv_price_row, E.
  destruct G; [congruence | reflexivity].
Qed.

(** ** The spread is never negative *)

Lemma Qsum_le_pointwise (A B : list Q) :
  length A = length B ->
  (forall x y, In x A -> In y B -> x <= y) ->
  Qsum A <= Qsum B.
Proof.
  revert B. induction A as [| a A IH]; intros [| b B] Hlen Hle;
    try (simpl in Hlen; discriminate Hlen).
  - apply Qle_refl.
  - simpl. apply Qplus_le_compat.
    + apply Hle; left; reflexivity.
    + apply IH; [simpl in Hlen; lia |].
      intros x y Hx Hy. apply Hle; right; assumption.
Qed.

Lemma In_firstn {A} (n : nat) (l : list A) (x : A) : In x (firstn n l) -> In x l.
Proof.
  intros H. rewrite <- (firstn_skipn n l). apply in_or_app. left. exact H.
Qed.

Lemma In_skipn {A} (n : nat) (l : list A) (x : A) : In x (skipn n l) -> In x l.
Proof.
  intros H. rewrite <- (firstn_skipn n l). apply in_or_app. right. exact H.
Qed.

Lemma In_sort_values (x : Q) (ps : list Q) : In x (sort_values ps) <-> In x ps.
Proof.
  split; apply Permutation_in;
    [apply Permutation_sym |]; apply sort_values_Permutation.
Qed.

Lemma mean4_bounds (lo hi : Q) (l : list Q) :
  length l = 4%nat -> Forall (fun x => lo <= x <= hi) l -> lo <= mean4 l <= hi.
Proof.
  intros Hl Hb. pose proof (Qsum_bounds lo hi l Hb) as [H1 H2].
  rewrite Hl in H1, H2. unfold mean4.
  assert (E : inject_Z (Z.of_nat 4) == 4) by reflexivity.
  rewrite E in H1, H2.
  split; [apply Qle_shift_div_l | apply Qle_shift_div_r]; lra.
Qed.

Lemma spread_spec_bounds (ps : list Q) (v : Q) :
  spread_spec ps = Some v ->
  0 <= v /\
  forall lo hi, Forall (fun x => lo <= x <= hi) ps -> v <= hi - lo.
Proof.
  unfold spread_spec. destruct (length ps <? 8)%nat eqn:E; [discriminate |].
  apply Nat.ltb_ge in E. intros Hv. inversion Hv; subst v. clear Hv.
  split.
  - assert (Hle : Qsum (bottom4 ps) <= Qsum (top4 ps)).
    { apply Qsum_le_pointwise.
      - rewrite top4_length, bottom4_length by exact E. reflexivity.
      - intros x y Hx Hy. apply (proj2 (top4_highest ps)); [| exact Hy].
        unfold bottom4 in Hx.
        replace 4%nat with (Nat.min 4 (length ps - 4)) in Hx by lia.
        rewrite <- firstn_firstn in Hx. apply In_firstn in Hx. exact Hx. }
    unfold mean4.
    assert (H4 : Qsum (bottom4 ps) / 4 <= Qsum (top4 ps) / 4).
    { apply Qle_shift_div_l; [reflexivity |].
      setoid_replace (Qsum (bottom4 ps) / 4 * 4) with (Qsum (bottom4 ps)) by field.
      exact Hle. }
    lra.
  - intros lo hi Hb.
    assert (Hbt : Forall (fun x => lo <= x <= hi) (top4 ps)).
    { rewrite Forall_forall in *. intros x Hx. apply Hb.
      unfold top4 in Hx. apply In_skipn in Hx. apply In_sort_values, Hx. }
    assert (Hbb : Forall (fun x => lo <= x <= hi) (bottom4 ps)).
    { rewrite Forall_forall in *. intros x Hx. apply Hb.
      unfold bottom4 in Hx. apply In_firstn in Hx. apply In_sort_values, Hx. }
    pose proof (mean4_bounds lo hi _ (top4_length ps E) Hbt) as [_ H1].
    pose proof (mean4_bounds lo hi _ (bottom4_length ps E) Hbb) as [H2 _].
    lra.
Qed.

Lemma In_defined_spreads (x : Q) (G : list Row) :
  In x (defined_spreads G) ->
  exists g, (forall r, In r g -> In r G) /\ spread_spec (prices g) = Some x.
Proof.
  unfold defined_spreads. intros Hx. apply in_flat_map in Hx.
  destruct Hx as [[k g] [Hkg Hx]]. cbn [snd] in Hx.
  apply In_groupby in Hkg. destruct Hkg as [_ ->].
  exists (group_of key_day k G). split.
  - intros r Hr. apply group_of_key in Hr. apply Hr.
  - destruct (spread_spec (prices (group_of key_day k G))) as [v |]; simpl in Hx.
    + destruct Hx as [-> | []]. reflexivity.
    + destruct Hx.
Qed.

(** X5: a daily spread, where it is defined, is a finite value that is not
    negative and not more than the range of the day's prices; in a
    statistics table that is produced the avg_spread of a month is undefined
    or a finite value that is not negative and not more than the range of
    the month's prices. *)
Theorem spread_is_nonnegative_and_within_range :
  (forall g : list Row,
      daily_spread g = None \/
      exists v, daily_spread g = Some (Fin v) /\ 0 <= v /\
                forall lo hi,
                  (forall r, In r g -> lo <= day_ahead_price_eur_mwh r <= hi) ->
                  v <= hi - lo) /\
  (forall (df : list Row) (table : list StatsRow) (row : StatsRow),
      monthly_stats_table df = Some table ->
      In row table ->
      avg_spread row = NaN \/
      exists v, avg_spread row = Fin v /\ 0 <= v /\
                forall lo hi,
                  (forall r, In r (month_group (stats_key row) df) ->
                             lo <= day_ahead_price_eur_mwh r <= hi) ->
                  v <= hi - lo).
Proof.
  split.
  - intros g. rewrite daily_spread_spread_spec.
    destruct (spread_spec (prices g)) as [v |] eqn:E; [right | left; reflexivity].
    exists v. split; [reflexivity |].
    destruct (spread_spec_bounds _ _ E) as [H0 Hr]. split; [exact H0 |].
    intros lo hi Hb. apply Hr. apply Forall_forall. intros x Hx.
    apply in_map_iff in Hx. destruct Hx as [r [<- Hr']]. apply Hb, Hr'.
  - intros df table row Ht Hin.
    apply monthly_stats_table_Some in Ht. destruct Ht as [_ ->].
    apply In_stats_rows in Hin. destruct Hin as [[y m] [Hk ->]].
    unfold stats_key. cbn [stats_row stats_year stats_month avg_spread fst snd].
    set (G := month_group (y, m) df). rewrite month_spread_spec.
    unfold avg_spread_spec.
    destruct (defined_spreads G) as [| x l] eqn:El; [left; reflexivity | right].
    assert (Hall : forall z, In z (x :: l) ->
                             0 <= z /\
                             forall lo hi,
                               (forall r, In r G -> lo <= day_ahead_price_eur_mwh r <= hi) ->
                               z <= hi - lo).
    { intros z Hz. rewrite <- El in Hz. apply In_defined_spreads in Hz.
      destruct Hz as [g [Hsub Hz]]. destruct (spread_spec_bounds _ _ Hz) as [H0 Hr].
      split; [exact H0 |]. intros lo hi Hb. apply Hr.
      apply Forall_forall. intros p Hp. apply in_map_iff in Hp.
      destruct Hp as [r [<- Hr']]. apply Hb, Hsub, Hr'. }
    eexists. split; [reflexivity |]. split.
    + apply Qle_shift_div_l; [apply inject_length_pos; discriminate |].
      setoid_replace (0 * inject_Z (Z.of_nat (length (x :: l)))) with 0 by ring.
      apply Qsum_nonneg, Forall_forall. intros z Hz. apply Hall, Hz.
    + intros lo hi Hb.
      destruct (Qmean_bounds 0 (hi - lo) (x :: l)) as [a [Ea [_ Ha]]];
        [discriminate | | ].
      * apply Forall_forall. intros z Hz. destruct (Hall z Hz) as [H0 Hr].
        split; [exact H0 | apply Hr, Hb].
      * simpl in Ea. inversion Ea; subst a. exact Ha.
Qed.

(** ** The capture price is a weighted mean of the prices *)

Lemma revenue_bounds (lo hi : Q) (G : list Row) :
  nonneg_solar G ->
  (forall r, In r G -> lo <= day_ahead_price_eur_mwh r <= hi) ->
  lo * Qsum (map solar_mw_avg G) <= Qsum (map revenue G) <=
  hi * Qsum (map solar_mw_avg G).
Proof.
  induction 1 as [| r G Hr HG IH]; intros Hb.
  - simpl. split; ring_simplify; apply Qle_refl.
  - destruct IH as [IH1 IH2]; [intros x Hx; apply Hb; right; exact Hx |].
    destruct (Hb r (or_introl eq_refl)) as [Hlo Hhi].
    assert (H1 : lo * solar_mw_avg r <= revenue r).
    { unfold revenue. rewrite (Qmult_comm lo).
      rewrite !(Qmult_comm (solar_mw_avg r)). apply Qmult_le_compat_r; assumption. }
    assert (H2 : revenue r <= hi * solar_mw_avg r).
    { unfold revenue. rewrite (Qmult_comm (solar_mw_avg r)).
      apply Qmult_le_compat_r; assumption. }
    simpl.
    setoid_replace (lo * (solar_mw_avg r + Qsum (map solar_mw_avg G)))
      with (lo * solar_mw_avg r + lo * Qsum (map solar_mw_avg G)) by ring.
    setoid_replace (hi * (solar_mw_avg r + Qsum (map solar_mw_avg G)))
      with (hi * solar_mw_avg r + hi * Qsum (map solar_mw_avg G)) by ring.
    split; lra.
Qed.

Lemma quotient_bounds (lo hi num den : Q) :
  0 < den -> lo * den <= num <= hi * den -> lo <= num / den <= hi.
Proof.
  intros Hd [H1 H2]. split; [apply Qle_shift_div_l | apply Qle_shift_div_r]; assumption.
Qed.

(** X6: with non-negative solar output and a positive solar sum, pv_price is a
    finite value between any two bounds of the prices of the month; with a
    positive solar sum over the non-negative-price hours, pv_price_pos is a
    finite value that is not negative and not above an upper bound of the
    prices. *)
Theorem capture_prices_within_price_range :
  forall (df : list Row) (row : CaptureRow) (lo hi : Q),
    In row (capture_prices df) ->
    let G := month_group (cap_key row) df in
    nonneg_solar G ->
    (forall r, In r G -> lo <= day_ahead_price_eur_mwh r <= hi) ->
    (0 < Qsum (map solar_mw_avg G) ->
     exists a, pv_price row = Fin a /\ lo <= a <= hi) /\
    (0 < Qsum (map solar_mw_avg (nonneg_hours G)) ->
     exists b, pv_price_pos row = Fin b /\ 0 <= b <= hi).
Proof.
  intros df row lo hi Hin.
  apply In_capture_prices in Hin. destruct Hin as [k [Hk ->]].
  cbv zeta. unfold cap_key. rewrite capture_row_of_key.
  set (G := month_group k df). intros Hs Hb. split.
  - intros Hpos. rewrite pv_price_row. fold G.
    eexists. split; [apply fdiv_nonzero; lra |].
    apply quotient_bounds; [exact Hpos | apply revenue_bounds; assumption].
  - intros Hpos. rewrite pv_price_pos_row. fold G.
    assert (HsP : nonneg_solar (nonneg_hours G)) by (apply nonneg_solar_filter, Hs).
    assert (HbP : forall r, In r (nonneg_hours G) ->
                            0 <= day_ahead_price_eur_mwh r <= hi).
    { intros r Hr. apply In_nonneg_hours in Hr. destruct Hr as [Hr Hp].
      split; [exact Hp | apply Hb, Hr]. }
    destruct (nonneg_hours G) as [| r P] eqn:EP.
    { simpl in Hpos. exfalso. apply (Qlt_irrefl 0 Hpos). }
    eexists. split; [apply fdiv_nonzero; lra |].
    apply quotient_bounds; [exact Hpos | apply revenue_bounds; assumption].
Qed.

(** ** Ascending key lists *)

Section AscendingKeys.
Context {K : Type} `{KeyOrder K}.

Lemma ascending_head_below (a : K) (t : list K) :
  ascending (a :: t) -> ~ In a t.
Proof.
  intros Hs Hin. apply ascending_NoDup in Hs. inversion Hs. contradiction.
Qed.

(** Two ascending lists with the same members are the same list. *)
Lemma ascending_ext (ks1 : list K) :
  forall ks2, ascending ks1 -> ascending ks2 ->
              (forall k, In k ks1 <-> In k ks2) -> ks1 = ks2.
Proof.
  induction ks1 as [| a t1 IH]; intros [| b t2] H1 H2 Hm.
  - reflexivity.
  - exfalso. apply (proj2 (Hm b)). left. reflexivity.
  - exfalso. apply (proj1 (Hm a)). left. reflexivity.
  - pose proof (ascending_head_below _ _ H1) as Ha.
    pose proof (ascending_head_below _ _ H2) as Hb.
    inversion H1 as [| ? ? H1' Hall1]; subst.
    inversion H2 as [| ? ? H2' Hall2]; subst.
    rewrite Forall_forall in Hall1, Hall2.
    assert (E : a = b).
    { destruct (proj1 (Hm a) (or_introl eq_refl)) as [E | Hin]; [auto |].
      destruct (proj2 (Hm b) (or_introl eq_refl)) as [E | Hin']; [auto |].
      pose proof (kcmp_trans _ _ _ (Hall1 _ Hin') (Hall2 _ Hin)) as Hc.
      rewrite kcmp_refl in Hc. discriminate. }
    subst b. f_equal. apply IH; [exact H1' | exact H2' |].
    intros k. split; intros Hk.
    + destruct (proj1 (Hm k) (or_intror Hk)) as [E | Hin]; [| exact Hin].
      subst k. contradiction.
    + destruct (proj2 (Hm k) (or_intror Hk)) as [E | Hin]; [| exact Hin].
      subst k. contradiction.
Qed.

Lemma unique_keys_ext (l1 l2 : list K) :
  (forall k, In k l1 <-> In k l2) -> unique_keys l1 = unique_keys l2.
Proof.
  intros Hm. apply ascending_ext; try apply ascending_unique_keys.
  intros k. rewrite !In_unique_keys. apply Hm.
Qed.

Lemma unique_keys_ascending (ks : list K) : ascending ks -> unique_keys ks = ks.
Proof.
  intros Hs. apply ascending_ext; [apply ascending_unique_keys | exact Hs |].
  intros k. apply In_unique_keys.
Qed.

End AscendingKeys.

(** ** The groups of a frame partition it *)

Section Partition.
Context {K A : Type} `{KeyOrder K} (key : A -> K) (f : A -> Q).

Lemma Qsum_const_zero (ks : list K) : Qsum (map (fun _ : K => 0) ks) == 0.
Proof. induction ks as [| k ks IH]; simpl; [reflexivity | rewrite IH; ring]. Qed.

Lemma Qsum_add_at (k0 : K) (c : Q) (g : K -> Q) (ks : list K) :
  NoDup ks -> In k0 ks ->
  Qsum (map (fun k => if keqb k0 k then c + g k else g k) ks) ==
  c + Qsum (map g ks).
Proof.
  induction 1 as [| k ks Hk Hnd IH]; intros Hin; [destruct Hin |].
  simpl. destruct (keqb k0 k) eqn:E.
  - apply keqb_eq in E. subst k.
    assert (Hrest : Qsum (map (fun k => if keqb k0 k then c + g k else g k) ks) ==
                    Qsum (map g ks)).
    { clear IH Hin Hnd. induction ks as [| x ks IHks]; [reflexivity |].
      simpl. destruct (keqb k0 x) eqn:Ex.
      - apply keqb_eq in Ex. subst x. exfalso. apply Hk. left. reflexivity.
      - rewrite IHks; [reflexivity |]. intros Hin. apply Hk. right. exact Hin. }
    rewrite Hrest. ring.
  - destruct Hin as [-> | Hin]; [rewrite keqb_refl in E; discriminate |].
    rewrite (IH Hin). ring.
Qed.

(** A sum over the frame is the sum, over the keys, of the sums over the
    groups. *)
Lemma Qsum_by_key (ks : list K) (rows : list A) :
  NoDup ks -> (forall r, In r rows -> In (key r) ks) ->
  Qsum (map f rows) == Qsum (map (fun k => Qsum (map f (group_of key k rows))) ks).
Proof.
  intros Hnd. induction rows as [| r rows IH]; intros Hcov.
  - simpl. symmetry. apply Qsum_const_zero.
  - simpl Qsum at 1. rewrite IH by (intros x Hx; apply Hcov; right; exact Hx).
    rewrite <- (Qsum_add_at (key r) (f r)
                  (fun k => Qsum (map f (group_of key k rows))) ks Hnd)
      by (apply Hcov; left; reflexivity).
    assert (E : map (fun k => Qsum (map f (group_of key k (r :: rows)))) ks =
                map (fun k => if keqb (key r) k
                              then f r + Qsum (map f (group_of key k rows))
                              else Qsum (map f (group_of key k rows))) ks).
    { apply map_ext. intros k. unfold group_of. simpl.
      destruct (keqb (key r) k); reflexivity. }
    rewrite E. reflexivity.
Qed.

End Partition.

Lemma Qsum_indicator {A} (p : A -> bool) (l : list A) :
  Qsum (map (fun x => if p x then 1 else 0) l) ==
  inject_Z (Z.of_nat (length (filter p l))).
Proof.
  induction l as [| a l IH]; [reflexivity |]. simpl.
  destruct (p a).
  - change (length (a :: filter p l)) with (S (length (filter p l))).
    rewrite Nat2Z.inj_succ. unfold Z.succ. rewrite inject_Z_plus, IH.
    change (inject_Z 1) with 1. ring.
  - rewrite IH. ring.
Qed.

Lemma fsum_Fin {A} (g : A -> Q) (l : list A) :
  sum (map (fun x => Fin (g x)) l) = Fin (Qsum (map g l)).
Proof.
  rewrite <- (map_map g Fin). apply sum_column.
Qed.

Lemma month_covered (df : list Row) (r : Row) :
  In r df -> In (key_month r) (months df).
Proof. intros Hr. apply In_months, in_map, Hr. Qed.

(** X7: the monthly sums add up to the totals of the frame: the solar sums and
    the solar revenue sums of the capture-price table, and the negative
    hours of the monthly statistics whenever they are produced. *)
Theorem monthly_sums_add_up :
  forall df : list Row,
    sum (map sum_solar_mw_avg (capture_prices df)) =f=
    Fin (Qsum (map solar_mw_avg df)) /\
    sum (map sum_solar_revenue (capture_prices df)) =f=
    Fin (Qsum (map (fun r => solar_mw_avg r * day_ahead_price_eur_mwh r) df)) /\
    (forall table : list StatsRow,
        monthly_stats_table df = Some table ->
        sum (map neg_hours table) =f=
        Fin (inject_Z (Z.of_nat
               (length (filter (fun r => Qltb (day_ahead_price_eur_mwh r) 0) df))))).
Proof.
  intros df.
  assert (Hnd : NoDup (months df)) by apply ascending_NoDup, ascending_unique_keys.
  split; [| split].
  - rewrite capture_prices_rows, map_map.
    rewrite (map_ext _ (fun k => Fin (Qsum (map solar_mw_avg (month_group k df))))).
    + rewrite fsum_Fin. cbn [feq]. symmetry.
      apply (Qsum_by_key key_month solar_mw_avg); [exact Hnd | apply month_covered].
    + intros k. unfold capture_row_of, capture_row. cbn [sum_solar_mw_avg fst snd].
      rewrite agg_all_with_revenue. reflexivity.
  - rewrite capture_prices_rows, map_map.
    rewrite (map_ext _ (fun k => Fin (Qsum (map revenue (month_group k df))))).
    + rewrite fsum_Fin. cbn [feq]. symmetry.
      apply (Qsum_by_key key_month revenue); [exact Hnd | apply month_covered].
    + intros k. unfold capture_row_of, capture_row. cbn [sum_solar_revenue fst snd].
      rewrite agg_all_with_revenue. reflexivity.
  - intros table Ht. apply monthly_stats_table_Some in Ht. destruct Ht as [_ ->].
    rewrite stats_rows_by_month, map_map.
    set (neg := fun r : Row => Qltb (day_ahead_price_eur_mwh r) 0).
    rewrite (map_ext _ (fun k => Fin (inject_Z (Z.of_nat (length (filter neg (month_group k df)))))))
      by (intros k; reflexivity).
    rewrite fsum_Fin. cbn [feq].
    rewrite <- (Qsum_indicator neg df).
    rewrite (Qsum_by_key key_month (fun r => if neg r then 1 else 0) (months df) df Hnd)
      by apply month_covered.
    clear Hnd. induction (months df) as [| k ks IH]; [reflexivity |].
    simpl. rewrite IH. rewrite <- (Qsum_indicator neg (month_group k df)).
    reflexivity.
Qed.

(** ** The yearly overview, year by year *)

Lemma at_label_absent {K A} `{KeyOrder K} (key : A -> K)
      (f : K * list A -> float64) (k : K) (rows : list A) :
  ~ In k (map key rows) ->
  at_label k (map (fun kg => (fst kg, f kg)) (groupby key rows)) = NaN.
Proof.
  intros Hn. unfold at_label. rewrite (matches_groupby_absent key f) by exact Hn.
  reflexivity.
Qed.

Lemma at_label_pos (y : Z) (df : list Row) :
  at_label y
    (map (fun kg => (fst kg, fdiv (grp_solar_rev_pos (agg_pos (snd kg)))
                                  (grp_solar_mw_pos (agg_pos (snd kg)))))
         (groupby by_year (filter nonneg_price (with_revenue df)))) =
  pv_pos_of (year_group y df).
Proof.
  unfold pv_pos_of.
  assert (Hg : group_of by_year y (filter nonneg_price (with_revenue df)) =
               with_revenue (nonneg_hours (year_group y df))).
  { unfold group_of at 1. rewrite filter_filter_comm.
    change (filter (fun r : Row * Q => keqb (by_year r) y) (with_revenue df))
      with (group_of (fun x : Row * Q => year (fst x)) y (with_revenue df)).
    rewrite group_of_with_revenue, nonneg_with_revenue. reflexivity. }
  destruct (nonneg_hours (year_group y df)) as [| r P] eqn:E.
  - apply at_label_absent. intros Hin.
    apply (group_of_nonempty by_year y _ Hin). rewrite Hg. reflexivity.
  - rewrite (at_label_groupby by_year
               (fun kg => fdiv (grp_solar_rev_pos (agg_pos (snd kg)))
                               (grp_solar_mw_pos (agg_pos (snd kg))))).
    + cbn [snd]. rewrite Hg, agg_pos_with_revenue. reflexivity.
    + assert (Hx : In (r, revenue r)
                      (group_of by_year y (filter nonneg_price (with_revenue df))))
        by (rewrite Hg; left; reflexivity).
      apply group_of_key in Hx. destruct Hx as [Hx <-]. apply in_map, Hx.
Qed.

Lemma yearly_index (df : list Row) (f g h : Z * list (Row * Q) -> float64) :
  union_index
    [map (fun kg => (fst kg, f kg)) (groupby by_year (with_revenue df));
     map (fun kg => (fst kg, g kg))
         (groupby by_year (filter nonneg_price (with_revenue df)));
     map (fun kg => (fst kg, h kg)) (groupby by_year (with_revenue df))] =
  unique_keys (map year df).
Proof.
  apply ascending_ext.
  - apply ascending_unique_keys.
  - apply ascending_unique_keys.
  - intros y. rewrite In_unique_keys. apply (In_yearly_index y df f g h).
Qed.

Lemma yearly_overview_rows (df : list Row) :
  yearly_overview (with_revenue df) =
  map (fun y => year_row_of y (year_group y df)) (unique_keys (map year df)).
Proof.
  rewrite yearly_overview_columns. cbv zeta.
  fold by_year. rewrite yearly_index.
  apply map_ext_in. intros y Hy. apply (proj1 (In_unique_keys _ _)) in Hy.
  assert (Hy' : In y (map by_year (with_revenue df)))
    by (unfold by_year; rewrite keys_with_revenue; exact Hy).
  rewrite at_label_pos.
  rewrite (at_label_groupby by_year
             (fun kg => fdiv (grp_solar_revenue (agg_all (snd kg)))
                             (grp_solar_mw_avg (agg_all (snd kg))))) by exact Hy'.
  rewrite (at_label_groupby by_year
             (fun kg => grp_day_ahead_price_eur_mwh (agg_all (snd kg)))) by exact Hy'.
  cbn [snd]. unfold by_year. rewrite group_of_with_revenue, agg_all_with_revenue.
  reflexivity.
Qed.

(** X8: the yearly overview has one row per year of the frame, the years
    ascending; in each row the baseload price is the mean price of the
    year's rows and is defined, PV Price (Pos) is the quotient of the two
    sums over the year's non-negative-price rows and undefined when the year
    has none, and the capture rate is the float quotient of PV price and
    baseload price. *)
Theorem yearly_overview_one_row_per_year :
  forall df : list Row,
    map yr_year (yearly_overview (with_revenue df)) = unique_keys (map year df) /\
    ascending (map yr_year (yearly_overview (with_revenue df))) /\
    (forall row, In row (yearly_overview (with_revenue df)) ->
       let Y := year_group (yr_year row) df in
       let P := nonneg_hours Y in
       (exists b, Qmean (prices Y) = Some b /\ Baseload_Price row = Fin b) /\
       (P = [] -> PV_Price_Pos row = NaN) /\
       (P <> [] -> PV_Price_Pos row =
                   fdiv (Fin (Qsum (map revenue P))) (Fin (Qsum (map solar_mw_avg P)))) /\
       Capture_Rate row = fdiv (PV_Price row) (Baseload_Price row)).
Proof.
  intros df. rewrite yearly_overview_rows, map_map. cbn [year_row_of yr_year].
  rewrite map_id.
  split; [reflexivity |]. split; [apply ascending_unique_keys |].
  intros row Hin. apply in_map_iff in Hin. destruct Hin as [y [<- Hy]].
  apply (proj1 (In_unique_keys _ _)) in Hy.
  cbn [year_row_of yr_year PV_Price PV_Price_Pos Baseload_Price Capture_Rate].
  set (Y := year_group y df).
  assert (Hne : Y <> []) by (apply (group_of_nonempty year), Hy).
  split; [| split; [| split]].
  - unfold prices. destruct Y as [| r Y']; [congruence |].
    eexists. split; reflexivity.
  - unfold pv_pos_of. intros ->. reflexivity.
  - unfold pv_pos_of. destruct (nonneg_hours Y); [congruence | reflexivity].
  - reflexivity.
Qed.

(** ** Months and years use the same formulas *)

Lemma year_group_single_month (y m : Z) (df : list Row) :
  (forall r, In r df -> year r = y -> month r = m) ->
  year_group y df = month_group (y, m) df.
Proof.
  intros Hone. unfold year_group, month_group, group_of.
  induction df as [| r df IH]; [reflexivity |]. simpl.
  assert (E : keqb (year r) y = keqb (key_month r) (y, m)).
  { destruct (keqb (year r) y) eqn:Ey; symmetry.
    - apply keqb_eq in Ey. apply keqb_eq. unfold key_month.
      rewrite (Hone r (or_introl eq_refl) Ey), Ey. reflexivity.
    - apply keqb_neq in Ey. apply keqb_neq. unfold key_month. congruence. }
  rewrite E. rewrite IH by (intros x Hx; apply Hone; right; exact Hx).
  reflexivity.
Qed.

Lemma pv_price_pos_row_of (k : Z * Z) (G : list Row) :
  pv_price_pos (capture_row_of k G) = pv_pos_of G.
Proof. apply pv_price_pos_row. Qed.

(** X9: for a year all of whose rows lie in one month, the row of the yearly
    overview has the values of that month's row of the capture-price
    table. *)
Theorem single_month_year_matches_month :
  forall (df : list Row) (row : YearRow) (c : CaptureRow),
    In row (yearly_overview (with_revenue df)) ->
    In c (capture_prices df) ->
    cap_year c = yr_year row ->
    (forall r, In r df -> year r = yr_year row -> month r = cap_month c) ->
    PV_Price row = pv_price c /\
    PV_Price_Pos row = pv_price_pos c /\
    Baseload_Price row = baseload_price c /\
    Capture_Rate row = capture_rate c.
Proof.
  intros df row c Hrow Hc Hy Hone.
  rewrite yearly_overview_rows in Hrow. apply in_map_iff in Hrow.
  destruct Hrow as [y [<- _]]. cbn [year_row_of yr_year] in *.
  apply In_capture_prices in Hc. destruct Hc as [[y' m] [_ ->]].
  cbn [capture_row_of capture_row cap_year cap_month fst snd] in Hy, Hone.
  subst y'. rewrite (year_group_single_month y m df Hone).
  rewrite capture_rate_row, pv_price_row, baseload_price_row, pv_price_pos_row_of.
  cbn [year_row_of PV_Price PV_Price_Pos Baseload_Price Capture_Rate].
  repeat split; reflexivity.
Qed.

(** ** The yearly price from the monthly sums *)

Lemma filter_map_comm {A B} (p : B -> bool) (g : A -> B) (l : list A) :
  filter p (map g l) = map g (filter (fun a => p (g a)) l).
Proof.
  induction l as [| a l IH]; [reflexivity |]. simpl.
  destruct (p (g a)); simpl; rewrite IH; reflexivity.
Qed.

Lemma month_group_of_year (y : Z) (k : Z * Z) (df : list Row) :
  fst k = y -> group_of key_month k (year_group y df) = month_group k df.
Proof.
  intros Hk. unfold year_group, month_group, group_of.
  induction df as [| r df IH]; [reflexivity |]. simpl.
  destruct (keqb (key_month r) k) eqn:E.
  - assert (Ey : keqb (year r) y = true).
    { apply keqb_eq in E. apply keqb_eq. rewrite <- Hk, <- E. reflexivity. }
    rewrite Ey. simpl. rewrite E, IH. reflexivity.
  - destruct (keqb (year r) y); simpl; [rewrite E |]; exact IH.
Qed.

Lemma Qsum_year_by_month (f : Row -> Q) (y : Z) (df : list Row) :
  Qsum (map f (year_group y df)) ==
  Qsum (map (fun k => Qsum (map f (month_group k df))) (months_of_year y df)).
Proof.
  rewrite (Qsum_by_key key_month f (months_of_year y df) (year_group y df)).
  - assert (E : map (fun k => Qsum (map f (group_of key_month k (year_group y df))))
                    (months_of_year y df) =
                map (fun k => Qsum (map f (month_group k df))) (months_of_year y df)).
    { apply map_ext_in. intros k Hk. unfold months_of_year in Hk.
      apply filter_In in Hk. destruct Hk as [_ Hk]. apply Z.eqb_eq in Hk.
      rewrite (month_group_of_year y k df Hk). reflexivity. }
    rewrite E. reflexivity.
  - unfold months_of_year. apply NoDup_filter, ascending_NoDup, ascending_unique_keys.
  - intros r Hr. apply (group_of_key year) in Hr. destruct Hr as [Hr Hy].
    unfold months_of_year. apply filter_In. split; [apply month_covered, Hr |].
    apply Z.eqb_eq. exact Hy.
Qed.

Lemma capture_rows_of_year (y : Z) (df : list Row) :
  filter (fun c => Z.eqb (cap_year c) y) (capture_prices df) =
  map (fun k => capture_row_of k (month_group k df)) (months_of_year y df).
Proof.
  rewrite capture_prices_rows, filter_map_comm. reflexivity.
Qed.

(** X10: the yearly PV price is the quotient of the monthly sums added up: the
    solar revenue sums of the months of the year over their solar sums. *)
Theorem yearly_pv_price_from_monthly_sums :
  forall (df : list Row) (row : YearRow),
    In row (yearly_overview (with_revenue df)) ->
    let of_year := filter (fun c => Z.eqb (cap_year c) (yr_year row))
                          (capture_prices df) in
    PV_Price row =f=
    fdiv (sum (map sum_solar_revenue of_year)) (sum (map sum_solar_mw_avg of_year)).
Proof.
  intros df row Hin. rewrite yearly_overview_rows in Hin.
  apply in_map_iff in Hin. destruct Hin as [y [<- _]].
  cbn [year_row_of yr_year PV_Price]. cbv zeta.
  rewrite capture_rows_of_year, !map_map.
  rewrite (map_ext (fun k => sum_solar_revenue (capture_row_of k (month_group k df)))
                   (fun k => Fin (Qsum (map revenue (month_group k df))))).
  2:{ intros k. unfold capture_row_of, capture_row. cbn [sum_solar_revenue fst snd].
      rewrite agg_all_with_revenue. reflexivity. }
  rewrite (map_ext (fun k => sum_solar_mw_avg (capture_row_of k (month_group k df)))
                   (fun k => Fin (Qsum (map solar_mw_avg (month_group k df))))).
  2:{ intros k. unfold capture_row_of, capture_row. cbn [sum_solar_mw_avg fst snd].
      rewrite agg_all_with_revenue. reflexivity. }
  rewrite !fsum_Fin.
  apply fdiv_Proper; cbn [feq]; apply Qsum_year_by_month.
Qed.

(** ** The order of the rows does not matter *)

Lemma Permutation_filter' {A} (p : A -> bool) (l l' : list A) :
  Permutation l l' -> Permutation (filter p l) (filter p l').
Proof.
  induction 1 as [| a l l' _ IH | a b l | l1 l2 l3 _ IH1 _ IH2]; simpl.
  - constructor.
  - destruct (p a); [constructor |]; exact IH.
  - destruct (p a), (p b); try apply Permutation_refl. apply perm_swap.
  - eapply Permutation_trans; eassumption.
Qed.

Lemma Qsum_Permutation (l l' : list Q) : Permutation l l' -> Qsum l == Qsum l'.
Proof.
  induction 1 as [| a l l' _ IH | a b l | l1 l2 l3 _ IH1 _ IH2]; simpl.
  - reflexivity.
  - rewrite IH. reflexivity.
  - ring.
  - rewrite IH1. exact IH2.
Qed.

Lemma Qmean_Forall2 (l l' : list Q) :
  Forall2 Qeq l l' -> cell (Qmean l) =f= cell (Qmean l').
Proof.
  intros HF. pose proof (Qsum_Forall2 _ _ HF) as Hs.
  pose proof (Forall2_length HF) as Hl.
  destruct HF as [| a b l l' Hab HF]; [exact I |].
  cbn [Qmean cell feq]. rewrite Hs, Hl. reflexivity.
Qed.

Lemma Qmean_Permutation (l l' : list Q) :
  Permutation l l' -> cell (Qmean l) =f= cell (Qmean l').
Proof.
  intros Hp. pose proof (Qsum_Permutation _ _ Hp) as Hs.
  pose proof (Permutation_length Hp) as Hl.
  destruct l as [| a l], l' as [| b l']; try discriminate; [exact I |].
  cbn [Qmean cell feq]. rewrite Hs, Hl. reflexivity.
Qed.

Lemma spread_spec_Permutation (ps ps' : list Q) :
  Permutation ps ps' ->
  Forall2 Qeq (defined (spread_spec ps)) (defined (spread_spec ps')).
Proof.
  intros Hp. unfold spread_spec. rewrite <- (Permutation_length Hp).
  destruct (length ps <? 8)%nat; cbn [defined]; constructor; [| constructor].
  pose proof (spread_of_any_ascending_arrangement ps (sort_values ps')) as Hs.
  rewrite sort_values_length, <- (Permutation_length Hp) in Hs.
  unfold top4 at 2, bottom4 at 2. rewrite <- (Permutation_length Hp).
  symmetry. apply Hs; [| apply sort_values_sorted].
  eapply Permutation_trans; [exact Hp | apply sort_values_Permutation].
Qed.

Lemma Forall2_flat_map {A B} (R : B -> B -> Prop) (f g : A -> list B) (ks : list A) :
  (forall k, In k ks -> Forall2 R (f k) (g k)) ->
  Forall2 R (flat_map f ks) (flat_map g ks).
Proof.
  induction ks as [| k ks IH]; intros HR; simpl; [constructor |].
  apply Forall2_app; [apply HR; left; reflexivity |].
  apply IH. intros x Hx. apply HR. right. exact Hx.
Qed.

Lemma Forall2_map_same {A B} (R : B -> B -> Prop) (f g : A -> B) (ks : list A) :
  (forall k, In k ks -> R (f k) (g k)) -> Forall2 R (map f ks) (map g ks).
Proof.
  induction ks as [| k ks IH]; intros HR; simpl; constructor.
  - apply HR. left. reflexivity.
  - apply IH. intros x Hx. apply HR. right. exact Hx.
Qed.

Lemma keys_Permutation {K A} `{KeyOrder K} (key : A -> K) (l l' : list A) :
  Permutation l l' -> unique_keys (map key l) = unique_keys (map key l').
Proof.
  intros Hp. apply unique_keys_ext. intros k.
  split; apply Permutation_in; [| apply Permutation_sym]; apply Permutation_map, Hp.
Qed.

Lemma group_of_Permutation {K A} `{KeyOrder K} (key : A -> K) (k : K) (l l' : list A) :
  Permutation l l' -> Permutation (group_of key k l) (group_of key k l').
Proof. apply Permutation_filter'. Qed.

Lemma defined_spreads_Permutation (G G' : list Row) :
  Permutation G G' -> Forall2 Qeq (defined_spreads G) (defined_spreads G').
Proof.
  intros Hp. unfold defined_spreads, groupby.
  rewrite !flat_map_concat_map, !map_map, <- !flat_map_concat_map. cbn [snd].
  rewrite (keys_Permutation key_day G G' Hp).
  apply Forall2_flat_map. intros k _.
  apply spread_spec_Permutation. unfold prices. apply Permutation_map.
  apply (group_of_Permutation key_day), Hp.
Qed.

Lemma monthly_agg_Permutation (k : Z * Z) (G G' : list Row) :
  Permutation G G' ->
  stats_row_feq (stats_row (k, (monthly_agg G, month_spread G)))
                (stats_row (k, (monthly_agg G', month_spread G'))).
Proof.
  intros Hp. unfold stats_row_feq, stats_key.
  cbn [stats_row stats_year stats_month avg_price neg_hours avg_price_res_neg
       avg_price_res_high avg_spread fst snd monthly_agg agg_avg_price
       agg_neg_hours agg_avg_price_res_neg agg_avg_price_res_high].
  rewrite !mean_column, !month_spread_spec. unfold avg_spread_spec.
  split; [reflexivity |].
  split; [apply Qmean_Permutation, Permutation_map, Hp |].
  split.
  { unfold count. cbn [feq].
    rewrite (Permutation_length (Permutation_filter' _ _ _ Hp)). reflexivity. }
  split; [apply Qmean_Permutation, Permutation_map, Permutation_filter', Hp |].
  split; [apply Qmean_Permutation, Permutation_map, Permutation_filter', Hp |].
  apply Qmean_Forall2, defined_spreads_Permutation, Hp.
Qed.

Lemma pv_pos_of_Permutation (G G' : list Row) :
  Permutation G G' -> pv_pos_of G =f= pv_pos_of G'.
Proof.
  intros Hp. unfold pv_pos_of.
  assert (HP : Permutation (nonneg_hours G) (nonneg_hours G'))
    by (apply Permutation_filter', Hp).
  destruct (nonneg_hours G) as [| r P], (nonneg_hours G') as [| r' P'].
  - exact I.
  - apply Permutation_nil in HP. discriminate.
  - apply Permutation_sym, Permutation_nil in HP. discriminate.
  - apply fdiv_Proper; cbn [feq]; apply Qsum_Permutation, Permutation_map, HP.
Qed.

Lemma capture_row_of_Permutation (k : Z * Z) (G G' : list Row) :
  Permutation G G' -> capture_row_feq (capture_row_of k G) (capture_row_of k G').
Proof.
  intros Hp. unfold capture_row_feq, cap_key.
  rewrite !capture_row_of_key, !capture_rate_row, !pv_price_row,
    !baseload_price_row, !pv_price_pos_row_of.
  assert (H1 : fdiv (Fin (Qsum (map revenue G))) (Fin (Qsum (map solar_mw_avg G))) =f=
               fdiv (Fin (Qsum (map revenue G'))) (Fin (Qsum (map solar_mw_avg G'))))
    by (apply fdiv_Proper; cbn [feq]; apply Qsum_Permutation, Permutation_map, Hp).
  assert (H2 : cell (Qmean (prices G)) =f= cell (Qmean (prices G')))
    by (apply Qmean_Permutation, Permutation_map, Hp).
  split; [reflexivity |]. split; [exact H1 |].
  split; [apply pv_pos_of_Permutation, Hp |]. split; [exact H2 |].
  apply fdiv_Proper; assumption.
Qed.

Lemma has_full_day_Permutation (df df' : list Row) :
  Permutation df df' -> has_full_day df = true -> has_full_day df' = true.
Proof.
  intros Hp Hf. apply has_full_day_iff in Hf. destruct Hf as [k [g [Hin Hlen]]].
  apply (In_groupby key_day) in Hin. destruct Hin as [Hk ->].
  apply has_full_day_iff. exists k, (group_of key_day k df'). split.
  - apply (In_groupby key_day). split; [| reflexivity].
    apply (Permutation_in k (Permutation_map key_day Hp)), Hk.
  - rewrite <- (Permutation_length (group_of_Permutation key_day k df df' Hp)).
    exact Hlen.
Qed.

(** X11: both tables depend on the rows of the frame, not on their order: a
    frame with the same rows in another order gives the same months in the
    same order and equal cells, and line 34 raises on both frames or on
    neither. *)
Theorem tables_do_not_depend_on_row_order :
  forall df df' : list Row,
    Permutation df df' ->
    (monthly_stats_table df = None <-> monthly_stats_table df' = None) /\
    (forall table table',
        monthly_stats_table df = Some table ->
        monthly_stats_table df' = Some table' ->
        Forall2 stats_row_feq table table') /\
    Forall2 capture_row_feq (capture_prices df) (capture_prices df').
Proof.
  intros df df' Hp. split; [| split].
  - rewrite !monthly_stats_table_None.
    pose proof (has_full_day_Permutation df df' Hp) as H1.
    pose proof (has_full_day_Permutation df' df (Permutation_sym Hp)) as H2.
    destruct (has_full_day df), (has_full_day df'); split; intros E;
      try reflexivity; try discriminate E.
    + specialize (H1 eq_refl). discriminate H1.
    + specialize (H2 eq_refl). discriminate H2.
  - intros table table' Ht Ht'.
    apply monthly_stats_table_Some in Ht. destruct Ht as [_ ->].
    apply monthly_stats_table_Some in Ht'. destruct Ht' as [_ ->].
    rewrite !stats_rows_by_month.
    unfold months. rewrite <- (keys_Permutation key_month df df' Hp).
    apply Forall2_map_same; intros k _.
    apply monthly_agg_Permutation, (group_of_Permutation key_month), Hp.
  - rewrite !capture_prices_rows.
    unfold months. rewrite <- (keys_Permutation key_month df df' Hp).
    apply Forall2_map_same; intros k _.
    apply capture_row_of_Permutation, (group_of_Permutation key_month), Hp.
Qed.

(** ** Reruns of the page in one session *)

(** What [main] returns from any state: the page of the rows the loader
    hands out, which are the cached ones when the cache is filled; no page
    when line 34 raises on them. *)
Lemma main_run (fs : FileSystem) (ui : Widgets) (s : State) :
  let v := match data_cache s with Some v => v | None => load_data_body fs end in
  main fs ui s =
  match v with
  | None => Some (absent_page, mkState (frames s) (Some None))
  | Some rows =>
      let f := mkDataFrame rows None in
      match monthly_stats_table rows with
      | Some stats_df =>
          Some (page ui rows stats_df,
                mkState (((frames s ++ [f]) ++ [working_copy f]) ++ [working_copy f])
                        (Some (Some rows)))
      | None => None
      end
  end.
Proof.
  intros v. unfold main. unfold bind at 1.
  unfold load_data, st_cache_data. fold v. destruct v as [rows |]; [| reflexivity].
  set (f := mkDataFrame rows None).
  set (s1 := mkState (frames s ++ [f]) (Some (Some rows))).
  assert (Hp : nth_error (frames s1) (length (frames s)) = Some f)
    by apply nth_error_snoc.
  unfold bind at 1. rewrite (calculate_monthly_stats_run _ f s1 Hp).
  change (records f) with rows.
  destruct (monthly_stats_table rows) as [stats_df |]; [| reflexivity].
  unfold bind at 1. rewrite (calculate_capture_prices_run _ f s1 Hp).
  set (s2 := mkState (frames s1 ++ [working_copy f]) (data_cache s1)).
  assert (Hp2 : nth_error (frames s2) (length (frames s)) = Some f)
    by (apply nth_error_snoc_old, Hp).
  pose proof (copy_with_revenue _ f s2 Hp2) as Hc.
  unfold bind in *.
  destruct (copy (length (frames s)) s2) as [[c s3] |]; [| discriminate].
  destruct (deref c s3) as [[g s4] |]; [| discriminate].
  destruct (setitem_solar_revenue c (map revenue (records g)) s4) as [[u s5] |];
    [| discriminate].
  rewrite Hc. reflexivity.
Qed.

(** X12: the file is read once per session.  A first run of the page raises
    exactly when the file is there and no day of its rows has 8 hourly rows
    (line 95); otherwise it returns, and after it a rerun shows the page of
    the first run whatever the file has become since, a file that was
    missing staying missing and a file that was there staying as it was
    read. *)
Theorem rerun_shows_the_first_load :
  forall (fs fs' : FileSystem) (ui : Widgets) (s : State),
    data_cache s = None ->
    (forall events s1,
        main fs ui s = Some (events, s1) ->
        (exists s2, main fs' ui s1 = Some (events, s2)) /\
        match fs with
        | None => events = absent_page
        | Some csv =>
            exists stats_df,
              monthly_stats_table (map load_row csv) = Some stats_df /\
              events = page ui (map load_row csv) stats_df
        end) /\
    (main fs ui s = None <->
     exists csv, fs = Some csv /\
                 forall k g, In (k, g) (groupby key_day (map load_row csv)) ->
                             (length g < 8)%nat).
Proof.
  intros fs fs' ui s Hc.
  pose proof (main_run fs ui s) as H1. rewrite Hc in H1. cbv zeta in H1.
  destruct fs as [csv |]; cbn [load_data_body] in H1.
  - destruct (monthly_stats_table (map load_row csv)) as [stats_df |] eqn:Et.
    + split.
      * intros events s1 Hrun. rewrite H1 in Hrun. inversion Hrun; subst events s1.
        split; [| exists stats_df; auto].
        rewrite main_run. cbn [data_cache]. cbv zeta. rewrite Et.
        eexists. reflexivity.
      * split; [intros E; rewrite H1 in E; discriminate E |].
        intros [csv' [E Hshort]]. inversion E; subst csv'.
        apply no_full_day_iff, monthly_stats_table_None in Hshort. congruence.
    + split.
      * intros events s1 Hrun. rewrite H1 in Hrun. discriminate Hrun.
      * split; [| intros _; exact H1].
        intros _. exists csv. split; [reflexivity |].
        apply no_full_day_iff, monthly_stats_table_None, Et.
  - split.
    + intros events s1 Hrun. rewrite H1 in Hrun. inversion Hrun; subst events s1.
      split; [| reflexivity]. rewrite main_run. eexists. reflexivity.
    + split; [intros E; rewrite H1 in E; discriminate E |].
      intros [csv [E _]]. discriminate E.
Qed.

(** ** The table of the first tab *)

Lemma py_getitem_month_abbr (m : Z) :
  (1 <= m <= 12)%Z -> exists name, py_getitem calendar_month_abbr m = Some name.
Proof.
  intros Hm. unfold py_getitem.
  assert (E : (0 <=? m)%Z = true) by (apply Z.leb_le; lia). rewrite E.
  assert (Hn : (Z.to_nat m < length calendar_month_abbr)%nat) by (simpl; lia).
  apply nth_error_Some in Hn.
  destruct (nth_error calendar_month_abbr (Z.to_nat m)) as [name |]; [| congruence].
  exists name. reflexivity.
Qed.

Lemma apply_rows_total {A B} (f : A -> option B) (l : list A) :
  (forall a, In a l -> exists b, f a = Some b) ->
  exists rows, apply_rows f l = Some rows /\
               Forall2 (fun a b => f a = Some b) l rows.
Proof.
  induction l as [| a l IH]; intros Hf.
  - exists []. split; [reflexivity | constructor].
  - destruct (Hf a (or_introl eq_refl)) as [b Hb].
    destruct IH as [rows [Hr HF]]; [intros x Hx; apply Hf; right; exact Hx |].
    exists (b :: rows). simpl. rewrite Hb, Hr. split; [reflexivity |].
    constructor; assumption.
Qed.

Lemma apply_rows_raises {A B} (f : A -> option B) (l : list A) (a : A) :
  In a l -> f a = None -> apply_rows f l = None.
Proof.
  induction l as [| x l IH]; intros Hin Hf; [destruct Hin |].
  simpl. destruct Hin as [-> | Hin].
  - rewrite Hf. reflexivity.
  - destruct (f x); [| reflexivity]. rewrite (IH Hin Hf). reflexivity.
Qed.

Lemma isin_In (y : Z) (l : list Z) : isin y l = true <-> In y l.
Proof.
  unfold isin. rewrite existsb_exists. split.
  - intros [x [Hx E]]. apply Z.eqb_eq in E. subst. exact Hx.
  - intros Hy. exists y. split; [exact Hy | apply Z.eqb_refl].
Qed.

(** X13: when the statistics are produced, the first tab shows their rows
    whose year is selected, in order, each with the abbreviation of its
    month, the months of the selected rows being calendar months; with
    every year of the table selected it shows one line per month of the
    frame. *)
Theorem first_tab_shows_the_selected_years :
  forall (df : list Row) (stats_df : list StatsRow) (selected : list Z),
    monthly_stats_table df = Some stats_df ->
    let chosen := filter (fun r => isin (stats_year r) selected) stats_df in
    (forall r, In r chosen <-> In r stats_df /\ In (stats_year r) selected) /\
    ((forall r, In r df -> In (year r) selected -> (1 <= month r <= 12)%Z) ->
     exists rows,
       monthly_statistics_view stats_df selected = Some rows /\
       Forall2 (fun s v => py_getitem calendar_month_abbr (stats_month s) =
                           Some (month_name v) /\
                           show_year v = stats_year s /\
                           show_avg_price v = avg_price s /\
                           show_avg_spread v = avg_spread s /\
                           show_neg_hours v = neg_hours s /\
                           show_avg_price_res_neg v = avg_price_res_neg s /\
                           show_avg_price_res_high v = avg_price_res_high s)
               chosen rows /\
       ((forall y, In y (map stats_year stats_df) -> In y selected) ->
        length rows = length (months df))).
Proof.
  intros df stats_df selected Ht chosen.
  apply monthly_stats_table_Some in Ht. destruct Ht as [_ Ht].
  assert (Hchosen : forall r, In r chosen <->
                              In r stats_df /\ In (stats_year r) selected).
  { intros r. unfold chosen. rewrite filter_In, isin_In. reflexivity. }
  split; [exact Hchosen |].
  intros Hmonths.
  destruct (apply_rows_total show_row chosen) as [rows [Hr HF]].
  { intros s Hs. apply Hchosen in Hs. destruct Hs as [Hs Hsel].
    rewrite Ht in Hs. apply In_stats_rows in Hs.
    destruct Hs as [[y m] [Hk ->]].
    cbn [stats_row stats_year fst snd] in Hsel.
    apply in_map_iff in Hk. destruct Hk as [r [Ek Hr]].
    unfold key_month in Ek. inversion Ek; subst y m.
    destruct (py_getitem_month_abbr (month r) (Hmonths r Hr Hsel)) as [name Hn].
    unfold show_row. cbn [stats_row stats_month fst snd]. rewrite Hn.
    eexists. reflexivity. }
  exists rows. split; [exact Hr |]. split.
  - eapply Forall2_impl; [| exact HF]. intros s v Hsv. unfold show_row in Hsv.
    destruct (py_getitem calendar_month_abbr (stats_month s)) as [name |];
      [| discriminate].
    inversion Hsv; subst v. cbn. repeat split; reflexivity.
  - intros Hall. rewrite <- (Forall2_length HF).
    assert (E : chosen = stats_df).
    { unfold chosen. apply forallb_filter_id. apply forallb_forall.
      intros r Hr'. apply isin_In, Hall, in_map, Hr'. }
    rewrite E, Ht. rewrite <- (stats_keys df), length_map.
    reflexivity.
Qed.

(** ** The plots of the third tab *)

Lemma keqb_month (r : Row) (y m : Z) :
  keqb (key_month r) (y, m) = Z.eqb (year r) y && Z.eqb (month r) m.
Proof.
  unfold keqb, kcmp, Key_pair, key_month. cbn [fst snd].
  unfold kcmp, Key_Z.
  destruct (Z.compare_spec (year r) y) as [E | E | E].
  - subst. rewrite Z.eqb_refl. cbn [andb].
    destruct (Z.compare_spec (month r) m) as [E' | E' | E'].
    + subst. rewrite Z.eqb_refl. reflexivity.
    + symmetry. apply Z.eqb_neq. lia.
    + symmetry. apply Z.eqb_neq. lia.
  - assert (En : Z.eqb (year r) y = false) by (apply Z.eqb_neq; lia).
    rewrite En. reflexivity.
  - assert (En : Z.eqb (year r) y = false) by (apply Z.eqb_neq; lia).
    rewrite En. reflexivity.
Qed.

Lemma selection_month_group (df : list Row) (y m : Z) (name : string) :
  py_index name calendar_month_name = Some m ->
  selection df y name = Some (month_group (y, m) df).
Proof.
  intros Hi. unfold selection. rewrite Hi. f_equal.
  unfold month_group, group_of. apply filter_ext.
  intros r. symmetry. apply keqb_month.
Qed.

(** Every month offered by the select boxes is found in the calendar, at
    its month number. *)
Lemma month_options_index (name : string) :
  In name month_options ->
  exists m, (1 <= m <= 12)%Z /\
            py_index name calendar_month_name = Some m /\
            py_getitem calendar_month_name m = Some name.
Proof.
  intros Hin. unfold month_options, calendar_month_name in Hin. cbn [tl In] in Hin.
  repeat (destruct Hin as [<- | Hin];
          [eexists; split; [| split; vm_compute; reflexivity]; lia |]).
  destruct Hin.
Qed.

(** X14: for a month chosen by name and any year, the scatter plot shows the
    rows of that year and of the month of that name, which are the rows
    the monthly statistics, once produced, aggregate for their row of that
    month; it shows the warning instead exactly when the statistics have no
    such row. *)
Theorem scatter_shows_the_month_of_the_statistics :
  forall (df : list Row) (table : list StatsRow) (sel_year : Z) (sel_month : string),
    monthly_stats_table df = Some table ->
    In sel_month month_options ->
    exists m,
      (1 <= m <= 12)%Z /\
      py_getitem calendar_month_name m = Some sel_month /\
      ((exists row, In row table /\ stats_key row = (sel_year, m)) ->
       scatter df sel_year sel_month =
       Some (st_altair_chart (month_group (sel_year, m) df))) /\
      (~ (exists row, In row table /\ stats_key row = (sel_year, m)) ->
       scatter df sel_year sel_month = Some (st_warning "No data for selection.")).
Proof.
  intros df table y name Ht Hin.
  apply monthly_stats_table_Some in Ht. destruct Ht as [_ ->].
  destruct (month_options_index name Hin) as [m [Hm [Hi Hg]]].
  exists m. split; [exact Hm |]. split; [exact Hg |].
  assert (Hrow : (exists row, In row (stats_rows df) /\ stats_key row = (y, m)) <->
                 In (y, m) (map key_month df)).
  { rewrite <- In_months, <- (stats_keys df), in_map_iff. split.
    - intros [row [Hr E]]. exists row. auto.
    - intros [row [E Hr]]. exists row. auto. }
  unfold scatter. rewrite (selection_month_group df y m name Hi).
  split.
  - intros Hex. apply Hrow in Hex.
    pose proof (group_of_nonempty key_month (y, m) df Hex) as Hne.
    unfold month_group. destruct (group_of key_month (y, m) df); [congruence | reflexivity].
  - intros Hno. destruct (month_group (y, m) df) as [| r G] eqn:E; [reflexivity |].
    exfalso. apply Hno, Hrow.
    assert (Hr : In r (month_group (y, m) df)) by (rewrite E; left; reflexivity).
    apply (group_of_key key_month) in Hr. destruct Hr as [Hr <-]. apply in_map, Hr.
Qed.

(** *** Labels of the compared months *)

Lemma label_split (a b s1 s2 : string) :
  no_space a = true -> no_space b = true ->
  (a ++ " " ++ s1 = b ++ " " ++ s2)%string -> a = b /\ s1 = s2.
Proof.
  revert b. induction a as [| c a IH]; intros [| d b] Ha Hb E; simpl in E.
  - inversion E. auto.
  - inversion E; subst. unfold no_space in Hb. simpl in Hb. discriminate.
  - inversion E; subst. unfold no_space in Ha. simpl in Ha. discriminate.
  - inversion E as [[Hc E']].
    unfold no_space in Ha, Hb. simpl in Ha, Hb.
    apply andb_true_iff in Ha, Hb. destruct Ha as [_ Ha], Hb as [_ Hb].
    destruct (IH b Ha Hb E') as [Eab Es]. subst. auto.
Qed.

Lemma to_int_not_nil (y : Z) : Z.to_int y <> Decimal.Pos Decimal.Nil /\
                                Z.to_int y <> Decimal.Neg Decimal.Nil.
Proof.
  destruct y as [| p | p]; simpl; split; try discriminate;
    intros E; inversion E as [E'];
    apply (DecimalPos.Unsigned.to_uint_nonnil p); exact E'.
Qed.

Lemma str_injective (y1 y2 : Z) : str y1 = str y2 -> y1 = y2.
Proof.
  unfold str. intros E.
  destruct (to_int_not_nil y1) as [H1 H1'], (to_int_not_nil y2) as [H2 H2'].
  pose proof (NilZero.isi _ H1 H1') as E1.
  pose proof (NilZero.isi _ H2 H2') as E2.
  rewrite E in E1. rewrite E1 in E2. inversion E2 as [E3].
  apply DecimalZ.to_int_inj. exact E3.
Qed.

Lemma month_options_no_space (name : string) :
  In name month_options -> no_space name = true.
Proof.
  intros Hin. unfold month_options, calendar_month_name in Hin. cbn [tl In] in Hin.
  repeat (destruct Hin as [<- | Hin]; [reflexivity |]). destruct Hin.
Qed.

(** X15: the comparison chart holds the rows of month A followed by the rows of
    month B, each row with the label of its selection, and is not drawn
    when neither month has a row; two selections have the same label only
    if they are the same month of the same year. *)
Theorem comparison_labels_tell_the_months_apart :
  forall (df : list Row) (y1 y2 : Z) (m1 m2 : string),
    In m1 month_options -> In m2 month_options ->
    exists i1 i2,
      py_index m1 calendar_month_name = Some i1 /\
      py_index m2 calendar_month_name = Some i2 /\
      let A := month_group (y1, i1) df in
      let B := month_group (y2, i2) df in
      (A = [] -> B = [] -> compare_months df y1 m1 y2 m2 = Some None) /\
      (A ++ B <> [] ->
       compare_months df y1 m1 y2 m2 =
       Some (Some (map (fun r => (r, label m1 y1)) A ++
                   map (fun r => (r, label m2 y2)) B))) /\
      (label m1 y1 = label m2 y2 <-> m1 = m2 /\ y1 = y2).
Proof.
  intros df y1 y2 m1 m2 H1 H2.
  destruct (month_options_index m1 H1) as [i1 [_ [Hi1 _]]].
  destruct (month_options_index m2 H2) as [i2 [_ [Hi2 _]]].
  exists i1, i2. split; [exact Hi1 |]. split; [exact Hi2 |].
  cbv zeta. unfold compare_months.
  rewrite (selection_month_group df y1 i1 m1 Hi1).
  rewrite (selection_month_group df y2 i2 m2 Hi2).
  split; [| split].
  - intros -> ->. reflexivity.
  - intros Hne.
    destruct (month_group (y1, i1) df) as [| a A]; [| reflexivity].
    destruct (month_group (y2, i2) df) as [| b B]; [| reflexivity].
    exfalso. apply Hne. reflexivity.
  - split.
    + intros E. unfold label in E.
      destruct (label_split m1 m2 (str y1) (str y2)
                  (month_options_no_space m1 H1) (month_options_no_space m2 H2) E)
        as [Em Es].
      split; [exact Em | apply str_injective, Es].
    + intros [-> ->]. reflexivity.
Qed.

(** ** Frames built by the loader *)

Lemma key_day_loaded (c : CsvRow) : key_day (load_row c) = day_key_of (date (load_row c)).
Proof. reflexivity. Qed.

Lemma kcmp_day_key_of (d d' : Date) : kcmp (day_key_of d) (day_key_of d') = kcmp d d'.
Proof.
  destruct d as [[y m] x], d' as [[y' m'] x'].
  cbv [day_key_of kcmp Key_pair Key_Z fst snd].
  destruct (y ?= y')%Z, (m ?= m')%Z; reflexivity.
Qed.

Lemma unique_keys_day_key_of (ds : list Date) :
  unique_keys (map day_key_of ds) = map day_key_of (unique_keys ds).
Proof.
  induction ds as [| d ds IH]; [reflexivity |]. simpl. rewrite IH. clear IH.
  induction (unique_keys ds) as [| x l IHl]; [reflexivity |].
  simpl. rewrite kcmp_day_key_of.
  destruct (kcmp d x); simpl; [reflexivity | reflexivity | rewrite IHl; reflexivity].
Qed.

(** X16: the loader keeps the columns of each line of the file and derives
    [datetime], [year], [month] and [date] from its timestamp, so that the
    year and the month of a row are those of its date and a calendar day is
    never split between two groups: line 34 computes exactly one value per
    distinct date of the frame, the dates ascending, under the year and
    month of the date, and so have the daily spreads when they are
    produced. *)
Theorem loaded_frame_has_one_spread_per_date :
  forall csv : list CsvRow,
    let df := map load_row csv in
    Forall2 (fun c r =>
               datetime r = datetime_utc c /\
               year r = ts_year (datetime_utc c) /\
               month r = ts_month (datetime_utc c) /\
               date r = (ts_year (datetime_utc c), ts_month (datetime_utc c),
                         ts_day (datetime_utc c)) /\
               residual_load_mw_avg r = csv_residual_load_mw_avg c /\
               day_ahead_price_eur_mwh r = csv_day_ahead_price_eur_mwh c /\
               solar_mw_avg r = csv_solar_mw_avg c)
            csv df /\
    length df = length csv /\
    (forall r, In r df -> date r = (year r, month r, snd (date r))) /\
    map (fun v => snd (fst v)) (spread_values df) = unique_keys (map date df) /\
    (forall k v, In (k, v) (spread_values df) -> k = day_key_of (snd k)) /\
    (forall daily,
        daily_spreads df = Some daily ->
        map (fun d => snd (fst d)) daily = unique_keys (map date df) /\
        (forall k v, In (k, v) daily -> k = day_key_of (snd k))).
Proof.
  intros csv df.
  assert (Hkeys : map key_day df = map day_key_of (map date df)).
  { unfold df. rewrite !map_map. apply map_ext. intros c. reflexivity. }
  assert (Hv : map fst (spread_values df) = map day_key_of (unique_keys (map date df))).
  { unfold spread_values, groupby. rewrite !map_map. cbn [fst]. rewrite map_id.
    rewrite Hkeys. apply unique_keys_day_key_of. }
  assert (Hd : map fst (daily_table df) = map day_key_of (unique_keys (map date df))).
  { unfold daily_table, groupby. rewrite !map_map. cbn [fst]. rewrite map_id.
    rewrite Hkeys. apply unique_keys_day_key_of. }
  assert (Hdates : forall ds : list Date, map snd (map day_key_of ds) = ds).
  { intros ds. rewrite map_map.
    rewrite (map_ext _ (fun d => d)) by (intros d; reflexivity). apply map_id. }
  split; [| split; [apply length_map | split; [| split; [| split]]]].
  - unfold df. clear. induction csv as [| c csv IH]; simpl; constructor; [| exact IH].
    repeat split; reflexivity.
  - intros r Hr. unfold df in Hr. apply in_map_iff in Hr.
    destruct Hr as [c [<- _]]. reflexivity.
  - rewrite <- (map_map fst snd), Hv. apply Hdates.
  - intros k v Hin. assert (Hk : In k (map fst (spread_values df)))
      by (apply in_map_iff; exists (k, v); auto).
    rewrite Hv in Hk. apply in_map_iff in Hk. destruct Hk as [d [<- _]].
    reflexivity.
  - intros daily Hdaily. rewrite daily_spreads_eq in Hdaily.
    destruct (has_full_day df); [| discriminate].
    inversion Hdaily; subst daily. split.
    + rewrite <- (map_map fst snd), Hd. apply Hdates.
    + intros k v Hin. assert (Hk : In k (map fst (daily_table df)))
        by (apply in_map_iff; exists (k, v); auto).
      rewrite Hd in Hk. apply in_map_iff in Hk. destruct Hk as [d [<- _]].
      reflexivity.
Qed.

(** ** The further properties on example frames *)

Lemma first_day_table : monthly_stats_table first_day = Some (stats_rows first_day).
Proof. vm_compute. reflexivity. Defined.

Lemma In_first_day_stats : In first_day_stats (stats_rows first_day).
Proof. vm_compute. left. reflexivity. Defined.

Lemma In_first_day_capture : In first_day_capture (capture_prices first_day).
Proof. vm_compute. left. reflexivity. Defined.

Lemma In_january_year : In january_year (yearly_overview (with_revenue january)).
Proof. vm_compute. left. reflexivity. Defined.

Lemma In_two_months_year : In two_months_year (yearly_overview (with_revenue two_months)).
Proof. vm_compute. left. reflexivity. Defined.

Lemma january_price_range :
  forall r, In r (month_group (cap_key january_capture) january) ->
            -(12) <= day_ahead_price_eur_mwh r <= 80.
Proof.
  intros r Hr. vm_compute in Hr.
  repeat (destruct Hr as [<- | Hr]; [split; vm_compute; discriminate |]).
  destruct Hr.
Defined.

Lemma january_single_month :
  forall r, In r january -> year r = yr_year january_year ->
            month r = cap_month january_capture.
Proof.
  intros r Hr _. vm_compute in Hr.
  repeat (destruct Hr as [<- | Hr]; [reflexivity |]).
  destruct Hr.
Defined.

Lemma one_row_per_month_witness :
  monthly_stats_table january = Some (stats_rows january) /\
  map stats_key (stats_rows january) = map cap_key (capture_prices january) /\
  map cap_key (capture_prices january) = [january_key].
Proof.
  split; [exact january_table |].
  split; [exact (proj2 (tables_have_one_row_per_month january) _ january_table) |].
  reflexivity.
Defined.

Lemma baseload_price_witness :
  monthly_stats_table january = Some (stats_rows january) /\
  Forall2 (fun s c => stats_key s = cap_key c /\ baseload_price c = avg_price s)
          (stats_rows january) (capture_prices january) /\
  baseload_price january_capture =f= Fin (353 # 10).
Proof.
  split; [exact january_table |].
  split; [exact (baseload_price_is_avg_price january _ january_table) |].
  vm_compute. reflexivity.
Defined.

Lemma avg_price_witness :
  monthly_stats_table january = Some (stats_rows january) /\
  In january_stats (stats_rows january) /\
  exists a, avg_price january_stats = Fin a /\
            forall lo hi,
              (forall r, In r (month_group (stats_year january_stats,
                                            stats_month january_stats) january) ->
                         lo <= day_ahead_price_eur_mwh r <= hi) ->
              lo <= a <= hi.
Proof.
  split; [exact january_table |]. split; [exact In_january_stats |].
  exact (proj1 (proj2 (avg_price_defined_and_bounded january _ january_stats
                         january_table In_january_stats))).
Defined.

Lemma no_negative_hours_witness :
  monthly_stats_table first_day = Some (stats_rows first_day) /\
  In first_day_stats (stats_rows first_day) /\
  In first_day_capture (capture_prices first_day) /\
  stats_key first_day_stats = cap_key first_day_capture /\
  neg_hours first_day_stats =f= Fin 0 /\
  pv_price_pos first_day_capture = pv_price first_day_capture /\
  pv_price first_day_capture =f= Fin 50.
Proof.
  assert (Hk : stats_key first_day_stats = cap_key first_day_capture) by reflexivity.
  assert (Hn : neg_hours first_day_stats =f= Fin 0) by (vm_compute; reflexivity).
  split; [exact first_day_table |].
  split; [exact In_first_day_stats |]. split; [exact In_first_day_capture |].
  split; [exact Hk |]. split; [exact Hn |].
  split; [| vm_compute; reflexivity].
  exact (proj2 (proj2 (no_negative_hours_same_capture_price first_day _
                         first_day_stats first_day_capture first_day_table
                         In_first_day_stats In_first_day_capture Hk Hn))).
Defined.

Lemma spread_range_witness :
  monthly_stats_table january = Some (stats_rows january) /\
  In january_stats (stats_rows january) /\
  (avg_spread january_stats = NaN \/
   exists v, avg_spread january_stats = Fin v /\ 0 <= v /\
             forall lo hi,
               (forall r, In r (month_group (stats_key january_stats) january) ->
                          lo <= day_ahead_price_eur_mwh r <= hi) ->
               v <= hi - lo).
Proof.
  split; [exact january_table |]. split; [exact In_january_stats |].
  exact (proj2 spread_is_nonnegative_and_within_range january _ january_stats
           january_table In_january_stats).
Defined.

Lemma monthly_sums_witness :
  monthly_stats_table january = Some (stats_rows january) /\
  sum (map neg_hours (stats_rows january)) =f=
  Fin (inject_Z (Z.of_nat
         (length (filter (fun r => Qltb (day_ahead_price_eur_mwh r) 0) january)))) /\
  length (filter (fun r => Qltb (day_ahead_price_eur_mwh r) 0) january) = 1%nat.
Proof.
  split; [exact january_table |].
  split; [exact (proj2 (proj2 (monthly_sums_add_up january)) _ january_table) |].
  reflexivity.
Defined.

Lemma price_range_witness :
  In january_capture (capture_prices january) /\
  nonneg_solar (month_group (cap_key january_capture) january) /\
  0 < Qsum (map solar_mw_avg (month_group (cap_key january_capture) january)) /\
  exists a, pv_price january_capture = Fin a /\ -(12) <= a <= 80.
Proof.
  assert (Hpos : 0 < Qsum (map solar_mw_avg (month_group (cap_key january_capture) january)))
    by (vm_compute; reflexivity).
  split; [exact In_january_capture |]. split; [exact nonneg_solar_january |].
  split; [exact Hpos |].
  exact (proj1 (capture_prices_within_price_range january january_capture (-(12)) 80
                  In_january_capture nonneg_solar_january january_price_range) Hpos).
Defined.

Lemma single_month_year_witness :
  In january_year (yearly_overview (with_revenue january)) /\
  In january_capture (capture_prices january) /\
  cap_year january_capture = yr_year january_year /\
  PV_Price january_year = pv_price january_capture /\
  PV_Price_Pos january_year = pv_price_pos january_capture /\
  Baseload_Price january_year = baseload_price january_capture /\
  Capture_Rate january_year = capture_rate january_capture.
Proof.
  split; [exact In_january_year |]. split; [exact In_january_capture |].
  split; [reflexivity |].
  exact (single_month_year_matches_month january january_year january_capture
           In_january_year In_january_capture eq_refl january_single_month).
Defined.

Lemma yearly_from_monthly_witness :
  In two_months_year (yearly_overview (with_revenue two_months)) /\
  PV_Price two_months_year =f=
  fdiv (sum (map sum_solar_revenue
                 (filter (fun c => Z.eqb (cap_year c) (yr_year two_months_year))
                         (capture_prices two_months))))
       (sum (map sum_solar_mw_avg
                 (filter (fun c => Z.eqb (cap_year c) (yr_year two_months_year))
                         (capture_prices two_months)))).
Proof.
  split; [exact In_two_months_year |].
  exact (yearly_pv_price_from_monthly_sums two_months two_months_year In_two_months_year).
Defined.

Lemma row_order_witness :
  Permutation january (rev january) /\
  monthly_stats_table january = Some (stats_rows january) /\
  monthly_stats_table (rev january) = Some (stats_rows (rev january)) /\
  Forall2 stats_row_feq (stats_rows january) (stats_rows (rev january)) /\
  Forall2 capture_row_feq (capture_prices january) (capture_prices (rev january)).
Proof.
  assert (Hrev : monthly_stats_table (rev january) = Some (stats_rows (rev january)))
    by (vm_compute; reflexivity).
  destruct (tables_do_not_depend_on_row_order january (rev january)
              (Permutation_rev january)) as [_ [Hstats Hcapture]].
  split; [apply Permutation_rev |]. split; [exact january_table |].
  split; [exact Hrev |].
  split; [exact (Hstats _ _ january_table Hrev) | exact Hcapture].
Defined.

Lemma rerun_witness :
  data_cache fresh = None /\
  exists events s1 s2,
    main (Some january_csv) (mkWidgets [2024%Z]) fresh = Some (events, s1) /\
    main None (mkWidgets [2024%Z]) s1 = Some (events, s2) /\
    events = page (mkWidgets [2024%Z]) january (stats_rows january).
Proof.
  split; [reflexivity |].
  destruct (main (Some january_csv) (mkWidgets [2024%Z]) fresh)
    as [[events s1] |] eqn:Hrun; [| vm_compute in Hrun; discriminate Hrun].
  destruct (proj1 (rerun_shows_the_first_load (Some january_csv) None
                     (mkWidgets [2024%Z]) fresh eq_refl) events s1 Hrun)
    as [[s2 Hrerun] [stats_df [Ht Hpage]]].
  exists events, s1, s2. split; [reflexivity |]. split; [exact Hrerun |].
  change (map load_row january_csv) with january in Ht, Hpage.
  rewrite january_table in Ht. inversion Ht; subst stats_df. exact Hpage.
Defined.

Lemma In_January : In "January"%string month_options.
Proof. left. reflexivity. Defined.

Lemma In_February : In "February"%string month_options.
Proof. right. left. reflexivity. Defined.

Lemma first_tab_witness :
  monthly_stats_table january = Some (stats_rows january) /\
  (forall r, In r january -> In (year r) [2024%Z] -> (1 <= month r <= 12)%Z) /\
  exists rows,
    monthly_statistics_view (stats_rows january) [2024%Z] = Some rows /\
    length rows = length (months january) /\
    map month_name rows = ["Jan"%string].
Proof.
  assert (Hmonths : forall r, In r january -> In (year r) [2024%Z] ->
                              (1 <= month r <= 12)%Z).
  { intros r Hr _. vm_compute in Hr.
    repeat (destruct Hr as [<- | Hr]; [vm_compute; split; discriminate |]).
    destruct Hr. }
  split; [exact january_table |]. split; [exact Hmonths |].
  destruct (proj2 (first_tab_shows_the_selected_years january _ [2024%Z] january_table)
                  Hmonths) as [rows [Hview [_ Hall]]].
  exists rows. split; [exact Hview |]. split.
  - apply Hall. intros y Hy. vm_compute in Hy. destruct Hy as [<- | []].
    left. reflexivity.
  - vm_compute in Hview. inversion Hview. reflexivity.
Defined.

Lemma scatter_witness :
  monthly_stats_table january = Some (stats_rows january) /\
  In "January"%string month_options /\
  exists m,
    (1 <= m <= 12)%Z /\
    py_getitem calendar_month_name m = Some "January"%string /\
    ((exists row, In row (stats_rows january) /\ stats_key row = (2024%Z, m)) ->
     scatter january 2024 "January" =
     Some (st_altair_chart (month_group (2024%Z, m) january))) /\
    (~ (exists row, In row (stats_rows january) /\ stats_key row = (2024%Z, m)) ->
     scatter january 2024 "January" = Some (st_warning "No data for selection.")).
Proof.
  split; [exact january_table |]. split; [exact In_January |].
  exact (scatter_shows_the_month_of_the_statistics january _ 2024 "January"
           january_table In_January).
Defined.

Lemma loaded_frame_witness :
  map load_row january_csv = january /\
  daily_spreads january = Some (daily_table january) /\
  map (fun d => snd (fst d)) (daily_table january) = [(2024, 1, 1); (2024, 1, 2)]%Z /\
  map (fun d => snd (fst d)) (daily_table january) = unique_keys (map date january).
Proof.
  split; [reflexivity |]. split; [exact january_daily |].
  split; [reflexivity |].
  exact (proj1 (proj2 (proj2 (proj2 (proj2 (proj2
           (loaded_frame_has_one_spread_per_date january_csv))))) _ january_daily)).
Defined.

Lemma comparison_witness :
  In "January"%string month_options /\ In "February"%string month_options /\
  exists i1 i2,
    py_index "January" calendar_month_name = Some i1 /\
    py_index "February" calendar_month_name = Some i2 /\
    (month_group (2024%Z, i1) two_months = [] ->
     month_group (2024%Z, i2) two_months = [] ->
     compare_months two_months 2024 "January" 2024 "February" = Some None) /\
    (month_group (2024%Z, i1) two_months ++ month_group (2024%Z, i2) two_months <> [] ->
     compare_months two_months 2024 "January" 2024 "February" =
     Some (Some (map (fun r => (r, label "January" 2024))
                     (month_group (2024%Z, i1) two_months) ++
                 map (fun r => (r, label "February" 2024))
                     (month_group (2024%Z, i2) two_months)))) /\
    (label "January" 2024 = label "February" 2024 <->
     "January"%string = "February"%string /\ 2024%Z = 2024%Z).
Proof.
  split; [exact In_January |]. split; [exact In_February |].
  exact (comparison_labels_tell_the_months_apart two_months 2024 2024
           "January" "February" In_January In_February).
Defined.
